(** * A shallow embedding of the 6TiSCH simulator (SimEngine/Mote.py,
      SimEngine/Propagation.py) and the properties of its TSCH, 6top, OTF and
      propagation code.

    Conventions.
    - Python integers are [Z]; a mote object is referred to by its [id], and
      the motes of a run live in a map from ids to mote states, so that a
      method of one mote that writes to another mote is a function on that map.
    - A [dict] is a [gmap]; a [KeyError], [IndexError], [ValueError],
      [TypeError] or a failed [assert] is the result [None].
    - Packets are Python dicts that sit in a queue and are referred to by
      [pktToSend] at the same time; they are kept in a store of objects, and
      the queues and [pktToSend] hold references into it.
    - Floating-point values that the code only stores, compares or rounds up
      to an integer (RSSI, PDR, arrival times, the traffic portions of OTF)
      are rationals; [_computeSINR], which computes with powers and
      logarithms, is embedded over the real numbers.
    - The event engine (SimEngine.py) is not part of the embedded sources; a
      call that only schedules a future callback leaves the mote state as it
      is and is not represented. *)

From Stdlib Require Import ZArith QArith Qround Reals Lra Lia String.
From stdpp Require Import gmap strings list fin_maps option.

Local Open Scope Z_scope.

(** ** Python list primitives *)

(** [l[i]]: a negative index counts from the end; out of range raises. *)
Definition py_index {A : Type} (l : list A) (i : Z) : option A :=
  if bool_decide (0 ≤ i) then l !! Z.to_nat i
  else if bool_decide (- Z.of_nat (length l) ≤ i)
       then l !! Z.to_nat (Z.of_nat (length l) + i)
       else None.

(** [l[i] = x] *)
Definition py_setitem {A : Type} (l : list A) (i : Z) (x : A) : option (list A) :=
  if bool_decide (0 ≤ i) then
    if bool_decide (i < Z.of_nat (length l)) then Some (<[Z.to_nat i := x]> l) else None
  else if bool_decide (- Z.of_nat (length l) ≤ i)
       then Some (<[Z.to_nat (Z.of_nat (length l) + i) := x]> l)
       else None.

(** [range(n)] and [range(a, b)] *)
Definition py_range (a b : Z) : list Z := seqZ a (b - a).

(** [l[:n]] for [n] a non-negative integer or [None] *)
Definition py_prefix {A : Type} (l : list A) (n : Z) : list A :=
  if bool_decide (0 ≤ n) then take (Z.to_nat n) l
  else take (length l - Z.to_nat (- n)) l.

(** [l[-n:]] for a positive [n]: the last [n] elements. *)
Definition py_last {A : Type} (n : nat) (l : list A) : list A :=
  drop (length l - n) l.

(** [list(set(l))]: the elements without repetition, in an order that the
    language does not fix. *)
Definition py_list_set (l : list Z) : list Z := elements (list_to_set l : gset Z).

(** ** Cells, packets, transactions *)

Inductive direction : Type := DIR_TX | DIR_RX | DIR_SHARED.

#[global] Instance direction_eq_dec : EqDecision direction.
Proof. solve_decision. Defined.

Definition NUM_SUFFICIENT_TX : Z := 10.
Definition NUM_MAX_HISTORY : nat := 32.
Definition TSCH_QUEUE_SIZE : Z := 50.
Definition TSCH_MAXTXRETRIES : Z := 5.

(** A cell of the schedule: the dict that [_tsch_addCells] and [boot] build. *)
Record cell : Type := Build_cell {
  cell_ch : Z;  (* 'ch' *)
  cell_dir : direction;  (* 'dir' *)
  cell_neighbor : option Z;  (* 'neighbor': a mote, or None on SHARED cells *)
  numTx : Z;
  numTxAck : Z;
  numRx : Z;
  history : list Z;
  rxDetectedCollision : bool;
  debug_canbeInterfered : list Z;
  debug_interference : list Z;
  debug_lockInterference : list Z;
  debug_cellCreatedAsn : Z
}.

Definition set_numTx (v : Z) (c : cell) : cell :=
  Build_cell (cell_ch c) (cell_dir c) (cell_neighbor c) v (numTxAck c) (numRx c) (history c)
    (rxDetectedCollision c) (debug_canbeInterfered c) (debug_interference c)
    (debug_lockInterference c) (debug_cellCreatedAsn c).
Definition set_numTxAck (v : Z) (c : cell) : cell :=
  Build_cell (cell_ch c) (cell_dir c) (cell_neighbor c) (numTx c) v (numRx c) (history c)
    (rxDetectedCollision c) (debug_canbeInterfered c) (debug_interference c)
    (debug_lockInterference c) (debug_cellCreatedAsn c).
Definition set_numRx (v : Z) (c : cell) : cell :=
  Build_cell (cell_ch c) (cell_dir c) (cell_neighbor c) (numTx c) (numTxAck c) v (history c)
    (rxDetectedCollision c) (debug_canbeInterfered c) (debug_interference c)
    (debug_lockInterference c) (debug_cellCreatedAsn c).
Definition set_history (v : list Z) (c : cell) : cell :=
  Build_cell (cell_ch c) (cell_dir c) (cell_neighbor c) (numTx c) (numTxAck c) (numRx c) v
    (rxDetectedCollision c) (debug_canbeInterfered c) (debug_interference c)
    (debug_lockInterference c) (debug_cellCreatedAsn c).
Definition set_rxDetectedCollision (v : bool) (c : cell) : cell :=
  Build_cell (cell_ch c) (cell_dir c) (cell_neighbor c) (numTx c) (numTxAck c) (numRx c)
    (history c) v (debug_canbeInterfered c) (debug_interference c) (debug_lockInterference c)
    (debug_cellCreatedAsn c).
Definition set_debug_canbeInterfered (v : list Z) (c : cell) : cell :=
  Build_cell (cell_ch c) (cell_dir c) (cell_neighbor c) (numTx c) (numTxAck c) (numRx c)
    (history c) (rxDetectedCollision c) v (debug_interference c) (debug_lockInterference c)
    (debug_cellCreatedAsn c).
(** The argument list of a CONTROL frame, as [_app_schedule_sendControl]
    builds it: [cells, numCells, neighb, dir, type, self, usedSlots, value, seq]. *)
Inductive cells_arg : Type :=
  | CellsNone                          (* None *)
  | CellsDict (d : gmap Z Z)           (* ts -> ch, in an "answer" *)
  | CellsList (l : list Z).            (* the slots, in a "confirmation" *)

Record control_data : Type := Build_control_data {
  data0 : cells_arg;          (* cells *)
  data1 : option Z;           (* numCells *)
  data2 : Z;                  (* neighb: the destination *)
  data3 : option direction;   (* dir *)
  data4 : option string;      (* type: "req", "answer", "confirmation", "OTF" *)
  data5 : Z;                  (* self: the mote that sent the frame *)
  data6 : option (list Z);    (* usedSlots *)
  data7 : option string;      (* value *)
  data8 : Z                   (* the sequence number *)
}.

(** A packet: the dicts built by [_app_action_enqueueData],
    [_app_action_enqueueControl] and [rxDone]. DATA packets have no
    ['dmac'] and ['smac'] keys. *)
Record packet : Type := Build_packet {
  pk_asn : Z;
  pk_type : string;
  pk_data : option control_data;
  pk_dmac : option Z;
  pk_smac : option Z;
  pk_payload : list Z;
  retriesLeft : Z
}.

Definition set_retriesLeft (v : Z) (p : packet) : packet :=
  Build_packet (pk_asn p) (pk_type p) (pk_data p) (pk_dmac p) (pk_smac p) (pk_payload p) v.

#[global] Instance cells_arg_eq_dec : EqDecision cells_arg.
Proof. solve_decision. Defined.
#[global] Instance control_data_eq_dec : EqDecision control_data.
Proof. solve_decision. Defined.
#[global] Instance packet_eq_dec : EqDecision packet.
Proof. solve_decision. Defined.

(** class pendingTransaction *)
Record pendingTransaction_obj : Type := Build_pendingTransaction {
  pt_type : string;
  pt_neighbor : Z;
  pt_cells : option (list (Z * Z * direction));
  pt_sequenceNum : Z
}.

(** The attributes of a Mote object that the modelled methods read or write. *)
Record mote : Type := Build_mote {
  mote_id : Z;  (* self.id *)
  dagRoot : bool;
  preferredParent : option Z;
  inTraffic : gmap Z Z;  (* indexed by neighbor *)
  otfStatus : gmap Z (option string);
  sequenceNumberWithNeighbor : gmap Z Z;
  ignorePacket : list Z;
  transactionTimeout : Z;
  transactionRetries : Z;
  pendingTransaction : option pendingTransaction_obj;
  numCellsToNeighbors : gmap Z Z;
  numCellsFromNeighbors : gmap Z Z;
  macMinBE : Z;
  macMaxBE : Z;
  macBackoffNB : Z;
  macMaxCSMABackoffs : Z;
  backoffExponent : Z;
  sendcontrolDelay : Z;
  sendcontrolFailed : bool;
  sendControlFailed : option bool;  (* the attribute txDone creates at line 1664 (capital C) *)
  requestTriggered : gmap Z bool;
  txQueue : list Z;  (* packet references *)
  controlQueue : list Z;
  controlQueueNP : list Z;
  controlQueueHP : list Z;
  cellsAllocToNeighbor : gmap Z (list Z);
  pktToSend : option Z;  (* packet reference *)
  pktToSendAlloc : option Z;
  schedule : gmap Z cell;  (* indexed by ts *)
  reserve : list (list bool);  (* [slotframeLength][numChans] *)
  waitingFor : option direction;
  sharedSlots : list Z;
  timeCorrectedSlot : option Z;
  minRssi : Q;
  RSSI : gmap Z Q;  (* indexed by neighbor id *)
  PDR : gmap Z Q;  (* indexed by neighbor *)
  motestats : gmap string Z;
  queuestats_delay : list Z;  (* queuestats['delay'] *)
  packetLatencies : list Z;  (* in slots *)
  packetHops : list Z;
  radiostats : gmap string Z;
  packets : gmap Z packet  (* the packet objects the queues refer to *)
}.

Definition set_preferredParent (v : option Z) (m : mote) : mote :=
  Build_mote (mote_id m) (dagRoot m) v (inTraffic m) (otfStatus m)
    (sequenceNumberWithNeighbor m) (ignorePacket m) (transactionTimeout m)
    (transactionRetries m) (pendingTransaction m) (numCellsToNeighbors m)
    (numCellsFromNeighbors m) (macMinBE m) (macMaxBE m) (macBackoffNB m) (macMaxCSMABackoffs m)
    (backoffExponent m) (sendcontrolDelay m) (sendcontrolFailed m) (sendControlFailed m)
    (requestTriggered m) (txQueue m) (controlQueue m) (controlQueueNP m) (controlQueueHP m)
    (cellsAllocToNeighbor m) (pktToSend m) (pktToSendAlloc m) (schedule m) (reserve m)
    (waitingFor m) (sharedSlots m) (timeCorrectedSlot m) (minRssi m) (RSSI m) (PDR m)
    (motestats m) (queuestats_delay m) (packetLatencies m) (packetHops m) (radiostats m)
    (packets m).
Definition set_inTraffic (v : gmap Z Z) (m : mote) : mote :=
  Build_mote (mote_id m) (dagRoot m) (preferredParent m) v (otfStatus m)
    (sequenceNumberWithNeighbor m) (ignorePacket m) (transactionTimeout m)
    (transactionRetries m) (pendingTransaction m) (numCellsToNeighbors m)
    (numCellsFromNeighbors m) (macMinBE m) (macMaxBE m) (macBackoffNB m) (macMaxCSMABackoffs m)
    (backoffExponent m) (sendcontrolDelay m) (sendcontrolFailed m) (sendControlFailed m)
    (requestTriggered m) (txQueue m) (controlQueue m) (controlQueueNP m) (controlQueueHP m)
    (cellsAllocToNeighbor m) (pktToSend m) (pktToSendAlloc m) (schedule m) (reserve m)
    (waitingFor m) (sharedSlots m) (timeCorrectedSlot m) (minRssi m) (RSSI m) (PDR m)
    (motestats m) (queuestats_delay m) (packetLatencies m) (packetHops m) (radiostats m)
    (packets m).
Definition set_otfStatus (v : gmap Z (option string)) (m : mote) : mote :=
  Build_mote (mote_id m) (dagRoot m) (preferredParent m) (inTraffic m) v
    (sequenceNumberWithNeighbor m) (ignorePacket m) (transactionTimeout m)
    (transactionRetries m) (pendingTransaction m) (numCellsToNeighbors m)
    (numCellsFromNeighbors m) (macMinBE m) (macMaxBE m) (macBackoffNB m) (macMaxCSMABackoffs m)
    (backoffExponent m) (sendcontrolDelay m) (sendcontrolFailed m) (sendControlFailed m)
    (requestTriggered m) (txQueue m) (controlQueue m) (controlQueueNP m) (controlQueueHP m)
    (cellsAllocToNeighbor m) (pktToSend m) (pktToSendAlloc m) (schedule m) (reserve m)
    (waitingFor m) (sharedSlots m) (timeCorrectedSlot m) (minRssi m) (RSSI m) (PDR m)
    (motestats m) (queuestats_delay m) (packetLatencies m) (packetHops m) (radiostats m)
    (packets m).
Definition set_sequenceNumberWithNeighbor (v : gmap Z Z) (m : mote) : mote :=
  Build_mote (mote_id m) (dagRoot m) (preferredParent m) (inTraffic m) (otfStatus m) v
    (ignorePacket m) (transactionTimeout m) (transactionRetries m) (pendingTransaction m)
    (numCellsToNeighbors m) (numCellsFromNeighbors m) (macMinBE m) (macMaxBE m) (macBackoffNB m)
    (macMaxCSMABackoffs m) (backoffExponent m) (sendcontrolDelay m) (sendcontrolFailed m)
    (sendControlFailed m) (requestTriggered m) (txQueue m) (controlQueue m) (controlQueueNP m)
    (controlQueueHP m) (cellsAllocToNeighbor m) (pktToSend m) (pktToSendAlloc m) (schedule m)
    (reserve m) (waitingFor m) (sharedSlots m) (timeCorrectedSlot m) (minRssi m) (RSSI m)
    (PDR m) (motestats m) (queuestats_delay m) (packetLatencies m) (packetHops m) (radiostats m)
    (packets m).
Definition set_transactionRetries (v : Z) (m : mote) : mote :=
  Build_mote (mote_id m) (dagRoot m) (preferredParent m) (inTraffic m) (otfStatus m)
    (sequenceNumberWithNeighbor m) (ignorePacket m) (transactionTimeout m) v
    (pendingTransaction m) (numCellsToNeighbors m) (numCellsFromNeighbors m) (macMinBE m)
    (macMaxBE m) (macBackoffNB m) (macMaxCSMABackoffs m) (backoffExponent m)
    (sendcontrolDelay m) (sendcontrolFailed m) (sendControlFailed m) (requestTriggered m)
    (txQueue m) (controlQueue m) (controlQueueNP m) (controlQueueHP m) (cellsAllocToNeighbor m)
    (pktToSend m) (pktToSendAlloc m) (schedule m) (reserve m) (waitingFor m) (sharedSlots m)
    (timeCorrectedSlot m) (minRssi m) (RSSI m) (PDR m) (motestats m) (queuestats_delay m)
    (packetLatencies m) (packetHops m) (radiostats m) (packets m).
Definition set_pendingTransaction (v : option pendingTransaction_obj) (m : mote) : mote :=
  Build_mote (mote_id m) (dagRoot m) (preferredParent m) (inTraffic m) (otfStatus m)
    (sequenceNumberWithNeighbor m) (ignorePacket m) (transactionTimeout m)
    (transactionRetries m) v (numCellsToNeighbors m) (numCellsFromNeighbors m) (macMinBE m)
    (macMaxBE m) (macBackoffNB m) (macMaxCSMABackoffs m) (backoffExponent m)
    (sendcontrolDelay m) (sendcontrolFailed m) (sendControlFailed m) (requestTriggered m)
    (txQueue m) (controlQueue m) (controlQueueNP m) (controlQueueHP m) (cellsAllocToNeighbor m)
    (pktToSend m) (pktToSendAlloc m) (schedule m) (reserve m) (waitingFor m) (sharedSlots m)
    (timeCorrectedSlot m) (minRssi m) (RSSI m) (PDR m) (motestats m) (queuestats_delay m)
    (packetLatencies m) (packetHops m) (radiostats m) (packets m).
Definition set_numCellsToNeighbors (v : gmap Z Z) (m : mote) : mote :=
  Build_mote (mote_id m) (dagRoot m) (preferredParent m) (inTraffic m) (otfStatus m)
    (sequenceNumberWithNeighbor m) (ignorePacket m) (transactionTimeout m)
    (transactionRetries m) (pendingTransaction m) v (numCellsFromNeighbors m) (macMinBE m)
    (macMaxBE m) (macBackoffNB m) (macMaxCSMABackoffs m) (backoffExponent m)
    (sendcontrolDelay m) (sendcontrolFailed m) (sendControlFailed m) (requestTriggered m)
    (txQueue m) (controlQueue m) (controlQueueNP m) (controlQueueHP m) (cellsAllocToNeighbor m)
    (pktToSend m) (pktToSendAlloc m) (schedule m) (reserve m) (waitingFor m) (sharedSlots m)
    (timeCorrectedSlot m) (minRssi m) (RSSI m) (PDR m) (motestats m) (queuestats_delay m)
    (packetLatencies m) (packetHops m) (radiostats m) (packets m).
Definition set_numCellsFromNeighbors (v : gmap Z Z) (m : mote) : mote :=
  Build_mote (mote_id m) (dagRoot m) (preferredParent m) (inTraffic m) (otfStatus m)
    (sequenceNumberWithNeighbor m) (ignorePacket m) (transactionTimeout m)
    (transactionRetries m) (pendingTransaction m) (numCellsToNeighbors m) v (macMinBE m)
    (macMaxBE m) (macBackoffNB m) (macMaxCSMABackoffs m) (backoffExponent m)
    (sendcontrolDelay m) (sendcontrolFailed m) (sendControlFailed m) (requestTriggered m)
    (txQueue m) (controlQueue m) (controlQueueNP m) (controlQueueHP m) (cellsAllocToNeighbor m)
    (pktToSend m) (pktToSendAlloc m) (schedule m) (reserve m) (waitingFor m) (sharedSlots m)
    (timeCorrectedSlot m) (minRssi m) (RSSI m) (PDR m) (motestats m) (queuestats_delay m)
    (packetLatencies m) (packetHops m) (radiostats m) (packets m).
Definition set_macBackoffNB (v : Z) (m : mote) : mote :=
  Build_mote (mote_id m) (dagRoot m) (preferredParent m) (inTraffic m) (otfStatus m)
    (sequenceNumberWithNeighbor m) (ignorePacket m) (transactionTimeout m)
    (transactionRetries m) (pendingTransaction m) (numCellsToNeighbors m)
    (numCellsFromNeighbors m) (macMinBE m) (macMaxBE m) v (macMaxCSMABackoffs m)
    (backoffExponent m) (sendcontrolDelay m) (sendcontrolFailed m) (sendControlFailed m)
    (requestTriggered m) (txQueue m) (controlQueue m) (controlQueueNP m) (controlQueueHP m)
    (cellsAllocToNeighbor m) (pktToSend m) (pktToSendAlloc m) (schedule m) (reserve m)
    (waitingFor m) (sharedSlots m) (timeCorrectedSlot m) (minRssi m) (RSSI m) (PDR m)
    (motestats m) (queuestats_delay m) (packetLatencies m) (packetHops m) (radiostats m)
    (packets m).
Definition set_backoffExponent (v : Z) (m : mote) : mote :=
  Build_mote (mote_id m) (dagRoot m) (preferredParent m) (inTraffic m) (otfStatus m)
    (sequenceNumberWithNeighbor m) (ignorePacket m) (transactionTimeout m)
    (transactionRetries m) (pendingTransaction m) (numCellsToNeighbors m)
    (numCellsFromNeighbors m) (macMinBE m) (macMaxBE m) (macBackoffNB m) (macMaxCSMABackoffs m)
    v (sendcontrolDelay m) (sendcontrolFailed m) (sendControlFailed m) (requestTriggered m)
    (txQueue m) (controlQueue m) (controlQueueNP m) (controlQueueHP m) (cellsAllocToNeighbor m)
    (pktToSend m) (pktToSendAlloc m) (schedule m) (reserve m) (waitingFor m) (sharedSlots m)
    (timeCorrectedSlot m) (minRssi m) (RSSI m) (PDR m) (motestats m) (queuestats_delay m)
    (packetLatencies m) (packetHops m) (radiostats m) (packets m).
Definition set_sendcontrolDelay (v : Z) (m : mote) : mote :=
  Build_mote (mote_id m) (dagRoot m) (preferredParent m) (inTraffic m) (otfStatus m)
    (sequenceNumberWithNeighbor m) (ignorePacket m) (transactionTimeout m)
    (transactionRetries m) (pendingTransaction m) (numCellsToNeighbors m)
    (numCellsFromNeighbors m) (macMinBE m) (macMaxBE m) (macBackoffNB m) (macMaxCSMABackoffs m)
    (backoffExponent m) v (sendcontrolFailed m) (sendControlFailed m) (requestTriggered m)
    (txQueue m) (controlQueue m) (controlQueueNP m) (controlQueueHP m) (cellsAllocToNeighbor m)
    (pktToSend m) (pktToSendAlloc m) (schedule m) (reserve m) (waitingFor m) (sharedSlots m)
    (timeCorrectedSlot m) (minRssi m) (RSSI m) (PDR m) (motestats m) (queuestats_delay m)
    (packetLatencies m) (packetHops m) (radiostats m) (packets m).
Definition set_sendcontrolFailed (v : bool) (m : mote) : mote :=
  Build_mote (mote_id m) (dagRoot m) (preferredParent m) (inTraffic m) (otfStatus m)
    (sequenceNumberWithNeighbor m) (ignorePacket m) (transactionTimeout m)
    (transactionRetries m) (pendingTransaction m) (numCellsToNeighbors m)
    (numCellsFromNeighbors m) (macMinBE m) (macMaxBE m) (macBackoffNB m) (macMaxCSMABackoffs m)
    (backoffExponent m) (sendcontrolDelay m) v (sendControlFailed m) (requestTriggered m)
    (txQueue m) (controlQueue m) (controlQueueNP m) (controlQueueHP m) (cellsAllocToNeighbor m)
    (pktToSend m) (pktToSendAlloc m) (schedule m) (reserve m) (waitingFor m) (sharedSlots m)
    (timeCorrectedSlot m) (minRssi m) (RSSI m) (PDR m) (motestats m) (queuestats_delay m)
    (packetLatencies m) (packetHops m) (radiostats m) (packets m).
Definition set_sendControlFailed (v : option bool) (m : mote) : mote :=
  Build_mote (mote_id m) (dagRoot m) (preferredParent m) (inTraffic m) (otfStatus m)
    (sequenceNumberWithNeighbor m) (ignorePacket m) (transactionTimeout m)
    (transactionRetries m) (pendingTransaction m) (numCellsToNeighbors m)
    (numCellsFromNeighbors m) (macMinBE m) (macMaxBE m) (macBackoffNB m) (macMaxCSMABackoffs m)
    (backoffExponent m) (sendcontrolDelay m) (sendcontrolFailed m) v (requestTriggered m)
    (txQueue m) (controlQueue m) (controlQueueNP m) (controlQueueHP m) (cellsAllocToNeighbor m)
    (pktToSend m) (pktToSendAlloc m) (schedule m) (reserve m) (waitingFor m) (sharedSlots m)
    (timeCorrectedSlot m) (minRssi m) (RSSI m) (PDR m) (motestats m) (queuestats_delay m)
    (packetLatencies m) (packetHops m) (radiostats m) (packets m).
Definition set_requestTriggered (v : gmap Z bool) (m : mote) : mote :=
  Build_mote (mote_id m) (dagRoot m) (preferredParent m) (inTraffic m) (otfStatus m)
    (sequenceNumberWithNeighbor m) (ignorePacket m) (transactionTimeout m)
    (transactionRetries m) (pendingTransaction m) (numCellsToNeighbors m)
    (numCellsFromNeighbors m) (macMinBE m) (macMaxBE m) (macBackoffNB m) (macMaxCSMABackoffs m)
    (backoffExponent m) (sendcontrolDelay m) (sendcontrolFailed m) (sendControlFailed m) v
    (txQueue m) (controlQueue m) (controlQueueNP m) (controlQueueHP m) (cellsAllocToNeighbor m)
    (pktToSend m) (pktToSendAlloc m) (schedule m) (reserve m) (waitingFor m) (sharedSlots m)
    (timeCorrectedSlot m) (minRssi m) (RSSI m) (PDR m) (motestats m) (queuestats_delay m)
    (packetLatencies m) (packetHops m) (radiostats m) (packets m).
Definition set_txQueue (v : list Z) (m : mote) : mote :=
  Build_mote (mote_id m) (dagRoot m) (preferredParent m) (inTraffic m) (otfStatus m)
    (sequenceNumberWithNeighbor m) (ignorePacket m) (transactionTimeout m)
    (transactionRetries m) (pendingTransaction m) (numCellsToNeighbors m)
    (numCellsFromNeighbors m) (macMinBE m) (macMaxBE m) (macBackoffNB m) (macMaxCSMABackoffs m)
    (backoffExponent m) (sendcontrolDelay m) (sendcontrolFailed m) (sendControlFailed m)
    (requestTriggered m) v (controlQueue m) (controlQueueNP m) (controlQueueHP m)
    (cellsAllocToNeighbor m) (pktToSend m) (pktToSendAlloc m) (schedule m) (reserve m)
    (waitingFor m) (sharedSlots m) (timeCorrectedSlot m) (minRssi m) (RSSI m) (PDR m)
    (motestats m) (queuestats_delay m) (packetLatencies m) (packetHops m) (radiostats m)
    (packets m).
Definition set_controlQueue (v : list Z) (m : mote) : mote :=
  Build_mote (mote_id m) (dagRoot m) (preferredParent m) (inTraffic m) (otfStatus m)
    (sequenceNumberWithNeighbor m) (ignorePacket m) (transactionTimeout m)
    (transactionRetries m) (pendingTransaction m) (numCellsToNeighbors m)
    (numCellsFromNeighbors m) (macMinBE m) (macMaxBE m) (macBackoffNB m) (macMaxCSMABackoffs m)
    (backoffExponent m) (sendcontrolDelay m) (sendcontrolFailed m) (sendControlFailed m)
    (requestTriggered m) (txQueue m) v (controlQueueNP m) (controlQueueHP m)
    (cellsAllocToNeighbor m) (pktToSend m) (pktToSendAlloc m) (schedule m) (reserve m)
    (waitingFor m) (sharedSlots m) (timeCorrectedSlot m) (minRssi m) (RSSI m) (PDR m)
    (motestats m) (queuestats_delay m) (packetLatencies m) (packetHops m) (radiostats m)
    (packets m).
Definition set_controlQueueNP (v : list Z) (m : mote) : mote :=
  Build_mote (mote_id m) (dagRoot m) (preferredParent m) (inTraffic m) (otfStatus m)
    (sequenceNumberWithNeighbor m) (ignorePacket m) (transactionTimeout m)
    (transactionRetries m) (pendingTransaction m) (numCellsToNeighbors m)
    (numCellsFromNeighbors m) (macMinBE m) (macMaxBE m) (macBackoffNB m) (macMaxCSMABackoffs m)
    (backoffExponent m) (sendcontrolDelay m) (sendcontrolFailed m) (sendControlFailed m)
    (requestTriggered m) (txQueue m) (controlQueue m) v (controlQueueHP m)
    (cellsAllocToNeighbor m) (pktToSend m) (pktToSendAlloc m) (schedule m) (reserve m)
    (waitingFor m) (sharedSlots m) (timeCorrectedSlot m) (minRssi m) (RSSI m) (PDR m)
    (motestats m) (queuestats_delay m) (packetLatencies m) (packetHops m) (radiostats m)
    (packets m).
Definition set_controlQueueHP (v : list Z) (m : mote) : mote :=
  Build_mote (mote_id m) (dagRoot m) (preferredParent m) (inTraffic m) (otfStatus m)
    (sequenceNumberWithNeighbor m) (ignorePacket m) (transactionTimeout m)
    (transactionRetries m) (pendingTransaction m) (numCellsToNeighbors m)
    (numCellsFromNeighbors m) (macMinBE m) (macMaxBE m) (macBackoffNB m) (macMaxCSMABackoffs m)
    (backoffExponent m) (sendcontrolDelay m) (sendcontrolFailed m) (sendControlFailed m)
    (requestTriggered m) (txQueue m) (controlQueue m) (controlQueueNP m) v
    (cellsAllocToNeighbor m) (pktToSend m) (pktToSendAlloc m) (schedule m) (reserve m)
    (waitingFor m) (sharedSlots m) (timeCorrectedSlot m) (minRssi m) (RSSI m) (PDR m)
    (motestats m) (queuestats_delay m) (packetLatencies m) (packetHops m) (radiostats m)
    (packets m).
Definition set_cellsAllocToNeighbor (v : gmap Z (list Z)) (m : mote) : mote :=
  Build_mote (mote_id m) (dagRoot m) (preferredParent m) (inTraffic m) (otfStatus m)
    (sequenceNumberWithNeighbor m) (ignorePacket m) (transactionTimeout m)
    (transactionRetries m) (pendingTransaction m) (numCellsToNeighbors m)
    (numCellsFromNeighbors m) (macMinBE m) (macMaxBE m) (macBackoffNB m) (macMaxCSMABackoffs m)
    (backoffExponent m) (sendcontrolDelay m) (sendcontrolFailed m) (sendControlFailed m)
    (requestTriggered m) (txQueue m) (controlQueue m) (controlQueueNP m) (controlQueueHP m) v
    (pktToSend m) (pktToSendAlloc m) (schedule m) (reserve m) (waitingFor m) (sharedSlots m)
    (timeCorrectedSlot m) (minRssi m) (RSSI m) (PDR m) (motestats m) (queuestats_delay m)
    (packetLatencies m) (packetHops m) (radiostats m) (packets m).
Definition set_pktToSend (v : option Z) (m : mote) : mote :=
  Build_mote (mote_id m) (dagRoot m) (preferredParent m) (inTraffic m) (otfStatus m)
    (sequenceNumberWithNeighbor m) (ignorePacket m) (transactionTimeout m)
    (transactionRetries m) (pendingTransaction m) (numCellsToNeighbors m)
    (numCellsFromNeighbors m) (macMinBE m) (macMaxBE m) (macBackoffNB m) (macMaxCSMABackoffs m)
    (backoffExponent m) (sendcontrolDelay m) (sendcontrolFailed m) (sendControlFailed m)
    (requestTriggered m) (txQueue m) (controlQueue m) (controlQueueNP m) (controlQueueHP m)
    (cellsAllocToNeighbor m) v (pktToSendAlloc m) (schedule m) (reserve m) (waitingFor m)
    (sharedSlots m) (timeCorrectedSlot m) (minRssi m) (RSSI m) (PDR m) (motestats m)
    (queuestats_delay m) (packetLatencies m) (packetHops m) (radiostats m) (packets m).
Definition set_pktToSendAlloc (v : option Z) (m : mote) : mote :=
  Build_mote (mote_id m) (dagRoot m) (preferredParent m) (inTraffic m) (otfStatus m)
    (sequenceNumberWithNeighbor m) (ignorePacket m) (transactionTimeout m)
    (transactionRetries m) (pendingTransaction m) (numCellsToNeighbors m)
    (numCellsFromNeighbors m) (macMinBE m) (macMaxBE m) (macBackoffNB m) (macMaxCSMABackoffs m)
    (backoffExponent m) (sendcontrolDelay m) (sendcontrolFailed m) (sendControlFailed m)
    (requestTriggered m) (txQueue m) (controlQueue m) (controlQueueNP m) (controlQueueHP m)
    (cellsAllocToNeighbor m) (pktToSend m) v (schedule m) (reserve m) (waitingFor m)
    (sharedSlots m) (timeCorrectedSlot m) (minRssi m) (RSSI m) (PDR m) (motestats m)
    (queuestats_delay m) (packetLatencies m) (packetHops m) (radiostats m) (packets m).
Definition set_schedule (v : gmap Z cell) (m : mote) : mote :=
  Build_mote (mote_id m) (dagRoot m) (preferredParent m) (inTraffic m) (otfStatus m)
    (sequenceNumberWithNeighbor m) (ignorePacket m) (transactionTimeout m)
    (transactionRetries m) (pendingTransaction m) (numCellsToNeighbors m)
    (numCellsFromNeighbors m) (macMinBE m) (macMaxBE m) (macBackoffNB m) (macMaxCSMABackoffs m)
    (backoffExponent m) (sendcontrolDelay m) (sendcontrolFailed m) (sendControlFailed m)
    (requestTriggered m) (txQueue m) (controlQueue m) (controlQueueNP m) (controlQueueHP m)
    (cellsAllocToNeighbor m) (pktToSend m) (pktToSendAlloc m) v (reserve m) (waitingFor m)
    (sharedSlots m) (timeCorrectedSlot m) (minRssi m) (RSSI m) (PDR m) (motestats m)
    (queuestats_delay m) (packetLatencies m) (packetHops m) (radiostats m) (packets m).
Definition set_reserve (v : list (list bool)) (m : mote) : mote :=
  Build_mote (mote_id m) (dagRoot m) (preferredParent m) (inTraffic m) (otfStatus m)
    (sequenceNumberWithNeighbor m) (ignorePacket m) (transactionTimeout m)
    (transactionRetries m) (pendingTransaction m) (numCellsToNeighbors m)
    (numCellsFromNeighbors m) (macMinBE m) (macMaxBE m) (macBackoffNB m) (macMaxCSMABackoffs m)
    (backoffExponent m) (sendcontrolDelay m) (sendcontrolFailed m) (sendControlFailed m)
    (requestTriggered m) (txQueue m) (controlQueue m) (controlQueueNP m) (controlQueueHP m)
    (cellsAllocToNeighbor m) (pktToSend m) (pktToSendAlloc m) (schedule m) v (waitingFor m)
    (sharedSlots m) (timeCorrectedSlot m) (minRssi m) (RSSI m) (PDR m) (motestats m)
    (queuestats_delay m) (packetLatencies m) (packetHops m) (radiostats m) (packets m).
Definition set_waitingFor (v : option direction) (m : mote) : mote :=
  Build_mote (mote_id m) (dagRoot m) (preferredParent m) (inTraffic m) (otfStatus m)
    (sequenceNumberWithNeighbor m) (ignorePacket m) (transactionTimeout m)
    (transactionRetries m) (pendingTransaction m) (numCellsToNeighbors m)
    (numCellsFromNeighbors m) (macMinBE m) (macMaxBE m) (macBackoffNB m) (macMaxCSMABackoffs m)
    (backoffExponent m) (sendcontrolDelay m) (sendcontrolFailed m) (sendControlFailed m)
    (requestTriggered m) (txQueue m) (controlQueue m) (controlQueueNP m) (controlQueueHP m)
    (cellsAllocToNeighbor m) (pktToSend m) (pktToSendAlloc m) (schedule m) (reserve m) v
    (sharedSlots m) (timeCorrectedSlot m) (minRssi m) (RSSI m) (PDR m) (motestats m)
    (queuestats_delay m) (packetLatencies m) (packetHops m) (radiostats m) (packets m).
Definition set_sharedSlots (v : list Z) (m : mote) : mote :=
  Build_mote (mote_id m) (dagRoot m) (preferredParent m) (inTraffic m) (otfStatus m)
    (sequenceNumberWithNeighbor m) (ignorePacket m) (transactionTimeout m)
    (transactionRetries m) (pendingTransaction m) (numCellsToNeighbors m)
    (numCellsFromNeighbors m) (macMinBE m) (macMaxBE m) (macBackoffNB m) (macMaxCSMABackoffs m)
    (backoffExponent m) (sendcontrolDelay m) (sendcontrolFailed m) (sendControlFailed m)
    (requestTriggered m) (txQueue m) (controlQueue m) (controlQueueNP m) (controlQueueHP m)
    (cellsAllocToNeighbor m) (pktToSend m) (pktToSendAlloc m) (schedule m) (reserve m)
    (waitingFor m) v (timeCorrectedSlot m) (minRssi m) (RSSI m) (PDR m) (motestats m)
    (queuestats_delay m) (packetLatencies m) (packetHops m) (radiostats m) (packets m).
Definition set_timeCorrectedSlot (v : option Z) (m : mote) : mote :=
  Build_mote (mote_id m) (dagRoot m) (preferredParent m) (inTraffic m) (otfStatus m)
    (sequenceNumberWithNeighbor m) (ignorePacket m) (transactionTimeout m)
    (transactionRetries m) (pendingTransaction m) (numCellsToNeighbors m)
    (numCellsFromNeighbors m) (macMinBE m) (macMaxBE m) (macBackoffNB m) (macMaxCSMABackoffs m)
    (backoffExponent m) (sendcontrolDelay m) (sendcontrolFailed m) (sendControlFailed m)
    (requestTriggered m) (txQueue m) (controlQueue m) (controlQueueNP m) (controlQueueHP m)
    (cellsAllocToNeighbor m) (pktToSend m) (pktToSendAlloc m) (schedule m) (reserve m)
    (waitingFor m) (sharedSlots m) v (minRssi m) (RSSI m) (PDR m) (motestats m)
    (queuestats_delay m) (packetLatencies m) (packetHops m) (radiostats m) (packets m).
Definition set_RSSI (v : gmap Z Q) (m : mote) : mote :=
  Build_mote (mote_id m) (dagRoot m) (preferredParent m) (inTraffic m) (otfStatus m)
    (sequenceNumberWithNeighbor m) (ignorePacket m) (transactionTimeout m)
    (transactionRetries m) (pendingTransaction m) (numCellsToNeighbors m)
    (numCellsFromNeighbors m) (macMinBE m) (macMaxBE m) (macBackoffNB m) (macMaxCSMABackoffs m)
    (backoffExponent m) (sendcontrolDelay m) (sendcontrolFailed m) (sendControlFailed m)
    (requestTriggered m) (txQueue m) (controlQueue m) (controlQueueNP m) (controlQueueHP m)
    (cellsAllocToNeighbor m) (pktToSend m) (pktToSendAlloc m) (schedule m) (reserve m)
    (waitingFor m) (sharedSlots m) (timeCorrectedSlot m) (minRssi m) v (PDR m) (motestats m)
    (queuestats_delay m) (packetLatencies m) (packetHops m) (radiostats m) (packets m).
Definition set_PDR (v : gmap Z Q) (m : mote) : mote :=
  Build_mote (mote_id m) (dagRoot m) (preferredParent m) (inTraffic m) (otfStatus m)
    (sequenceNumberWithNeighbor m) (ignorePacket m) (transactionTimeout m)
    (transactionRetries m) (pendingTransaction m) (numCellsToNeighbors m)
    (numCellsFromNeighbors m) (macMinBE m) (macMaxBE m) (macBackoffNB m) (macMaxCSMABackoffs m)
    (backoffExponent m) (sendcontrolDelay m) (sendcontrolFailed m) (sendControlFailed m)
    (requestTriggered m) (txQueue m) (controlQueue m) (controlQueueNP m) (controlQueueHP m)
    (cellsAllocToNeighbor m) (pktToSend m) (pktToSendAlloc m) (schedule m) (reserve m)
    (waitingFor m) (sharedSlots m) (timeCorrectedSlot m) (minRssi m) (RSSI m) v (motestats m)
    (queuestats_delay m) (packetLatencies m) (packetHops m) (radiostats m) (packets m).
Definition set_motestats (v : gmap string Z) (m : mote) : mote :=
  Build_mote (mote_id m) (dagRoot m) (preferredParent m) (inTraffic m) (otfStatus m)
    (sequenceNumberWithNeighbor m) (ignorePacket m) (transactionTimeout m)
    (transactionRetries m) (pendingTransaction m) (numCellsToNeighbors m)
    (numCellsFromNeighbors m) (macMinBE m) (macMaxBE m) (macBackoffNB m) (macMaxCSMABackoffs m)
    (backoffExponent m) (sendcontrolDelay m) (sendcontrolFailed m) (sendControlFailed m)
    (requestTriggered m) (txQueue m) (controlQueue m) (controlQueueNP m) (controlQueueHP m)
    (cellsAllocToNeighbor m) (pktToSend m) (pktToSendAlloc m) (schedule m) (reserve m)
    (waitingFor m) (sharedSlots m) (timeCorrectedSlot m) (minRssi m) (RSSI m) (PDR m) v
    (queuestats_delay m) (packetLatencies m) (packetHops m) (radiostats m) (packets m).
Definition set_queuestats_delay (v : list Z) (m : mote) : mote :=
  Build_mote (mote_id m) (dagRoot m) (preferredParent m) (inTraffic m) (otfStatus m)
    (sequenceNumberWithNeighbor m) (ignorePacket m) (transactionTimeout m)
    (transactionRetries m) (pendingTransaction m) (numCellsToNeighbors m)
    (numCellsFromNeighbors m) (macMinBE m) (macMaxBE m) (macBackoffNB m) (macMaxCSMABackoffs m)
    (backoffExponent m) (sendcontrolDelay m) (sendcontrolFailed m) (sendControlFailed m)
    (requestTriggered m) (txQueue m) (controlQueue m) (controlQueueNP m) (controlQueueHP m)
    (cellsAllocToNeighbor m) (pktToSend m) (pktToSendAlloc m) (schedule m) (reserve m)
    (waitingFor m) (sharedSlots m) (timeCorrectedSlot m) (minRssi m) (RSSI m) (PDR m)
    (motestats m) v (packetLatencies m) (packetHops m) (radiostats m) (packets m).
Definition set_packetLatencies (v : list Z) (m : mote) : mote :=
  Build_mote (mote_id m) (dagRoot m) (preferredParent m) (inTraffic m) (otfStatus m)
    (sequenceNumberWithNeighbor m) (ignorePacket m) (transactionTimeout m)
    (transactionRetries m) (pendingTransaction m) (numCellsToNeighbors m)
    (numCellsFromNeighbors m) (macMinBE m) (macMaxBE m) (macBackoffNB m) (macMaxCSMABackoffs m)
    (backoffExponent m) (sendcontrolDelay m) (sendcontrolFailed m) (sendControlFailed m)
    (requestTriggered m) (txQueue m) (controlQueue m) (controlQueueNP m) (controlQueueHP m)
    (cellsAllocToNeighbor m) (pktToSend m) (pktToSendAlloc m) (schedule m) (reserve m)
    (waitingFor m) (sharedSlots m) (timeCorrectedSlot m) (minRssi m) (RSSI m) (PDR m)
    (motestats m) (queuestats_delay m) v (packetHops m) (radiostats m) (packets m).
Definition set_packetHops (v : list Z) (m : mote) : mote :=
  Build_mote (mote_id m) (dagRoot m) (preferredParent m) (inTraffic m) (otfStatus m)
    (sequenceNumberWithNeighbor m) (ignorePacket m) (transactionTimeout m)
    (transactionRetries m) (pendingTransaction m) (numCellsToNeighbors m)
    (numCellsFromNeighbors m) (macMinBE m) (macMaxBE m) (macBackoffNB m) (macMaxCSMABackoffs m)
    (backoffExponent m) (sendcontrolDelay m) (sendcontrolFailed m) (sendControlFailed m)
    (requestTriggered m) (txQueue m) (controlQueue m) (controlQueueNP m) (controlQueueHP m)
    (cellsAllocToNeighbor m) (pktToSend m) (pktToSendAlloc m) (schedule m) (reserve m)
    (waitingFor m) (sharedSlots m) (timeCorrectedSlot m) (minRssi m) (RSSI m) (PDR m)
    (motestats m) (queuestats_delay m) (packetLatencies m) v (radiostats m) (packets m).
Definition set_packets (v : gmap Z packet) (m : mote) : mote :=
  Build_mote (mote_id m) (dagRoot m) (preferredParent m) (inTraffic m) (otfStatus m)
    (sequenceNumberWithNeighbor m) (ignorePacket m) (transactionTimeout m)
    (transactionRetries m) (pendingTransaction m) (numCellsToNeighbors m)
    (numCellsFromNeighbors m) (macMinBE m) (macMaxBE m) (macBackoffNB m) (macMaxCSMABackoffs m)
    (backoffExponent m) (sendcontrolDelay m) (sendcontrolFailed m) (sendControlFailed m)
    (requestTriggered m) (txQueue m) (controlQueue m) (controlQueueNP m) (controlQueueHP m)
    (cellsAllocToNeighbor m) (pktToSend m) (pktToSendAlloc m) (schedule m) (reserve m)
    (waitingFor m) (sharedSlots m) (timeCorrectedSlot m) (minRssi m) (RSSI m) (PDR m)
    (motestats m) (queuestats_delay m) (packetLatencies m) (packetHops m) (radiostats m) v.
(** The settings that the modelled code reads. *)
Record SimSettings : Type := Build_SimSettings {
  slotframeLength : Z;
  numChans : Z;
  numSharedSlots : Z;
  queuing : Z;
  bootstrap : bool;
  opportunist : bool;
  idealAllocation : bool;
  noInterference : bool;
  otfThreshold : Z;
  noRemoveWorstCell : bool;
  settings_minRssi : Q   (* settings.minRssi, in dBm *)
}.

(** The motes of a run ([engine.motes]), by id. *)
Abbreviation network := (gmap Z mote).

(** A loop whose body may raise. *)
Fixpoint foldM {A B : Type} (f : B → A → option B) (l : list A) (b : B) : option B :=
  match l with
  | [] => Some b
  | x :: l' => b' ← f b x; foldM f l' b'
  end.

(** ** Statistics and getters *)

(** The keys that [_resetMoteStats] creates, all at 0. *)
Definition motestats_keys : list string :=
  [ "appGenerated"; "appRelayed"; "appReachesDagroot"; "droppedAppFailedEnqueueData";
    "droppedAppFailedEnqueueControl"; "droppedQueueFull"; "rplTxDIO"; "rplRxDIO";
    "rplChurnPrefParent"; "rplChurnRank"; "rplChurnParentSet"; "droppedNoRoute";
    "droppedNoTxCells"; "otfAdd"; "otfRemove"; "transactionAborted";
    "controlPacketsSent"; "controlPacketsReceived"; "topTxRelocatedCells";
    "topTxRelocatedBundles"; "topRxRelocatedCells"; "droppedMacRetries" ]%string.

Definition _resetMoteStats (m : mote) : mote :=
  set_motestats (list_to_map (map (λ k, (k, 0)) motestats_keys)) m.

(** [self.motestats[name] += 1] *)
Definition _incrementMoteStats (name : string) (m : mote) : option mote :=
  v ← motestats m !! name;
  Some (set_motestats (<[name := v + 1]> (motestats m)) m).

Definition _logQueueDelayStat (delay : Z) (m : mote) : mote :=
  set_queuestats_delay (queuestats_delay m ++ [delay]) m.

Definition getTxCells (m : mote) : list (Z * Z * option Z) :=
  omap (λ '(ts, c), if bool_decide (cell_dir c = DIR_TX)
                    then Some (ts, cell_ch c, cell_neighbor c) else None)
       (map_to_list (schedule m)).

(** [getRSSI]: 0 when the neighbor is not in the table. *)
Definition getRSSI (m : mote) (neighbor : Z) : Q :=
  default 0%Q (RSSI m !! neighbor).

Definition Qgtb (x y : Q) : bool := negb (Qle_bool x y).

(** [_myNeigbors]: the keys of [PDR] with a positive value. *)
Definition _myNeigbors (m : mote) : list Z :=
  omap (λ '(n, pdr), if Qgtb pdr 0 then Some n else None) (map_to_list (PDR m)).

(** ** TSCH: the schedule *)

Definition new_cell (ch : Z) (d : direction) (nb : option Z) (asn : Z) : cell :=
  Build_cell ch d nb 0 0 0 [] false [] [] [] asn.

(** [_tsch_addCells(neighbor, cellList)] at the ASN [asn]. *)
Definition _tsch_addCells (asn : Z) (neighbor : Z) (cellList : list (Z * Z * direction))
    (m : mote) : mote :=
  set_schedule
    (foldl (λ s '(ts, ch, d), <[ts := new_cell ch d (Some neighbor) asn]> s)
           (schedule m) cellList) m.

(** One turn of the loop of [_tsch_removeCells]. *)
Definition _tsch_removeCells_step (neighbor : Z) (dir : option direction)
    (m : mote) (ts : Z) : option mote :=
  match schedule m !! ts with
  | Some c =>
    if bool_decide (cell_neighbor c = Some neighbor) then
      m1 ← match dir with
           | Some DIR_TX =>
               n ← numCellsToNeighbors m !! neighbor;
               Some (set_numCellsToNeighbors (<[neighbor := n - 1]> (numCellsToNeighbors m)) m)
           | Some DIR_RX =>
               n ← numCellsFromNeighbors m !! neighbor;
               Some (set_numCellsFromNeighbors (<[neighbor := n - 1]> (numCellsFromNeighbors m)) m)
           | _ => Some m
           end;
      Some (set_schedule (delete ts (schedule m1)) m1)
    else Some m
  | None => Some m
  end.

(** [_tsch_removeCells(neighbor, tsList, dir)]; [neighbor] is a mote (the
    log line reads [neighbor.id]). *)
Definition _tsch_removeCells (neighbor : Z) (tsList : list Z) (dir : option direction)
    (m : mote) : option mote :=
  foldM (_tsch_removeCells_step neighbor dir) tsList m.

(** ** 6top: abort *)

Definition _top_abort_transaction (m : mote) : option mote :=
  m1 ← match pendingTransaction m with
       | Some pt =>
           m' ← match pt_cells pt with
                | Some (c :: cs) =>
                    let cells := c :: cs in
                    let cellsToRemove := map (λ '(ts, ch, d), ts) cells in
                    let dirToRemove := (λ '(ts, ch, d), d) (List.last cells c) in
                    _tsch_removeCells (pt_neighbor pt) cellsToRemove (Some dirToRemove) m
                | _ => Some m
                end;
           Some (set_requestTriggered (<[pt_neighbor pt := false]> (requestTriggered m')) m')
       | None => Some m
       end;
  _incrementMoteStats "transactionAborted"
    (set_pendingTransaction None (set_transactionRetries 0 m1)).

(** ** 6top: reservation and deletion *)

(** [reserve[ts][j]] *)
Definition reserved (m : mote) (ts j : Z) : option bool :=
  row ← py_index (reserve m) ts; py_index row j.

(** [tbl[ts][ch] = v] *)
Definition set_reserved (v : bool) (tbl : list (list bool)) (ts ch : Z)
    : option (list (list bool)) :=
  row ← py_index tbl ts;
  row' ← py_setitem row ch v;
  py_setitem tbl ts row'.

(** [_reserve_cell_neighbor] ([v] true) and [_delete_cell_neighbor] ([v]
    false): they write the reserve table of the mote [neighbor]. *)
Definition write_reserve (v : bool) (cells : list (Z * Z)) (neighbor : Z) (w : network)
    : option network :=
  n ← w !! neighbor;
  tbl ← foldM (λ t '(ts, ch), set_reserved v t ts ch) cells (reserve n);
  Some (<[neighbor := set_reserve tbl n]> w).

Definition _reserve_cell_neighbor (cells : list (Z * Z * direction)) (neighbor : Z)
    (w : network) : option network :=
  write_reserve true (map (λ '(ts, ch, d), (ts, ch)) cells) neighbor w.

Definition _delete_cell_neighbor (cells : list (Z * Z)) (neighbor : Z) (w : network)
    : option network :=
  write_reserve false cells neighbor w.

(** [top_cell_deletion_receiver], a method of the mote [self]. *)
Definition top_cell_deletion_receiver (self neighbor : Z) (tsList : list Z) (w : network)
    : option network :=
  me ← w !! self;
  cellList ← mapM (λ ts, c ← schedule me !! ts; Some (ts, cell_ch c)) tsList;
  me' ← _tsch_removeCells neighbor tsList (Some DIR_RX) me;
  foldM (λ w' neighb, if bool_decide (neighbor ≠ neighb)
                      then _delete_cell_neighbor cellList neighb w' else Some w')
        (_myNeigbors me') (<[self := me']> w).

(** [top_cell_deletion_sender], a method of the mote [self]. *)
Definition top_cell_deletion_sender (self neighbor : Z) (tsList : list Z) (w : network)
    : option network :=
  me ← w !! self;
  me' ← _tsch_removeCells neighbor tsList (Some DIR_TX) me;
  w' ← top_cell_deletion_receiver neighbor self tsList (<[self := me']> w);
  me'' ← w' !! self;
  n ← numCellsToNeighbors me'' !! neighbor;
  if bool_decide (0 ≤ n) then Some w' else None.

(** What [_app_schedule_sendControl] does to the mote: it takes the next
    sequence number for [neighb]. (The frame itself travels through the
    event engine.) *)
Definition _app_schedule_sendControl (neighb : Z) (m : mote) : mote :=
  let s := default 0 (sequenceNumberWithNeighbor m !! neighb) in
  set_sequenceNumberWithNeighbor (<[neighb := s + 1]> (sequenceNumberWithNeighbor m)) m.

Definition top_add_response (neighbor : Z) (m : mote) : mote :=
  _app_schedule_sendControl neighbor m.

Definition top_add_request (neighbor : Z) (m : mote) : mote :=
  _app_schedule_sendControl neighbor m.

(** The loop of [top_new_handle_request_ok] that drops the cells already in
    the schedule: it removes from the list it iterates over, so the element
    that follows a removed one is not looked at. *)
Fixpoint drop_scheduled (sched : gmap Z cell) (l : list (Z * Z * direction))
    : list (Z * Z * direction) :=
  match l with
  | [] => []
  | (ts, ch, d) :: rest =>
      if bool_decide (is_Some (sched !! ts)) then
        match rest with
        | [] => []
        | y :: rest' => y :: drop_scheduled sched rest'
        end
      else (ts, ch, d) :: drop_scheduled sched rest
  end.

(** [numCells...[neighbor] += n], the key created at 0 when missing. *)
Definition add_count (neighbor n : Z) (cnt : gmap Z Z) : gmap Z Z :=
  <[neighbor := default 0 (cnt !! neighbor) + n]> cnt.

(** [top_new_handle_request_ok(cells, numCells, neighbor, dir)]: the
    initiator handles the "answer". *)
Definition top_new_handle_request_ok (asn : Z) (cells : gmap Z Z) (neighbor : Z)
    (dir : direction) (m : mote) : mote :=
  let m := set_requestTriggered (<[neighbor := false]> (requestTriggered m)) m in
  let cellList := map (λ '(ts, ch), (ts, ch, dir)) (map_to_list cells) in
  let cellList := drop_scheduled (schedule m) cellList in
  let m := _tsch_addCells asn neighbor cellList m in
  let n := Z.of_nat (length cellList) in
  let m := match dir with
           | DIR_TX => set_numCellsToNeighbors (add_count neighbor n (numCellsToNeighbors m)) m
           | DIR_RX => set_numCellsFromNeighbors (add_count neighbor n (numCellsFromNeighbors m)) m
           | DIR_SHARED => m
           end in
  _app_schedule_sendControl neighbor m.

Section SixTop.

(** The order in which [random.shuffle] leaves a list. *)
Variable shuffle : list Z → list Z.
(** [engine.getNextTS(sharedSlots, dir)], at its [a]-th call in a loop. *)
Variable getNextTS : Z → list Z → direction → Z * Z * direction.
Variable settings : SimSettings.

(** The loop of [_choose_channel]: the channels free in both tables. *)
Definition free_channels (self neighbor : mote) (ts : Z) : option (list Z) :=
  foldM (λ (k : list Z) (j : Z),
           a ← reserved self ts j;
           if (a : bool) then Some k
           else b ← reserved neighbor ts j;
                if (b : bool) then Some k else Some (k ++ [j]))
        (py_range 0 (numChans settings)) [].

(** [_choose_channel(neighbor, ts)]; [k[0]] raises on an empty list. *)
Definition _choose_channel (self neighbor : mote) (ts : Z) : option Z :=
  k ← free_channels self neighbor ts;
  head (shuffle k).

(** [top_cell_reservation_response], a method of the responder [self];
    [neighbor] is the mote that asks. The result is the dict [cells]. *)
Definition top_cell_reservation_response (asn : Z) (self neighbor : Z) (numCells : Z)
    (dirNeighbor : option direction) (slotUsedByNeighbor : option (list Z)) (w : network)
    : option (gmap Z Z * network) :=
  me ← w !! self;
  nb ← w !! neighbor;
  let dir := if bool_decide (dirNeighbor = Some DIR_TX) then DIR_RX else DIR_TX in
  used ← (if bool_decide (queuing settings ≠ 0)
          then (l ← slotUsedByNeighbor; Some (list_to_set l : gset Z))
          else Some (dom (schedule nb)));
  let availableTimeslots :=
    shuffle (elements ((list_to_set (py_range 0 (slotframeLength settings)) : gset Z)
                         ∖ used ∖ dom (schedule me))) in
  chosen ← mapM (λ ts, ch ← _choose_channel me nb ts; Some (ts, ch))
                (py_prefix availableTimeslots numCells);
  let cells : gmap Z Z := foldl (λ d '(ts, ch), <[ts := ch]> d) ∅ chosen in
  let cellList := map (λ '(ts, ch), (ts, ch, dir)) (map_to_list cells) in
  let '(cells, cellList) :=
    if idealAllocation settings then
      foldl (λ '(d, l) a, let '(ts, ch, dr) := getNextTS a (sharedSlots me) dir in
                          (<[ts := ch]> d, l ++ [(ts, ch, dr)]))
            (∅, []) (py_range 0 numCells)
    else (cells, cellList) in
  let me := _tsch_addCells asn neighbor cellList me in
  let me :=
    if bool_decide (queuing settings ≠ 0) then
      let s := default 0 (sequenceNumberWithNeighbor me !! neighbor) in
      set_pendingTransaction
        (Some (Build_pendingTransaction "parentAdds" neighbor (Some cellList) s))
        (set_sequenceNumberWithNeighbor
           (<[neighbor := s]> (sequenceNumberWithNeighbor me)) me)
    else me in
  let n := Z.of_nat (length cellList) in
  w ← (if bool_decide (dir = DIR_TX) then
         let me := set_numCellsToNeighbors (add_count neighbor n (numCellsToNeighbors me)) me in
         foldM (λ w' neighb, if bool_decide (self ≠ neighb)
                             then _reserve_cell_neighbor cellList neighb w' else Some w')
               (_myNeigbors nb) (<[self := me]> w)
       else
         let me := set_numCellsFromNeighbors (add_count neighbor n (numCellsFromNeighbors me)) me in
         foldM (λ w' neighb, if bool_decide (neighbor ≠ neighb)
                             then _reserve_cell_neighbor cellList neighb w' else Some w')
               (_myNeigbors me) (<[self := me]> w));
  if bool_decide (queuing settings ≠ 0) then
    me ← w !! self;
    let me := set_cellsAllocToNeighbor
                (<[neighbor := map (λ '(ts, ch, d), ts) cellList]> (cellsAllocToNeighbor me)) me in
    Some (cells, <[self := top_add_response neighbor me]> w)
  else Some (cells, w).

(** [_top_cell_reservation_request(neighbor, numCells, dir)], a method of
    the initiator [self]. First the gate on a pending transaction (lines
    1024-1031), then the request itself. *)
Definition request_after_gate (asn : Z) (self neighbor numCells : Z) (dir : direction)
    (m : mote) (w : network) : option network :=
  if (match requestTriggered m !! neighbor with Some true => true | _ => false end)
     || bool_decide (sequenceNumberWithNeighbor m !! neighbor = None)
  then Some (<[self := m]> w)
  else
    s ← sequenceNumberWithNeighbor m !! neighbor;
    let m := set_pendingTransaction
               (Some (Build_pendingTransaction "moteRequest" neighbor None s))
               (set_requestTriggered (<[neighbor := true]> (requestTriggered m)) m) in
    if bool_decide (queuing settings ≠ 0)
       && (bootstrap settings
           || (negb (bootstrap settings) && bool_decide (getTxCells m ≠ [])))
    then Some (<[self := top_add_request neighbor m]> w)
    else
      '(cells, w) ← (if bool_decide (queuing settings = 1)
                     then top_cell_reservation_response asn neighbor self 1 (Some dir) (Some [0])
                            (<[self := m]> w)
                     else top_cell_reservation_response asn neighbor self numCells (Some dir) None
                            (<[self := m]> w));
      m ← w !! self;
      let cellList :=
        omap (λ '(ts, ch), if bool_decide (is_Some (schedule m !! ts)) then None
                           else Some (ts, ch, dir)) (map_to_list cells) in
      let m := _tsch_addCells asn neighbor cellList m in
      let n := Z.of_nat (length cellList) in
      let m := if bool_decide (dir = DIR_TX)
               then set_numCellsToNeighbors (add_count neighbor n (numCellsToNeighbors m)) m
               else set_numCellsFromNeighbors (add_count neighbor n (numCellsFromNeighbors m)) m in
      Some (<[self := m]> w).

Definition _top_cell_reservation_request (asn : Z) (self neighbor numCells : Z)
    (dir : direction) (w : network) : option network :=
  m ← w !! self;
  match pendingTransaction m with
  | Some _ =>
      let m := set_transactionRetries (transactionRetries m + 1) m in
      if bool_decide (transactionRetries m = transactionTimeout m) then
        m ← _top_abort_transaction m;
        request_after_gate asn self neighbor numCells dir m w
      else Some (<[self := m]> w)
  | None => request_after_gate asn self neighbor numCells dir m w
  end.

End SixTop.

(** ** TSCH: the queues *)

(** Packets are compared by value ([==] on dicts). [queue.index(p)]: *)
Definition queue_index (pk : gmap Z packet) (q : list Z) (p : Z) : option nat :=
  v ← pk !! p;
  fst <$> list_find (λ r, pk !! r = Some v) q.

(** [p in queue] *)
Definition queue_contains (pk : gmap Z packet) (q : list Z) (p : Z) : bool :=
  match pk !! p with
  | Some v => bool_decide (is_Some (list_find (λ r, pk !! r = Some v) q))
  | None => false
  end.

(** [queue.remove(p)]: the first element equal to [p] goes. *)
Definition queue_remove (pk : gmap Z packet) (q : list Z) (p : Z) : option (list Z) :=
  i ← queue_index pk q p;
  Some (delete i q).

(** [i = queue.index(pktToSend)] and
    [if queue[i]['retriesLeft'] > 0: queue[i]['retriesLeft'] -= 1];
    the result is the mote and the reference [queue[i]]. *)
Definition decrement_retries (q : list Z) (p : Z) (m : mote) : option (mote * Z) :=
  i ← queue_index (packets m) q p;
  r ← q !! i;
  v ← packets m !! r;
  if bool_decide (0 < retriesLeft v)
  then Some (set_packets (<[r := set_retriesLeft (retriesLeft v - 1) v]> (packets m)) m, r)
  else Some (m, r).

(** The retry bookkeeping that [txDone] applies to the data queue and to
    the two priority queues: decrement, then drop the packet when no retry
    is left and the queue holds [TSCH_QUEUE_SIZE] packets. *)
Definition retry_or_drop (get : mote → list Z) (set : list Z → mote → mote) (p : Z)
    (m : mote) : option mote :=
  '(m, r) ← decrement_retries (get m) p m;
  v ← packets m !! r;
  if bool_decide (retriesLeft v = 0) then
    if bool_decide (Z.of_nat (length (get m)) = TSCH_QUEUE_SIZE) then
      m ← _incrementMoteStats "droppedMacRetries" m;
      q ← queue_remove (packets m) (get m) p;
      Some (set q m)
    else Some m
  else Some m.

(** The end of a CONTROL frame of the single control queue: the statistic,
    the removal, the abort of the own transaction and, unless the frame is
    a "req", of the destination's. *)
Definition drop_control (self p : Z) (m : mote) (w : network) : option network :=
  v ← packets m !! p;
  dmac ← pk_dmac v;
  m ← _incrementMoteStats "droppedMacRetries" m;
  q ← queue_remove (packets m) (controlQueue m) p;
  m ← _top_abort_transaction (set_controlQueue q m);
  let w := <[self := m]> w in
  d ← pk_data v;
  if bool_decide (data4 d ≠ Some "req"%string) then
    peer ← w !! dmac;
    peer ← _top_abort_transaction peer;
    Some (<[dmac := peer]> w)
  else Some w.

Definition reset_backoff (m : mote) : mote :=
  set_backoffExponent (macMinBE m) (set_sendcontrolDelay 0 (set_macBackoffNB 0 m)).

(** [queuing == 1], a failed CONTROL frame: [shared] tells whether the slot
    is one of [sharedSlots], [rnd] is the value of [random.randint]. *)
Definition control_failed_q1 (shared nacked : bool) (rnd : Z) (self p : Z) (m : mote)
    (w : network) : option network :=
  let m :=
    if shared then
      set_sendcontrolFailed true
        (set_sendcontrolDelay rnd
           (set_backoffExponent (Z.min (backoffExponent m + 1) (macMaxBE m))
              (set_macBackoffNB (macBackoffNB m + 1) m)))
    else if nacked then set_sendControlFailed (Some true) m
    else set_sendcontrolFailed true m in
  match controlQueue m with
  | [] => Some (<[self := m]> w)
  | _ :: _ =>
      '(m, r) ← decrement_retries (controlQueue m) p m;
      v ← packets m !! r;
      if bool_decide (retriesLeft v = 0)
         || (shared && bool_decide (macBackoffNB m = macMaxCSMABackoffs m))
      then
        pv ← packets m !! p;
        dmac ← pk_dmac pv;
        let m := set_requestTriggered (<[dmac := false]> (requestTriggered m))
                   (set_sendcontrolFailed false m) in
        let m := if shared then reset_backoff m else m in
        drop_control self p m w
      else Some (<[self := m]> w)
  end.

(** [queuing == 2], a failed CONTROL frame. After a NACK the queue is the
    one that contains the packet; after a plain failure it is the
    high-priority queue whenever that queue is not empty. *)
Definition control_failed_q2 (nacked : bool) (p : Z) (m : mote) : option mote :=
  if nacked then
    if queue_contains (packets m) (controlQueueHP m) p
    then retry_or_drop controlQueueHP set_controlQueueHP p m
    else if queue_contains (packets m) (controlQueueNP m) p
         then retry_or_drop controlQueueNP set_controlQueueNP p m
         else Some m
  else
    match controlQueueHP m with
    | _ :: _ => retry_or_drop controlQueueHP set_controlQueueHP p m
    | [] => retry_or_drop controlQueueNP set_controlQueueNP p m
    end.

(** What [txDone] does with the packet after a NACK or a plain failure. *)
Definition tx_failed (settings : SimSettings) (rnd : Z) (self ts : Z) (nacked : bool)
    (m : mote) (w : network) : option network :=
  p ← pktToSend m;
  v ← packets m !! p;
  if bool_decide (pk_type v = "DATA"%string) then
    m ← retry_or_drop txQueue set_txQueue p m;
    Some (<[self := m]> w)
  else if bool_decide (pk_type v = "CONTROL"%string) then
    let shared := bool_decide (ts ∈ sharedSlots m) in
    if bool_decide (queuing settings = 1) then control_failed_q1 shared nacked rnd self p m w
    else if bool_decide (queuing settings = 2) then
      m ← control_failed_q2 nacked p m;
      Some (<[self := m]> w)
    else Some (<[self := m]> w)
  else Some (<[self := m]> w).

(** What [txDone] does with the packet after an ACK. *)
Definition tx_acked (settings : SimSettings) (p : Z) (m : mote) : option mote :=
  v ← packets m !! p;
  if bool_decide (pk_type v = "CONTROL"%string) then
    dmac ← pk_dmac v;
    let m := set_requestTriggered (<[dmac := false]> (requestTriggered m)) m in
    m ← (if bool_decide (queuing settings = 2) then
           if queue_contains (packets m) (controlQueueHP m) p then
             q ← queue_remove (packets m) (controlQueueHP m) p;
             Some (set_controlQueueHP q m)
           else if queue_contains (packets m) (controlQueueNP m) p then
             q ← queue_remove (packets m) (controlQueueNP m) p;
             Some (set_controlQueueNP q m)
           else Some m
         else if bool_decide (queuing settings = 1) then
           if queue_contains (packets m) (controlQueue m) p then
             q ← queue_remove (packets m) (controlQueue m) p;
             Some (set_controlQueue q (set_sendcontrolFailed false m))
           else Some m
         else Some m);
    Some (reset_backoff
            (set_requestTriggered (<[dmac := false]> (requestTriggered m))
               (set_sendcontrolFailed false m)))
  else if bool_decide (pk_type v = "DATA"%string) then
    q ← queue_remove (packets m) (txQueue m) p;
    Some (set_txQueue q m)
  else Some m.

(** [self.schedule[ts][...] = ...] *)
Definition update_cell (ts : Z) (f : cell → cell) (m : mote) : option mote :=
  c ← schedule m !! ts;
  Some (set_schedule (<[ts := f c]> (schedule m)) m).

(** The time correction of [txDone]. *)
Definition time_correction (asn ts : Z) (m : mote) : option mote :=
  c ← schedule m !! ts;
  if bool_decide (cell_neighbor c = preferredParent m)
  then Some (set_timeCorrectedSlot (Some asn) m) else Some m.

(** The closing loop of [txDone] over [engine.motes]: is there another
    mote with a TX cell in this slot and channel that the receiver hears. *)
Definition canbeInterfered (self ts : Z) (w : network) : option Z :=
  me ← w !! self;
  c ← schedule me !! ts;
  foldM (λ (acc : Z) '(i, mote),
           if bool_decide (i = self) then Some acc
           else match schedule mote !! ts with
                | Some c' =>
                    if bool_decide (cell_ch c = cell_ch c') && bool_decide (cell_dir c' = DIR_TX)
                    then rx ← cell_neighbor c;
                         rxm ← w !! rx;
                         if Qgtb (getRSSI mote rx) (minRssi rxm) then Some 1 else Some acc
                    else Some acc
                | None => Some acc
                end)
        (map_to_list w) 0.

(** [txDone(isACKed, isNACKed)], a method of the mote [self], at the ASN
    [asn]; [rnd] is the value that [random.randint] returns when the
    CSMA back-off delay is drawn. *)
Definition txDone (settings : SimSettings) (asn rnd : Z) (self : Z)
    (isACKed isNACKed : bool) (w : network) : option network :=
  if bool_decide (slotframeLength settings = 0) then None else
  let ts := asn `mod` slotframeLength settings in
  m ← w !! self;
  c ← schedule m !! ts;
  if negb (bool_decide (cell_dir c = DIR_TX) || bool_decide (cell_dir c = DIR_SHARED))
  then None else
  if negb (bool_decide (waitingFor m = Some DIR_TX)
           || bool_decide (waitingFor m = Some DIR_SHARED))
  then None else
  w ← (if isACKed then
         m ← update_cell ts (λ c, set_history (history c ++ [1])
                                     (set_numTxAck (numTxAck c + 1) c)) m;
         p ← pktToSend m;
         v ← packets m !! p;
         let m := _logQueueDelayStat (asn - pk_asn v) m in
         m ← time_correction asn ts m;
         m ← tx_acked settings p m;
         Some (<[self := m]> w)
       else if isNACKed then
         m ← update_cell ts (λ c, set_history (history c ++ [1])
                                     (set_numTxAck (numTxAck c + 1) c)) m;
         m ← time_correction asn ts m;
         tx_failed settings rnd self ts true m w
       else
         m ← update_cell ts (λ c, set_history (history c ++ [0]) c) m;
         tx_failed settings rnd self ts false m w);
  m ← w !! self;
  let m := set_waitingFor (if bool_decide (queuing settings = 0) then None
                           else Some DIR_SHARED) m in
  let w := <[self := m]> w in
  flag ← canbeInterfered self ts w;
  m ← update_cell ts (λ c, set_debug_canbeInterfered (debug_canbeInterfered c ++ [flag]) c) m;
  Some (<[self := m]> w).

Definition TOP_CQUEUE_SIZE : Z := 50.

(** A new packet object: a reference that the store does not hold yet. *)
Definition new_packet (v : packet) (m : mote) : Z * mote :=
  let r := fresh (dom (packets m)) in
  (r, set_packets (<[r := v]> (packets m)) m).

(** [_tsch_enqueue(packet)]; the result tells whether the packet is queued. *)
Definition _tsch_enqueue (settings : SimSettings) (v : packet) (m : mote)
    : option (bool * mote) :=
  match preferredParent m with
  | None => m ← _incrementMoteStats "droppedNoRoute" m; Some (false, m)
  | Some _ =>
    if bool_decide (getTxCells m = []) then
      m ← _incrementMoteStats "droppedNoTxCells" m; Some (false, m)
    else if bool_decide (pk_type v = "DATA"%string)
            && bool_decide (Z.of_nat (length (txQueue m)) = TSCH_QUEUE_SIZE) then
      m ← _incrementMoteStats "droppedQueueFull" m; Some (false, m)
    else if bool_decide (pk_type v = "CONTROL"%string)
            && (bool_decide (queuing settings = 1)
                && bool_decide (Z.of_nat (length (controlQueue m)) = TOP_CQUEUE_SIZE)) then
      m ← _incrementMoteStats "droppedQueueFull" m; Some (false, m)
    else
      let '(r, m) := new_packet v m in
      if bool_decide (queuing settings ≠ 0) && bool_decide (pk_type v = "CONTROL"%string)
      then Some (true, set_controlQueue (controlQueue m ++ [r]) m)
      else Some (true, set_txQueue (txQueue m ++ [r]) m)
  end.

(** [_app_action_enqueueData()] at the ASN [asn]. *)
Definition _app_action_enqueueData (settings : SimSettings) (asn : Z) (m : mote)
    : option mote :=
  if bool_decide (getTxCells m = []) then Some m else
  let newPacket := Build_packet asn "DATA" None None None [mote_id m; asn; 1]
                     TSCH_MAXTXRETRIES in
  m ← _incrementMoteStats "appGenerated" m;
  '(isEnqueued, m) ← _tsch_enqueue settings newPacket m;
  if (isEnqueued : bool) then Some m
  else _incrementMoteStats "droppedAppFailedEnqueueData" m.

(** [self.inTraffic[neighbor] += 1] *)
Definition _otf_incrementIncomingTraffic (neighbor : Z) (m : mote) : option mote :=
  n ← inTraffic m !! neighbor;
  Some (set_inTraffic (<[neighbor := n + 1]> (inTraffic m)) m).

Definition _otf_resetInTraffic (m : mote) : mote :=
  set_inTraffic (foldl (λ t neighbor, <[neighbor := 0]> t) (inTraffic m) (_myNeigbors m)) m.

(** ** TSCH: the end of a reception slot *)

(** A DATA frame received from [smac] (lines 1892-1945). The charge counter,
    a floating-point sum, is not represented. *)
Definition rx_data (settings : SimSettings) (asn ts : Z) (type : string)
    (data : option control_data) (smac : Z) (payload : option (list Z)) (m : mote)
    : option (bool * bool * mote) :=
  m ← update_cell ts (λ c, set_numRx (numRx c + 1) c) m;
  if dagRoot m then
    m ← _incrementMoteStats "appReachesDagroot" m;
    pl ← payload;
    origin ← py_index pl 1;
    let m := set_packetLatencies (packetLatencies m ++ [asn - origin]) m in
    hops ← py_index pl 2;
    Some (true, false, set_packetHops (packetHops m ++ [hops]) m)
  else
    m ← _otf_incrementIncomingTraffic smac m;
    pl ← payload;
    hops ← py_index pl 2;
    newPayload ← py_setitem pl 2 (hops + 1);
    let relayPacket := Build_packet asn type data None None newPayload TSCH_MAXTXRETRIES in
    '(isEnqueued, m) ← _tsch_enqueue settings relayPacket m;
    if (isEnqueued : bool) then
      m ← _incrementMoteStats "appRelayed" m;
      Some (true, false, m)
    else Some (false, true, m).

(** The two lists that the "confirmation" branch builds over the slots
    [cells] (lines 1976-1982). *)
Definition removeSelf (me nb : mote) (neighbor : Z) (cells : list Z) : list Z :=
  filter (λ ts, is_Some (schedule me !! ts) ∧ schedule nb !! ts = None
                ∧ (cell_neighbor <$> schedule me !! ts) = Some (Some neighbor)) cells.

Definition removeNeighb (me nb : mote) (self : Z) (cells : list Z) : list Z :=
  filter (λ ts, is_Some (schedule nb !! ts) ∧ schedule me !! ts = None
                ∧ (cell_neighbor <$> schedule nb !! ts) = Some (Some self)) cells.

(** A "confirmation" received by the responder [self] from [src] = data[5]
    (lines 1972-1989). *)
Definition rx_confirmation (self src : Z) (cells0 : cells_arg) (w : network)
    : option network :=
  me ← w !! self;
  alloc ← cellsAllocToNeighbor me !! src;
  w ← match cells0 with
      | CellsNone => None
      | CellsDict d =>
          if bool_decide (size d = length alloc) then None else Some w
      | CellsList l =>
          if bool_decide (length l = length alloc) then
            if bool_decide (l ≠ alloc) then
              let cells := py_list_set (l ++ alloc) in
              nb ← w !! src;
              let rs := removeSelf me nb src cells in
              let rn := removeNeighb me nb self cells in
              me ← _tsch_removeCells src rs (Some DIR_RX) me;
              let w := <[self := me]> w in
              nb ← w !! src;
              nb ← _tsch_removeCells self rn (Some DIR_TX) nb;
              let w := <[src := nb]> w in
              me ← w !! self;
              Some (<[self := set_cellsAllocToNeighbor
                                (<[src := []]> (cellsAllocToNeighbor me)) me]> w)
            else Some w
          else Some w
      end;
  me ← w !! self;
  let w := <[self := set_pendingTransaction None me]> w in
  nb ← w !! src;
  Some (<[src := set_pendingTransaction None nb]> w).

Section Reception.

Variable shuffle : list Z → list Z.
Variable getNextTS : Z → list Z → direction → Z * Z * direction.
Variable settings : SimSettings.

(** A CONTROL frame (lines 1949-1989). *)
Definition rx_control (asn : Z) (self : Z) (data : option control_data)
    (dmac : option Z) (w : network) : option network :=
  d ← data;
  me ← w !! self;
  let src := data5 d in
  let seq := default 0 (sequenceNumberWithNeighbor me !! src) in
  let allGood := negb (bool_decide (data8 d ≠ seq + 1)) in
  let me := set_sequenceNumberWithNeighbor
              (<[src := data8 d]> (sequenceNumberWithNeighbor me)) me in
  let allGood := if bool_decide (asn ∈ ignorePacket me) then false else allGood in
  if bool_decide (dmac = Some self) && allGood then
    me ← _incrementMoteStats "controlPacketsReceived" me;
    let w := <[self := me]> w in
    w ← (if bool_decide (data4 d = Some "req"%string) then
           numCells ← data1 d;
           if bool_decide (numCells = 0) then None else
           snd <$> top_cell_reservation_response shuffle getNextTS settings asn
                     self src numCells (data3 d) (data6 d) w
         else Some w);
    w ← (if bool_decide (data4 d = Some "answer"%string) then
           match data0 d with
           | CellsDict cells =>
               me ← w !! self;
               dir ← data3 d;
               Some (<[self := top_new_handle_request_ok asn cells src dir me]> w)
           | _ => None
           end
         else Some w);
    w ← (if bool_decide (data4 d = Some "OTF"%string) then
           me ← w !! self;
           Some (<[self := set_otfStatus (<[src := data7 d]> (otfStatus me)) me]> w)
         else Some w);
    if bool_decide (data4 d = Some "confirmation"%string)
    then rx_confirmation self src (data0 d) w
    else Some w
  else Some (<[self := me]> w).

(** [rxDone(type, data, smac, dmac, payload)], a method of the mote
    [self], at the ASN [asn]; the result is [(isACKed, isNACKed)] and the
    motes. *)
Definition rxDone (asn : Z) (self : Z) (type : option string)
    (data : option control_data) (smac dmac : option Z) (payload : option (list Z))
    (w : network) : option (bool * bool * network) :=
  if bool_decide (slotframeLength settings = 0) then None else
  let ts := asn `mod` slotframeLength settings in
  m ← w !! self;
  if negb (bool_decide (is_Some (schedule m !! ts))) then None else
  if negb (bool_decide (waitingFor m = Some DIR_RX)
           || bool_decide (waitingFor m = Some DIR_SHARED))
  then None else
  '(isACKed, isNACKed, w) ←
    (if bool_decide (type = Some "DATA"%string) then
       match smac with
       | Some s =>
           '(a, n, m) ← rx_data settings asn ts "DATA" data s payload m;
           Some (a, n, <[self := m]> w)
       | None => Some (true, false, w)
       end
     else if bool_decide (type = Some "CONTROL"%string) then
       w ← rx_control asn self data dmac w;
       Some (true, false, w)
     else Some (false, false, w));
  m ← w !! self;
  let m := set_waitingFor (if bool_decide (queuing settings = 0) then None
                           else Some DIR_SHARED) m in
  Some (isACKed, isNACKed, <[self := m]> w).

End Reception.

(** ** Boot *)

(** [boot()] at the ASN [asn]: the SHARED cells and [sharedSlots]; the rest
    of [boot] schedules events and resets [inTraffic]. Both quotients of the
    source, [int(math.floor(float(s) / float(k)))] and [(int)(s / k)], are the
    floor of [s / k]. *)
Definition boot (settings : SimSettings) (asn : Z) (m : mote) : mote :=
  let step := slotframeLength settings / numSharedSlots settings in
  let m :=
    foldl (λ m i,
             set_sharedSlots (sharedSlots m ++ [i * step])
               (set_schedule (<[i * step := new_cell 0 DIR_SHARED None asn]> (schedule m)) m))
          m (py_range 0 (numSharedSlots settings)) in
  _otf_resetInTraffic m.

(** ** Creation of a mote *)

(** [Mote.__init__(id)], for the attributes of [mote]. *)
Definition Mote_init (settings : SimSettings) (id : Z) : mote :=
  _resetMoteStats
    {| mote_id := id;
       dagRoot := false;
       preferredParent := None;
       inTraffic := ∅;
       otfStatus := ∅;
       sequenceNumberWithNeighbor := ∅;
       ignorePacket := [];
       transactionTimeout := 20;
       transactionRetries := 0;
       pendingTransaction := None;
       numCellsToNeighbors := ∅;
       numCellsFromNeighbors := ∅;
       macMinBE := 1;
       macMaxBE := 7;
       macBackoffNB := 0;
       macMaxCSMABackoffs := 4;
       backoffExponent := 1;
       sendcontrolDelay := 0;
       sendcontrolFailed := false;
       sendControlFailed := None;
       requestTriggered := ∅;
       txQueue := [];
       controlQueue := [];
       controlQueueNP := [];
       controlQueueHP := [];
       cellsAllocToNeighbor := ∅;
       pktToSend := None;
       pktToSendAlloc := None;
       schedule := ∅;
       reserve := replicate (Z.to_nat (slotframeLength settings))
                    (replicate (Z.to_nat (numChans settings)) false);
       waitingFor := if bool_decide (queuing settings ≠ 0) then Some DIR_SHARED else None;
       sharedSlots := [];
       timeCorrectedSlot := None;
       minRssi := settings_minRssi settings;
       RSSI := ∅;
       PDR := ∅;
       motestats := ∅;
       queuestats_delay := [];
       packetLatencies := [];
       packetHops := [];
       radiostats := {[ "probableCollisions"%string := 0; "openSlotCollision"%string := 0 ]};
       packets := ∅ |}.

(** ** OTF *)






Section OTF.

Variable shuffle : list Z → list Z.
Variable getNextTS : Z → list Z → direction → Z * Z * direction.
(** The order in which [_top_removeCells] ranks the TX cells to a
    neighbor: a shuffle, then a sort on floating-point cell PDRs. *)
Variable removal_order : list Z → list Z.
Variable settings : SimSettings.

(** [_top_removeCells(neighbor, numCellsToRemove)], a method of [self]. *)
Definition _top_removeCells (self neighbor numCellsToRemove : Z) (w : network)
    : option network :=
  me ← w !! self;
  nb ← w !! neighbor;
  let scheduleList :=
    removal_order
      (omap (λ '(ts, c), if bool_decide (cell_neighbor c = Some neighbor)
                            && bool_decide (cell_dir c = DIR_TX)
                         then Some ts else None) (map_to_list (schedule me))) in
  let tsList :=
    filter (λ ts, ¬ (queuing settings ≠ 0
                     ∧ (schedule nb !! ts = None
                        ∨ (cell_neighbor <$> schedule nb !! ts) ≠ Some (Some self))))
           (py_prefix scheduleList numCellsToRemove) in
  top_cell_deletion_sender self neighbor tsList w.



End OTF.

(** ** Propagation *)

(** An entry of [Propagation.transmissions] and of [Propagation.receivers]. *)
Record transmission : Type := Build_transmission {
  tx_channel : Z;
  tx_type : option string;
  tx_data : option control_data;
  tx_smac : Z;
  tx_dmac : Z;
  tx_payload : option (list Z)
}.

#[global] Instance transmission_eq_dec : EqDecision transmission.
Proof. solve_decision. Defined.

Record receiver : Type := Build_receiver {
  rx_mote : Z;
  rx_channel : Z
}.

(** [arrivalTime], filled in by the loop of line 119; [calcTime] is the
    clock drift that [Mote.calcTime] accumulates in floating point. *)
Definition arrival_times (calcTime : Z → Q) (transmissions : list transmission) : gmap Z Q :=
  foldl (λ a t, <[tx_smac t := calcTime (tx_smac t)]> a) ∅ transmissions.





Section Propagation.

Variable shuffle : list Z → list Z.
Variable getNextTS : Z → list Z → direction → Z * Z * direction.
Variable settings : SimSettings.
(** [_computePdrFromSINR(_computeSINR(source, destination, interferers),
    destination)]: a floating-point computation. *)
Variable computePdr : Z → Z → list Z → Q.



End Propagation.

(** ** The SINR of a reception, over the real numbers *)

Module SINR.

Local Open Scope R_scope.

(** What [_computeSINR] reads of a mote. *)
Record radio : Type := Build_radio {
  id : Z;
  noisepower : R;           (* dBm *)
  RSSI : gmap Z R           (* indexed by neighbor id *)
}.

Definition getRSSI (m neighbor : radio) : R :=
  default 0 (RSSI m !! id neighbor).

(** [math.pow(10.0, dBm/10.0)] *)
Definition _dBmTomW (dBm : R) : R := Rpower 10 (dBm / 10).

(** [10*math.log10(mW)]; [math.log10] raises unless its argument is positive. *)
Definition _mWTodBm (mW : R) : option R :=
  if Rlt_dec 0 mW then Some (10 * (ln mW / ln 10)) else None.

Definition _computeSINR (source destination : radio) (interferers : list radio)
    : option R :=
  let noise := _dBmTomW (noisepower destination) in
  let signal := _dBmTomW (getRSSI source destination) - noise in
  if Rlt_dec signal 0 then Some (-10)
  else
    let totalInterference :=
      fold_left (λ total interferer,
                   let interference := _dBmTomW (getRSSI interferer destination) - noise in
                   let interference := if Rlt_dec interference 0 then 0 else interference in
                   total + interference)
                interferers 0 in
    let sinr := signal / (totalInterference + noise) in
    _mWTodBm sinr.

(** The total interference as a sum: each interferer counts for what its
    power at the destination exceeds the noise by, and for nothing when it is
    below the noise. *)
Definition sum_interference (destination : radio) (interferers : list radio) : R :=
  foldr (λ interferer acc,
           Rmax 0 (_dBmTomW (getRSSI interferer destination)
                   - _dBmTomW (noisepower destination)) + acc)
        0 interferers.

End SINR.

(** ** TSCH: the start of an active slot *)

(** The two lists of the propagation model. *)
Record propagation : Type := Build_propagation {
  receivers : list receiver;
  transmissions : list transmission
}.

Definition startRx (mote channel : Z) (pr : propagation) : propagation :=
  Build_propagation (receivers pr ++ [Build_receiver mote channel]) (transmissions pr).

Definition startTx (channel : Z) (v : packet) (smac dmac : Z) (pr : propagation)
    : propagation :=
  Build_propagation (receivers pr)
    (transmissions pr
       ++ [Build_transmission channel (Some (pk_type v)) (pk_data v) smac dmac
             (Some (pk_payload v))]).

(** [data[4] == "answer"] on a packet of the control queue. *)
Definition is_answer (v : packet) : option bool :=
  d ← pk_data v; Some (bool_decide (data4 d = Some "answer"%string)).

(** The packet that a SHARED slot takes from the control queue (lines
    1368-1376): the head, or the first "answer" when the head is none. *)
Definition shared_candidate (m : mote) : option (option Z) :=
  match controlQueue m with
  | [] => Some None
  | r :: _ =>
      v ← packets m !! r;
      a ← is_answer v;
      if (a : bool) then Some (Some r)
      else
        flags ← mapM (λ r', v' ← packets m !! r'; a' ← is_answer v'; Some (r', a'))
                     (controlQueue m);
        match filter (λ x, snd x = true) flags with
        | (r', _) :: _ => Some (Some r')
        | [] => Some (Some r)
        end
  end.

(** The condition of line 1378 on the packet [v]: send it in this shared
    slot rather than keep it for a dedicated cell. *)
Definition send_in_shared (settings : SimSettings) (v : packet) (m : mote) : option bool :=
  if bool_decide (getTxCells m = []) then Some true else
  a ← is_answer v;
  if (a : bool) then Some true else
  if negb (opportunist settings) then Some true else
  dmac ← pk_dmac v;
  Some (bool_decide (numCellsToNeighbors m !! dmac = None)
        || bool_decide (numCellsToNeighbors m !! dmac = Some 0)
        || bool_decide (otfStatus m !! dmac = Some (Some "STOP"%string))
        || bool_decide (otfStatus m !! dmac = None)).

(** [_tsch_action_activeCell], a method of the mote [self], at the ASN
    [asn]. The charge counter is not represented. *)
Definition _tsch_action_activeCell (settings : SimSettings) (asn : Z) (self : Z)
    (w : network) (pr : propagation) : option (network * propagation) :=
  if bool_decide (slotframeLength settings = 0) then None else
  let ts := asn `mod` slotframeLength settings in
  m ← w !! self;
  cell ← schedule m !! ts;
  if negb (bool_decide (waitingFor m = None) || bool_decide (waitingFor m = Some DIR_SHARED))
  then None else
  '(m, pr, listeningZero) ←
    match cell_dir cell with
    | DIR_SHARED =>
        if negb (sendcontrolFailed m)
           || (sendcontrolFailed m && bool_decide (sendcontrolDelay m = 0)) then
          cand ← shared_candidate m;
          let m := set_pktToSend cand m in
          match cand with
          | Some p =>
              v ← packets m !! p;
              send ← send_in_shared settings v m;
              if (send : bool) then
                dmac ← pk_dmac v;
                m ← _incrementMoteStats "controlPacketsSent" m;
                Some (set_waitingFor (Some DIR_SHARED) m,
                      startTx (cell_ch cell) v self dmac pr, false)
              else
                Some (set_waitingFor (Some DIR_SHARED) (set_pktToSendAlloc (Some p) m),
                      startRx self 0 pr, true)
          | None =>
              Some (set_waitingFor (Some DIR_SHARED) m, startRx self 0 pr, true)
          end
        else if sendcontrolFailed m then
          Some (set_sendcontrolDelay (sendcontrolDelay m - 1) m, pr, false)
        else Some (m, pr, false)
    | DIR_RX =>
        Some (set_waitingFor (Some DIR_RX) m, startRx self (cell_ch cell) pr, false)
    | DIR_TX =>
        let m := set_pktToSend None m in
        let m :=
          if opportunist settings then
            match pktToSendAlloc m with
            | Some a => if queue_contains (packets m) (controlQueue m) a
                        then set_pktToSend (Some a) m else m
            | None => m
            end
          else m in
        let m := match pktToSend m, txQueue m with
                 | None, r :: _ => set_pktToSend (Some r) m
                 | _, _ => m
                 end in
        match pktToSend m with
        | Some p =>
            v ← packets m !! p;
            dmac ← cell_neighbor cell;
            m ← update_cell ts (λ c, set_numTx (numTx c + 1) c) m;
            Some (set_waitingFor (Some DIR_TX) m, startTx (cell_ch cell) v self dmac pr, false)
        | None =>
            if bool_decide (queuing settings ≠ 0)
               && bool_decide (0 ≤ ts < numSharedSlots settings)
            then Some (set_waitingFor (Some DIR_SHARED) m, startRx self 0 pr, true)
            else Some (m, pr, false)
        end
    end;
  let pr :=
    if bool_decide (waitingFor m = Some DIR_SHARED) && bool_decide (queuing settings ≠ 0)
       && negb listeningZero && bool_decide (0 ≤ ts < numSharedSlots settings)
    then startRx self 0 pr else pr in
  Some (<[self := m]> w, pr).

(** ** Notions used in the statements *)

(** The slots of the cells that a transaction recorded. *)
Definition pt_slots (pt : pendingTransaction_obj) : list Z :=
  map (λ '(ts, ch, d), ts) (default [] (pt_cells pt)).

(** The direction that [_top_abort_transaction] passes to
    [_tsch_removeCells]: that of the last recorded cell. *)
Definition pt_dirToRemove (pt : pendingTransaction_obj) : option direction :=
  match pt_cells pt with
  | Some (c :: cs) => Some ((λ '(ts, ch, d), d) (List.last (c :: cs) c))
  | _ => None
  end.

(** The counter that [_tsch_removeCells(neighbor, tsList, dir)] decrements
    has an entry for [neighbor]. *)
Definition counter_ready (dir : option direction) (neighbor : Z) (m : mote) : Prop :=
  match dir with
  | Some DIR_TX => is_Some (numCellsToNeighbors m !! neighbor)
  | Some DIR_RX => is_Some (numCellsFromNeighbors m !! neighbor)
  | _ => True
  end.

(** ** Example states *)

(** Two motes, 0 and 1, with a slotframe of 11 slots, 2 channels and one
    shared slot; the single control queue ([queuing] = 1). *)
Definition ex_settings : SimSettings :=
  {| slotframeLength := 11; numChans := 2; numSharedSlots := 1; queuing := 1;
     bootstrap := true; opportunist := false; idealAllocation := false;
     noInterference := false; otfThreshold := 0; noRemoveWorstCell := false;
     settings_minRssi := (-97)%Q |}.

Definition ex_shuffle (l : list Z) : list Z := l.

Definition ex_getNextTS (a : Z) (sharedSlots : list Z) (d : direction)
    : Z * Z * direction := (a + 1, 0, d).

(** A mote as the topology leaves it before [boot]: it hears [peer]. *)
Definition ex_mote (id peer : Z) : mote :=
  let m := Mote_init ex_settings id in
  set_PDR (<[peer := 1%Q]> (PDR m)) (set_RSSI (<[peer := (-70)%Q]> (RSSI m)) m).

Definition ex_booted : network :=
  {[ 0 := boot ex_settings 0 (ex_mote 0 1); 1 := boot ex_settings 0 (ex_mote 1 0) ]}.

(** Mote 1 has answered a request of mote 0 for two TX cells: slots 7 and 9
    are RX cells from mote 0, recorded in its pending transaction. *)
Definition ex_answered : network :=
  default ex_booted
    (snd <$> top_cell_reservation_response ex_shuffle ex_getNextTS ex_settings 3
               1 0 2 (Some DIR_TX) (Some [0]) ex_booted).

Definition ex_pending : pendingTransaction_obj :=
  Build_pendingTransaction "parentAdds" 0 (Some [(7, 0, DIR_RX); (9, 0, DIR_RX)]) 0.

(** Nineteen calls of [_top_cell_reservation_request] later. *)
Definition ex_waiting : network := alter (set_transactionRetries 19) 1 ex_answered.

Definition ex_waiting_mote : mote := default (Mote_init ex_settings 1) (ex_waiting !! 1).

Definition ex_booted_mote : mote := boot ex_settings 0 (ex_mote 1 0).

(** A "req" of mote 0 for mote 1 that carries the sequence number 5, while
    mote 1 has no counter for mote 0 yet and expects 1. *)
Definition ex_late_req : control_data :=
  {| data0 := CellsNone; data1 := Some 2; data2 := 1; data3 := Some DIR_TX;
     data4 := Some "req"%string; data5 := 0; data6 := Some [0]; data7 := None; data8 := 5 |}.

(** *** A line of three motes: 0 (the root), 1 and 2 *)

(** A mote as the topology and the first RPL housekeeping leave it: it
    hears [peers], has a sequence counter, at 0, for each of them, and
    [parent] as its preferred parent. *)
Definition line_mote (id : Z) (parent : option Z) (peers : list Z) : mote :=
  let m := set_preferredParent parent (Mote_init ex_settings id) in
  let m := set_PDR (list_to_map (map (λ p, (p, 1%Q)) peers)) m in
  let m := set_RSSI (list_to_map (map (λ p, (p, (-70)%Q)) peers)) m in
  let m := set_sequenceNumberWithNeighbor (list_to_map (map (λ p, (p, 0)) peers)) m in
  boot ex_settings 0 m.

Definition line_booted : network :=
  {[ 0 := line_mote 0 None [1]; 1 := line_mote 1 (Some 0) [0; 2];
     2 := line_mote 2 (Some 1) [1] ]}.

(** The frames of the exchange, as [_app_schedule_sendControl] builds them. *)
Definition line_req_1_0 : control_data :=
  {| data0 := CellsNone; data1 := Some 2; data2 := 0; data3 := Some DIR_TX;
     data4 := Some "req"%string; data5 := 1; data6 := Some [0]; data7 := None; data8 := 1 |}.

Definition line_req_2_1 : control_data :=
  {| data0 := CellsNone; data1 := Some 2; data2 := 1; data3 := Some DIR_TX;
     data4 := Some "req"%string; data5 := 2; data6 := Some [0]; data7 := None; data8 := 1 |}.

Definition line_answer_0_1 : control_data :=
  {| data0 := CellsDict {[ 7 := 0; 9 := 0 ]}; data1 := Some 2; data2 := 1;
     data3 := Some DIR_TX; data4 := Some "answer"%string; data5 := 0; data6 := None;
     data7 := None; data8 := 2 |}.

Definition line_confirmation_1_0 : control_data :=
  {| data0 := CellsList [9]; data1 := Some 1; data2 := 0; data3 := None;
     data4 := Some "confirmation"%string; data5 := 1; data6 := None; data7 := None;
     data8 := 3 |}.

(** Mote 1 asks the root for two TX cells and mote 2 asks mote 1 for two;
    the root and mote 1 each receive the request addressed to them in a
    shared slot and answer it, both with the slots 7 and 9; mote 1 then
    receives the answer of the root. *)
Definition line_before_confirmation : option network :=
  w ← _top_cell_reservation_request ex_shuffle ex_getNextTS ex_settings 3 1 0 2 DIR_TX
        line_booted;
  w ← _top_cell_reservation_request ex_shuffle ex_getNextTS ex_settings 4 2 1 2 DIR_TX w;
  '(_, _, w) ← rxDone ex_shuffle ex_getNextTS ex_settings 11 0 (Some "CONTROL"%string)
                 (Some line_req_1_0) (Some 1) (Some 0) None w;
  '(_, _, w) ← rxDone ex_shuffle ex_getNextTS ex_settings 22 1 (Some "CONTROL"%string)
                 (Some line_req_2_1) (Some 2) (Some 1) None w;
  '(_, _, w) ← rxDone ex_shuffle ex_getNextTS ex_settings 33 1 (Some "CONTROL"%string)
                 (Some line_answer_0_1) (Some 0) (Some 1) None w;
  Some w.

(** The root receives the confirmation of mote 1. *)
Definition line_after_confirmation : option network :=
  w ← line_before_confirmation;
  '(_, _, w) ← rxDone ex_shuffle ex_getNextTS ex_settings 44 0 (Some "CONTROL"%string)
                 (Some line_confirmation_1_0) (Some 1) (Some 0) None w;
  Some w.

(** The cell of the mote [i] in the slot [ts]. *)
Definition cell_at (w : option network) (i ts : Z) : option cell :=
  w ← w; m ← w !! i; schedule m !! ts.

Definition line_w : network := default ∅ line_before_confirmation.
Definition line_root : mote := default (Mote_init ex_settings 0) (line_w !! 0).
Definition line_mote1 : mote := default (Mote_init ex_settings 1) (line_w !! 1).

(** *** Transmissions that fail *)

(** Mote 1 sends in its TX cell to the root, slot 9, and the frame is
    neither acknowledged nor refused: [_tsch_action_activeCell] at the start
    of the slot, [txDone(False, False)] at its end. *)
Definition failed_slot (asn : Z) (w : network) : option network :=
  '(w, _) ← _tsch_action_activeCell ex_settings asn 1 w (Build_propagation [] []);
  txDone ex_settings asn 1 1 false false w.

(** [k] such slots, one per slotframe, from the ASN [asn] on. *)
Fixpoint failed_slots (k : nat) (asn : Z) (w : network) : option network :=
  match k with
  | O => Some w
  | S k' => w ← failed_slot asn w; failed_slots k' (asn + 11) w
  end.

(** After the exchange of the line, mote 1 generates a DATA packet. *)
Definition line_with_packet : option network :=
  w ← line_after_confirmation;
  m ← w !! 1;
  m ← _app_action_enqueueData ex_settings 50 m;
  Some (<[1 := m]> w).

(** What is seen of mote 1: its data queue, the retries left of the packets
    in it, the statistic [droppedMacRetries] and the length of the history
    of its cell in slot 9. *)
Definition tx_view (w : option network) : option (list Z * list Z * option Z * nat) :=
  w ← w;
  m ← w !! 1;
  c ← schedule m !! 9;
  Some (txQueue m,
        omap (λ r, retriesLeft <$> packets m !! r) (txQueue m),
        motestats m !! "droppedMacRetries"%string,
        length (history c)).

(** [if r > 0: r -= 1] *)
Definition decremented (r : Z) : Z := if bool_decide (0 < r) then r - 1 else r.

(** Mote 1 at the start of its fifth slot with the same packet. *)
Definition line_last_retry : network :=
  default ∅ (w ← line_with_packet;
             w ← failed_slots 4 53 w;
             fst <$> _tsch_action_activeCell ex_settings 97 1 w (Build_propagation [] [])).

Definition line_sender : mote :=
  default (Mote_init ex_settings 1) (line_last_retry !! 1).

Definition line_sender_cell : cell :=
  default (new_cell 0 DIR_TX None 0) (schedule line_sender !! 9).

Definition line_sender_packet : packet :=
  default (Build_packet 0 "DATA" None None None [] 0) (packets line_sender !! 0).

(** Every cell without a neighbor (the SHARED cells) of every mote of [w]
    is still there, unchanged, in [w']. *)
Definition keeps_shared (w w' : network) : Prop :=
  ∀ i m ts c, w !! i = Some m → schedule m !! ts = Some c → cell_neighbor c = None →
              ∃ m', w' !! i = Some m' ∧ schedule m' !! ts = Some c.

(** *** Two frames for mote 1 in the shared slot *)



Definition line_calcTime (i : Z) : Q := if bool_decide (i = 2) then 3%Q else 5%Q.

(** *** What the housekeeping reads of a history *)

(** [cell['history'][-NUM_MAX_HISTORY:]], the slice that
    [_top_txhousekeeping_per_neighbor] takes (lines 849-887). *)
Definition recentHistory (c : cell) : list Z := py_last NUM_MAX_HISTORY (history c).

(** The entry that [txDone(isACKed, isNACKed)] appends to the history. *)
Definition tx_outcome (isACKed isNACKed : bool) : Z :=
  if isACKed || isNACKed then 1 else 0.

(** The motes after that fifth slot. *)
Definition line_after_retry : network :=
  default ∅ (txDone ex_settings 97 1 1 false false line_last_retry).

(** ** TSCH: the next active cell *)

(** What [_tsch_schedule_activeCell] asks of the event engine: to remove
    the [activeCell] event of the mote, or to run [_tsch_action_activeCell]
    at an ASN. *)
Inductive activeCell_event : Type :=
  | Event_removed
  | Event_at (asn : Z).

(** One turn of the loop of lines 1321-1332 for the slot [ts]:
    [not tsDiffMin] holds of [None] and of 0. *)
Definition tsDiffMin_step (slotframeLength tsCurrent : Z) (tsDiffMin : option Z) (ts : Z)
    : option Z :=
  let tsDiff :=
    if bool_decide (ts = tsCurrent) then slotframeLength
    else if bool_decide (tsCurrent < ts) then ts - tsCurrent
    else (ts + slotframeLength) - tsCurrent in
  match tsDiffMin with
  | None => Some tsDiff
  | Some d => if bool_decide (d = 0) || bool_decide (tsDiff < d) then Some tsDiff else Some d
  end.

(** [_tsch_schedule_activeCell()] at the ASN [asn]; [asn % slotframeLength]
    raises when the slotframe has no slot. *)
Definition _tsch_schedule_activeCell (settings : SimSettings) (asn : Z) (m : mote)
    : option activeCell_event :=
  if bool_decide (slotframeLength settings = 0) then None else
  let tsCurrent := asn `mod` slotframeLength settings in
  if bool_decide (schedule m = ∅) then Some Event_removed else
  tsDiffMin ← foldl (tsDiffMin_step (slotframeLength settings) tsCurrent) None
                    (fst <$> map_to_list (schedule m));
  Some (Event_at (asn + tsDiffMin)).

(** ** Propagation: the receivers that no frame was delivered to *)

(** Line 265: the senders of the frames on the channel of the receiver [r]
    that are for another mote. *)
Definition idle_interferers (transmissions : list transmission) (r : receiver) : list Z :=
  tx_smac <$> filter (λ t, tx_dmac t ≠ rx_mote r ∧ tx_channel t = rx_channel r)
                     transmissions.

(** Lines 267-276: the sender that the receiver [rm] locks on, if any.
    [lockOn] is [None] or a mote, and [not lockOn] holds of [None] only. *)
Definition idle_lockOn (arrivalTime : gmap Z Q) (rm : mote) (interferers : list Z)
    : option (option Z) :=
  foldM (λ lockOn itfr,
           match lockOn with
           | None =>
               Some (if Qgtb (getRSSI rm itfr) (minRssi rm) then Some itfr else None)
           | Some l =>
               if Qgtb (getRSSI rm itfr) (minRssi rm) then
                 a ← arrivalTime !! itfr;
                 b ← arrivalTime !! l;
                 Some (Some (if Qgtb b a then itfr else l))
               else Some (Some l)
           end)
        interferers None.

Section IdleReceivers.

Variable shuffle : list Z → list Z.
Variable getNextTS : Z → list Z → direction → Z * Z * direction.
Variable settings : SimSettings.
Variable computePdr : Z → Z → list Z → Q.

(** The body of the closing loop of [propagate] (lines 260-299) for the
    receiver [r]; [failure] is the value of [random.random()]. *)
Definition idle_receiver (asn : Z) (transmissions : list transmission)
    (arrivalTime : gmap Z Q) (r : receiver) (failure : Q) (w : network) : option network :=
  if bool_decide (slotframeLength settings = 0) then None else
  let ts := asn `mod` slotframeLength settings in
  w ← (if negb (noInterference settings) then
         rm ← w !! rx_mote r;
         let interferers := idle_interferers transmissions r in
         lockOn ← idle_lockOn arrivalTime rm interferers;
         match lockOn with
         | Some l =>
             i ← fst <$> list_find (λ x, x = l) interferers;
             let interferers := delete i interferers in
             if Qle_bool failure (computePdr l (rx_mote r) interferers) then
               rm ← update_cell ts (set_rxDetectedCollision true) rm;
               Some (<[rx_mote r := rm]> w)
             else Some w
         | None => Some w
         end
       else Some w);
  '(_, _, w) ← rxDone shuffle getNextTS settings asn (rx_mote r) None None None None None w;
  Some w.

End IdleReceivers.

(** ** Application: control frames *)

(** [_tsch_enqueueSlotZero(packet)]; it returns [True] in every case. *)
Definition _tsch_enqueueSlotZero (settings : SimSettings) (v : packet) (m : mote)
    : option (bool * mote) :=
  if bool_decide (queuing settings = 2) then
    d ← pk_data v;
    if bool_decide (data4 d = Some "answer"%string) then
      let '(r, m) := new_packet v m in
      Some (true, set_controlQueueHP (controlQueueHP m ++ [r]) m)
    else if bool_decide (data4 d = Some "req"%string) then
      let '(r, m) := new_packet v m in
      Some (true, set_controlQueueNP (controlQueueNP m ++ [r]) m)
    else Some (true, m)
  else if bool_decide (queuing settings = 1) then
    let '(r, m) := new_packet v m in
    Some (true, set_controlQueue (controlQueue m ++ [r]) m)
  else Some (true, m).

(** The packet that [_app_action_enqueueControl(args)] builds at the ASN
    [asn]. *)
Definition control_packet (asn : Z) (args : control_data) (m : mote) : packet :=
  Build_packet asn "CONTROL" (Some args) (Some (data2 args)) (Some (data5 args))
    [mote_id m; asn; 1] TSCH_MAXTXRETRIES.

(** [_app_action_enqueueControl(args)], which [_app_action_sendControl]
    calls with the argument list of the event. *)
Definition _app_action_enqueueControl (settings : SimSettings) (asn : Z)
    (args : control_data) (m : mote) : option mote :=
  '(isEnqueued, m) ← _tsch_enqueueSlotZero settings (control_packet asn args m) m;
  if (isEnqueued : bool) then Some m
  else _incrementMoteStats "droppedAppFailedEnqueueControl" m.

(** ** Notions used in the statements *)

(** The counters that [_resetMoteStats] creates are there. *)
Definition stats_ready (m : mote) : Prop :=
  ∀ k, k ∈ motestats_keys → is_Some (motestats m !! k).

(** [len([t for (t,c) in self.schedule.items() if c['dir']==dir and
    c['neighbor']==neighbor])], the number that [_top_housekeeping] compares
    with the counter of the neighbor (lines 775 and 791). *)
Definition count_cells (d : direction) (neighbor : Z) (s : gmap Z cell) : Z :=
  Z.of_nat (length (filter (λ x, cell_dir x.2 = d ∧ cell_neighbor x.2 = Some neighbor)
                           (map_to_list s))).

(** The assertion of line 775 for [neighbor]. *)
Definition tx_counter_consistent (neighbor : Z) (m : mote) : Prop :=
  default 0 (numCellsToNeighbors m !! neighbor) = count_cells DIR_TX neighbor (schedule m).

(** ** Further example states *)

(** Mote 1 of the line after its TX cell to the root, in slot 9, is removed. *)
Definition line_mote1_removed : mote :=
  default line_mote1 (_tsch_removeCells 0 [9] (Some DIR_TX) line_mote1).

(** The line after mote 1 has deleted its TX cell to the root in slot 9. *)
Definition line_after_deletion : network :=
  default ∅ (top_cell_deletion_sender 1 0 [9] line_w).

(** The cells that mote 1 offers to mote 0 in [ex_answered]. *)
Definition ex_offer : gmap Z Z :=
  default ∅
    (fst <$> top_cell_reservation_response ex_shuffle ex_getNextTS ex_settings 3
               1 0 2 (Some DIR_TX) (Some [0]) ex_booted).

(** The position that the index [i] denotes in a list of length [len],
    when there is one. *)
Definition py_pos (len : nat) (i : Z) : option nat :=
  if bool_decide (0 ≤ i) then
    if bool_decide (i < Z.of_nat len) then Some (Z.to_nat i) else None
  else if bool_decide (- Z.of_nat len ≤ i) then Some (Z.to_nat (Z.of_nat len + i))
       else None.

(** Mote 0 after the cell (3, 1) is reserved in its table, and after it is
    deleted again. *)
Definition ex_reserved : network :=
  default ∅ (_reserve_cell_neighbor [(3, 1, DIR_TX)] 0 ex_booted).

Definition ex_unreserved : network :=
  default ∅ (_delete_cell_neighbor [(3, 1)] 0 ex_reserved).

(** ** Roles *)

(** [role_setDagRoot()], for the attributes of [mote]. *)
Definition role_setDagRoot (m : mote) : mote :=
  Build_mote (mote_id m) true (preferredParent m) (inTraffic m) (otfStatus m)
    (sequenceNumberWithNeighbor m) (ignorePacket m) (transactionTimeout m)
    (transactionRetries m) (pendingTransaction m) (numCellsToNeighbors m)
    (numCellsFromNeighbors m) (macMinBE m) (macMaxBE m) (macBackoffNB m) (macMaxCSMABackoffs m)
    (backoffExponent m) (sendcontrolDelay m) (sendcontrolFailed m) (sendControlFailed m)
    (requestTriggered m) (txQueue m) (controlQueue m) (controlQueueNP m) (controlQueueHP m)
    (cellsAllocToNeighbor m) (pktToSend m) (pktToSendAlloc m) (schedule m) (reserve m)
    (waitingFor m) (sharedSlots m) (timeCorrectedSlot m) (minRssi m) (RSSI m) (PDR m)
    (motestats m) (queuestats_delay m) [] [] (radiostats m) (packets m).

(** The line with mote 0 as the DAG root. *)
Definition line_rooted : network := <[0 := role_setDagRoot line_root]> line_w.

(** ** RPL: the ETX of a link and the rank increase *)

Definition RPL_MIN_HOP_RANK_INCREASE : Z := 256.

(** [int(x)] on a float: the integer part, rounded towards zero. *)
Definition py_int (x : Q) : Z := if Qle_bool 0 x then Qfloor x else Qceiling x.

(** The loop of [_estimateETX] (lines 2040-2043): the transmissions and the
    acknowledged transmissions of the TX cells to [neighbor], added to the
    initial values. *)
Definition sum_tx_cells (neighbor : Z) (s : gmap Z cell) (init : Z * Z) : Z * Z :=
  foldl (λ '(tx, ack) '(_, c),
           if bool_decide (cell_neighbor c = Some neighbor)
              && bool_decide (cell_dir c = DIR_TX)
           then (tx + numTx c, ack + numTxAck c) else (tx, ack))
        init (map_to_list s).

(** [_estimateETX(neighbor)]; the inner [None] is the result of the bare
    [return] before a division by 0, the outer one a [KeyError] of
    [getPDR]. The PDR is a rational, and so is the quotient. *)
Definition _estimateETX (neighbor : Z) (m : mote) : option (option Q) :=
  pdr ← PDR m !! neighbor;
  let '(tx, ack) :=
    sum_tx_cells neighbor (schedule m)
      (NUM_SUFFICIENT_TX, Qfloor (pdr * inject_Z NUM_SUFFICIENT_TX)) in
  if bool_decide (ack = 0) then Some None
  else Some (Some (inject_Z tx / inject_Z ack)%Q).

(** [_rpl_calcRankIncrease(neighbor)]; [not etx] holds of [None] and of 0. *)
Definition _rpl_calcRankIncrease (neighbor : Z) (m : mote) : option (option Z) :=
  etx ← _estimateETX neighbor m;
  match etx with
  | None => Some None
  | Some e =>
      if Qeq_bool e 0 then Some None
      else Some (Some (py_int (inject_Z (2 * RPL_MIN_HOP_RANK_INCREASE) * e)%Q))
  end.

(** ** SimStats: the collisions in the schedules *)

(** [SimStats._collectScheduleStats] works on [engine.motes], a list. The
    first loop (lines 163-171) counts the TX cells whose slot and channel
    an earlier TX cell has already; [count_collision] is its body for a TX
    cell. *)
Definition count_collision (acc : Z * list (Z * Z)) (k : Z * Z) : Z * list (Z * Z) :=
  let '(n, txCells) := acc in
  if bool_decide (k ∈ txCells) then (n + 1, txCells) else (n, txCells ++ [k]).

Definition scheduleCollisions (motes : list mote) : Z :=
  fst (foldl (λ acc mote,
                foldl (λ acc '(ts, c),
                         if bool_decide (cell_dir c = DIR_TX)
                         then count_collision acc (ts, cell_ch c)
                         else acc)
                      acc (map_to_list (schedule mote)))
             (0, []) motes).

(** The dict [txLinks] that the second loop builds (lines 178-186): the
    links, sender and receiver, by slot and channel; [add_link] is the body
    of the loop for a TX cell. The other branch of the loop, on the cells
    that are not TX cells, fills other lists and leaves [txLinks] alone. *)
Definition add_link (links : gmap (Z * Z) (list (Z * option Z)))
    (kx : (Z * Z) * (Z * option Z)) : gmap (Z * Z) (list (Z * option Z)) :=
  let '(k, x) := kx in
  match links !! k with
  | Some l => <[k := l ++ [x]]> links
  | None => <[k := [x]]> links
  end.

Definition txLinks (motes : list mote) : gmap (Z * Z) (list (Z * option Z)) :=
  foldl (λ acc mote,
           foldl (λ links '(ts, c),
                    if bool_decide (cell_dir c = DIR_TX)
                    then add_link links ((ts, cell_ch c), (mote_id mote, cell_neighbor c))
                    else links)
                 acc (map_to_list (schedule mote)))
        ∅ motes.

(** [collidedLinks] (line 197) and [collidedTxs] (lines 202-203). *)
Definition collidedLinks (motes : list mote) : list (list (Z * option Z)) :=
  omap (λ '(_, l), if bool_decide (2 ≤ length l)%nat then Some l else None)
       (map_to_list (txLinks motes)).

Definition collidedTxs (motes : list mote) : Z :=
  foldl (λ n links, n + Z.of_nat (length links)) 0 (collidedLinks motes).

(** The mote of [engine.motes] with the id [i]. *)
Definition mote_by_id (motes : list mote) (i : Z) : option mote :=
  snd <$> list_find (λ m, mote_id m = i) motes.

(** [effectiveCollidedTxs] (lines 214-222): the loops over the pairs of
    links of a collided cell; a receiver that is no mote raises. *)
Definition effectiveCollidedTxs (motes : list mote) : option Z :=
  foldM (λ n links,
           foldM (λ n '(tx1, rx1),
                    foldM (λ n '(tx2, rx2),
                             if bool_decide (tx1 ≠ tx2) && bool_decide (rx1 ≠ rx2) then
                               t1 ← mote_by_id motes tx1;
                               r2 ← rx2;
                               r2m ← mote_by_id motes r2;
                               if Qgtb (getRSSI t1 r2) (minRssi r2m)
                               then Some (n + 0) else Some n
                             else Some n)
                          links n)
                 links n)
        (collidedLinks motes) 0.

(** ** Notions used in the statements on the collisions *)

(** The TX cells of the motes, mote by mote: slot and channel, sender and
    receiver. *)
Definition tx_links (motes : list mote) : list ((Z * Z) * (Z * option Z)) :=
  motes ≫= λ mote,
    omap (λ '(ts, c), if bool_decide (cell_dir c = DIR_TX)
                      then Some ((ts, cell_ch c), (mote_id mote, cell_neighbor c))
                      else None)
         (map_to_list (schedule mote)).

Definition tx_slots (motes : list mote) : list (Z * Z) := (tx_links motes).*1.

(** The number of TX cells on the slot and channel [k]. *)
Definition tx_cells_on (motes : list mote) (k : Z * Z) : nat :=
  length (filter (λ k', k' = k) (tx_slots motes)).

(** The motes of the line once mote 2 has a TX cell to mote 1 on the slot 9
    and the channel 0, which mote 1 uses to send to the root. *)
Definition line_collided : list mote :=
  [line_root; line_mote1;
   _tsch_addCells 50 1 [(9, 0, DIR_TX)] (default (Mote_init ex_settings 2) (line_w !! 2))].

(** The line after the last transmission of mote 1 has been refused with a
    NACK. *)
Definition line_after_nack : network :=
  default ∅ (txDone ex_settings 97 1 1 false true line_last_retry).

(** The line when mote 1 has a DATA packet in its queue, and after the start
    of its TX slot at the ASN 53. *)
Definition line_queued : network := default ∅ line_with_packet.

Definition line_sending : network * propagation :=
  default (∅, Build_propagation [] [])
          (_tsch_action_activeCell ex_settings 53 1 line_queued (Build_propagation [] [])).

Definition line_queued_mote : mote :=
  default (Mote_init ex_settings 1) (line_queued !! 1).

Definition line_queued_cell : cell :=
  default (new_cell 0 DIR_TX None 0) (schedule line_queued_mote !! 9).

(** ** Statistics of a cell and of the latency *)

(** The dict that [getCellStats] returns. *)
Record cellStats : Type := Build_cellStats {
  cs_dir : direction;
  cs_neighbor : Z;
  cs_numTx : Z;
  cs_numTxAck : Z;
  cs_numRx : Z
}.

(** The loop of [getCellStats(ts_p, ch_p)] over [self.schedule.items()]:
    it stops at the first cell that matches; [cell['neighbor'].id] raises
    when the cell has no neighbor. *)
Fixpoint getCellStats_loop (ts_p ch_p : Z) (items : list (Z * cell))
    : option (option cellStats) :=
  match items with
  | [] => Some None
  | (ts, c) :: rest =>
      if bool_decide (ts = ts_p) && bool_decide (cell_ch c = ch_p) then
        n ← cell_neighbor c;
        Some (Some (Build_cellStats (cell_dir c) n (numTx c) (numTxAck c) (numRx c)))
      else getCellStats_loop ts_p ch_p rest
  end.

Definition getCellStats (ts_p ch_p : Z) (m : mote) : option (option cellStats) :=
  getCellStats_loop ts_p ch_p (map_to_list (schedule m)).

(** [getAveLatency]: the mean of [packetLatencies], 0 when there is none. *)
Definition getAveLatency (m : mote) : Q :=
  if bool_decide (0 < length (packetLatencies m))%nat
  then (inject_Z (foldr Z.add 0%Z (packetLatencies m))
        / inject_Z (Z.of_nat (length (packetLatencies m))))%Q
  else 0%Q.

(** [SimStats._collectLatencyStats]. The rank [dagRank] of a mote, an
    attribute of the RPL code, comes with the mote; it is [None] until the
    mote has a rank, and Python 2 orders [None] below every integer. The
    motes that count are those with a latency other than 0 and a rank that
    is not negative. *)
Definition latency_entries (motes : list (mote * option Z)) : list (Z * Q) :=
  omap (λ '(m, dagRank),
          r ← dagRank;
          if negb (Qeq_bool (getAveLatency m) 0) && bool_decide (0 ≤ r)
          then Some (r, getAveLatency m) else None)
       motes.

Definition _collectLatencyStats (latencyPerRank : gmap Z (list Q))
    (motes : list (mote * option Z)) : gmap Z (list Q) :=
  foldl (λ acc '(r, ave),
           let acc := if bool_decide (acc !! r = None) then <[r := [ave]]> acc else acc in
           <[r := default [] (acc !! r) ++ [ave]]> acc)
        latencyPerRank (latency_entries motes).

(** ** A reception with interferers *)

(** Mote 0 sends to mote 1, which hears it at -70 dBm over a noise of
    -105 dBm; mote 1 hears the motes 2 and 3 at -80 dBm and -75 dBm. *)
Definition sinr_source : SINR.radio := SINR.Build_radio 0 (-105) {[ 1 := (-70)%R ]}.

Definition sinr_destination : SINR.radio := SINR.Build_radio 1 (-105) ∅.

Definition sinr_interferer2 : SINR.radio := SINR.Build_radio 2 (-105) {[ 1 := (-80)%R ]}.

Definition sinr_interferer3 : SINR.radio := SINR.Build_radio 3 (-105) {[ 1 := (-75)%R ]}.

(** * Properties *)

(** ** Removing cells *)

Lemma foldM_app {A B : Type} (f : B → A → option B) (l1 l2 : list A) (b : B) :
  foldM f (l1 ++ l2) b = foldM f l1 b ≫= foldM f l2.
Proof.
  revert b; induction l1 as [|x l1 IH]; intros b; simpl; [done|].
  destruct (f b x); simpl; [apply IH | done].
Qed.

(** A removal changes the schedule and the two counters, nothing else. *)
Lemma _tsch_removeCells_step_frame neighbor dir m ts m' :
  _tsch_removeCells_step neighbor dir m ts = Some m' →
  ∃ s c1 c2,
    m' = set_schedule s (set_numCellsToNeighbors c1 (set_numCellsFromNeighbors c2 m)).
Proof.
  unfold _tsch_removeCells_step. intros H.
  assert (Hid : ∃ s c1 c2,
    m = set_schedule s (set_numCellsToNeighbors c1 (set_numCellsFromNeighbors c2 m))).
  { exists (schedule m), (numCellsToNeighbors m), (numCellsFromNeighbors m).
    destruct m; reflexivity. }
  destruct (schedule m !! ts) as [c|]; [|by simplify_eq].
  case_bool_decide; [|by simplify_eq].
  destruct dir as [[| |]|]; simpl in H.
  - destruct (numCellsToNeighbors m !! neighbor) as [n|]; simplify_eq/=.
    exists (delete ts (schedule m)), (<[neighbor:=n - 1]> (numCellsToNeighbors m)),
      (numCellsFromNeighbors m).
    destruct m; reflexivity.
  - destruct (numCellsFromNeighbors m !! neighbor) as [n|]; simplify_eq/=.
    exists (delete ts (schedule m)), (numCellsToNeighbors m),
      (<[neighbor:=n - 1]> (numCellsFromNeighbors m)).
    destruct m; reflexivity.
  - simplify_eq/=.
    exists (delete ts (schedule m)), (numCellsToNeighbors m), (numCellsFromNeighbors m).
    destruct m; reflexivity.
  - simplify_eq/=.
    exists (delete ts (schedule m)), (numCellsToNeighbors m), (numCellsFromNeighbors m).
    destruct m; reflexivity.
Qed.

Lemma _tsch_removeCells_frame neighbor dir tsList m m' :
  _tsch_removeCells neighbor tsList dir m = Some m' →
  ∃ s c1 c2,
    m' = set_schedule s (set_numCellsToNeighbors c1 (set_numCellsFromNeighbors c2 m)).
Proof.
  unfold _tsch_removeCells. revert m.
  induction tsList as [|ts l IH]; intros m H; simpl in H.
  - injection H as <-.
    exists (schedule m), (numCellsToNeighbors m), (numCellsFromNeighbors m).
    destruct m; reflexivity.
  - destruct (_tsch_removeCells_step neighbor dir m ts) as [m1|] eqn:E; [|done].
    simpl in H.
    apply _tsch_removeCells_step_frame in E as (s1 & a1 & b1 & ->).
    apply IH in H as (s & a & b & ->).
    exists s, a, b. destruct m; reflexivity.
Qed.

(** The schedule after one turn of the loop. *)
Lemma _tsch_removeCells_step_schedule neighbor dir m ts m' :
  _tsch_removeCells_step neighbor dir m ts = Some m' →
  schedule m' =
    if bool_decide ((cell_neighbor <$> schedule m !! ts) = Some (Some neighbor))
    then delete ts (schedule m) else schedule m.
Proof.
  unfold _tsch_removeCells_step. intros H.
  destruct (schedule m !! ts) as [c|] eqn:Ec; simpl.
  - destruct (decide (cell_neighbor c = Some neighbor)) as [Hn|Hn].
    + rewrite bool_decide_eq_true_2 in H by done.
      rewrite bool_decide_eq_true_2 by (by rewrite Hn).
      destruct dir as [[| |]|]; simpl in H.
      * destruct (numCellsToNeighbors m !! neighbor); by simplify_eq/=.
      * destruct (numCellsFromNeighbors m !! neighbor); by simplify_eq/=.
      * by simplify_eq/=.
      * by simplify_eq/=.
    + rewrite bool_decide_eq_false_2 in H by done.
      rewrite bool_decide_eq_false_2 by congruence. by simplify_eq.
  - by simplify_eq.
Qed.

(** The schedule after [_tsch_removeCells]: the slots of [tsList] whose
    cell has [neighbor] as its neighbor are gone, every other slot is as
    before. *)
Lemma _tsch_removeCells_schedule neighbor dir tsList m m' :
  _tsch_removeCells neighbor tsList dir m = Some m' →
  ∀ ts, schedule m' !! ts =
        if bool_decide (ts ∈ tsList
                        ∧ (cell_neighbor <$> schedule m !! ts) = Some (Some neighbor))
        then None else schedule m !! ts.
Proof.
  unfold _tsch_removeCells. revert m.
  induction tsList as [|a l IH]; intros m H ts; simpl in H.
  - injection H as <-. rewrite bool_decide_eq_false_2; [done|].
    intros [Hin _]. by apply elem_of_nil in Hin.
  - destruct (_tsch_removeCells_step neighbor dir m a) as [m1|] eqn:E; [|done].
    simpl in H. rewrite (IH _ H ts).
    rewrite (_tsch_removeCells_step_schedule _ _ _ _ _ E).
    destruct (decide (ts = a)) as [->|Hne].
    + destruct (decide ((cell_neighbor <$> schedule m !! a) = Some (Some neighbor))) as [Ha|Ha].
      * rewrite (bool_decide_eq_true_2 _ Ha). rewrite lookup_delete_eq. simpl.
        rewrite (bool_decide_eq_false_2 (_ ∧ None = _)) by (intros [_ ?]; done).
        rewrite bool_decide_eq_true_2; [done|]. split; [left|done].
      * rewrite (bool_decide_eq_false_2 _ Ha).
        rewrite !bool_decide_eq_false_2; [done| |]; intros [_ ?]; done.
    + destruct (decide ((cell_neighbor <$> schedule m !! a) = Some (Some neighbor))) as [Ha|Ha].
      * rewrite (bool_decide_eq_true_2 _ Ha). rewrite lookup_delete_ne by done.
        apply (f_equal (λ b : bool, if b then None else schedule m !! ts)).
        apply bool_decide_ext. rewrite elem_of_cons.
        split; [intros [? ?]; auto | intros [[?|?] ?]; [done | auto]].
      * rewrite (bool_decide_eq_false_2 _ Ha).
        apply (f_equal (λ b : bool, if b then None else schedule m !! ts)).
        apply bool_decide_ext. rewrite elem_of_cons.
        split; [intros [? ?]; auto | intros [[?|?] ?]; [done | auto]].
Qed.

(** [_tsch_removeCells] returns when the counter it decrements holds
    [neighbor]. *)
Lemma _tsch_removeCells_is_Some neighbor dir tsList m :
  counter_ready dir neighbor m →
  is_Some (_tsch_removeCells neighbor tsList dir m).
Proof.
  unfold _tsch_removeCells. revert m.
  induction tsList as [|a l IH]; intros m Hc; simpl; [done|].
  assert (∃ m1, _tsch_removeCells_step neighbor dir m a = Some m1
                ∧ counter_ready dir neighbor m1) as (m1 & -> & H1).
  { unfold _tsch_removeCells_step.
    destruct (schedule m !! a) as [c|]; [|by eauto].
    case_bool_decide; [|by eauto].
    destruct dir as [[| |]|]; simpl in *.
    - destruct Hc as [x ->]. simpl. eexists. split; [done|]. simpl.
      rewrite lookup_insert_eq. eauto.
    - destruct Hc as [x ->]. simpl. eexists. split; [done|]. simpl.
      rewrite lookup_insert_eq. eauto.
    - eauto.
    - eauto. }
  simpl. by apply IH.
Qed.

(** ** The abort of a transaction *)

Lemma _incrementMoteStats_Some name m v :
  motestats m !! name = Some v →
  _incrementMoteStats name m = Some (set_motestats (<[name := v + 1]> (motestats m)) m).
Proof. unfold _incrementMoteStats. by intros ->. Qed.

(** [_top_abort_transaction] on a mote with a pending transaction. *)
Lemma _top_abort_transaction_pending m pt v :
  pendingTransaction m = Some pt →
  motestats m !! "transactionAborted"%string = Some v →
  counter_ready (pt_dirToRemove pt) (pt_neighbor pt) m →
  ∃ m', _top_abort_transaction m = Some m'
    ∧ (∀ ts, schedule m' !! ts =
             if bool_decide (ts ∈ pt_slots pt
                             ∧ (cell_neighbor <$> schedule m !! ts) = Some (Some (pt_neighbor pt)))
             then None else schedule m !! ts)
    ∧ requestTriggered m' = <[pt_neighbor pt := false]> (requestTriggered m)
    ∧ pendingTransaction m' = None
    ∧ transactionRetries m' = 0
    ∧ motestats m' = <["transactionAborted"%string := v + 1]> (motestats m).
Proof.
  intros Hpt Hv Hc. unfold _top_abort_transaction. rewrite Hpt.
  assert (∃ m1, match pt_cells pt with
                | Some (c :: cs) =>
                    _tsch_removeCells (pt_neighbor pt) (map (λ '(ts, ch, d), ts) (c :: cs))
                      (Some ((λ '(ts, ch, d), d) (List.last (c :: cs) c))) m
                | _ => Some m
                end = Some m1
           ∧ (∀ ts, schedule m1 !! ts =
                 if bool_decide (ts ∈ pt_slots pt
                      ∧ (cell_neighbor <$> schedule m !! ts) = Some (Some (pt_neighbor pt)))
                 then None else schedule m !! ts)
           ∧ ∃ s c1 c2, m1 = set_schedule s (set_numCellsToNeighbors c1
                                 (set_numCellsFromNeighbors c2 m)))
    as (m1 & E & Hs & s & c1 & c2 & Hm1).
  { unfold pt_slots. unfold pt_dirToRemove in Hc.
    destruct (pt_cells pt) as [[|c cs]|] eqn:Ec; simpl.
    - exists m. split; [done|]. split.
      + intros ts. first [done | (case_bool_decide as Hc; [|done];
          destruct Hc as [Hin _]; by apply elem_of_nil in Hin)].
      + exists (schedule m), (numCellsToNeighbors m), (numCellsFromNeighbors m).
        destruct m; reflexivity.
    - destruct (_tsch_removeCells_is_Some (pt_neighbor pt)
                  (Some ((λ '(ts, ch, d), d) (List.last (c :: cs) c)))
                  (map (λ '(ts, ch, d), ts) (c :: cs)) m Hc) as [m1 E].
      exists m1. split; [exact E|]. split.
      + apply (_tsch_removeCells_schedule _ _ _ _ _ E).
      + apply (_tsch_removeCells_frame _ _ _ _ _ E).
    - exists m. split; [done|]. split.
      + intros ts. first [done | (case_bool_decide as Hc; [|done];
          destruct Hc as [Hin _]; by apply elem_of_nil in Hin)].
      + exists (schedule m), (numCellsToNeighbors m), (numCellsFromNeighbors m).
        destruct m; reflexivity. }
  simpl in E |- *. rewrite E. simpl.
  rewrite (_incrementMoteStats_Some _ _ v).
  - eexists. split; [reflexivity|]. subst m1. simpl.
    split; [|done]. intros ts. rewrite <- (Hs ts). done.
  - subst m1. simpl. exact Hv.
Qed.

(** ** The end of a reception slot *)

(** C9. A CONTROL frame whose sequence number is not the stored counter
    for its source plus one (the counter counts as 0 when the source is
    unknown) is not dispatched: [rxDone] leaves every mote as it is, except
    that the receiver stores the received sequence number for the source
    (and resets [waitingFor] as at the end of every slot). The frame is
    still acknowledged to its sender. *)
Theorem rxDone_out_of_sequence shuffle getNextTS settings asn self d smac dmac payload
    (w : network) (m : mote) :
  slotframeLength settings ≠ 0 →
  w !! self = Some m →
  is_Some (schedule m !! (asn `mod` slotframeLength settings)) →
  waitingFor m = Some DIR_RX ∨ waitingFor m = Some DIR_SHARED →
  data8 d ≠ default 0 (sequenceNumberWithNeighbor m !! data5 d) + 1 →
  rxDone shuffle getNextTS settings asn self (Some "CONTROL"%string) (Some d) smac dmac
    payload w
  = Some (true, false,
          <[self := set_waitingFor
                      (if bool_decide (queuing settings = 0) then None else Some DIR_SHARED)
                      (set_sequenceNumberWithNeighbor
                         (<[data5 d := data8 d]> (sequenceNumberWithNeighbor m)) m)]> w).
Proof.
  intros Hsf Hw Hts Hwait Hseq. unfold rxDone.
  rewrite bool_decide_eq_false_2 by done. rewrite Hw. simpl.
  rewrite (bool_decide_eq_true_2 _ Hts). simpl.
  assert (bool_decide (waitingFor m = Some DIR_RX)
          || bool_decide (waitingFor m = Some DIR_SHARED) = true) as ->.
  { destruct Hwait as [-> | ->]; done. }
  simpl. unfold rx_control. simpl. rewrite Hw. simpl.
  rewrite (bool_decide_eq_true_2 _ Hseq). simpl.
  assert ((if bool_decide (asn ∈ ignorePacket m) then false else false) = false) as ->
    by (by case_bool_decide).
  rewrite andb_false_r. simpl.
  rewrite lookup_insert_eq. simpl. rewrite insert_insert_eq. done.
Qed.

Lemma rxDone_out_of_sequence_witness :
  ex_booted !! 1 = Some ex_booted_mote
  ∧ data8 ex_late_req
    ≠ default 0 (sequenceNumberWithNeighbor ex_booted_mote !! data5 ex_late_req) + 1
  ∧ rxDone ex_shuffle ex_getNextTS ex_settings 22 1 (Some "CONTROL"%string)
      (Some ex_late_req) (Some 0) (Some 1) None ex_booted
    = Some (true, false,
            <[1 := set_waitingFor (Some DIR_SHARED)
                     (set_sequenceNumberWithNeighbor
                        (<[0 := 5]> (sequenceNumberWithNeighbor ex_booted_mote))
                        ex_booted_mote)]> ex_booted).
Proof.
  assert (H1 : ex_booted !! 1 = Some ex_booted_mote) by (vm_compute; reflexivity).
  assert (H2 : data8 ex_late_req
               ≠ default 0 (sequenceNumberWithNeighbor ex_booted_mote !! data5 ex_late_req) + 1)
    by (vm_compute; discriminate).
  split; [exact H1|]. split; [exact H2|].
  apply (rxDone_out_of_sequence ex_shuffle ex_getNextTS ex_settings 22 1 ex_late_req
           (Some 0) (Some 1) None ex_booted ex_booted_mote).
  - vm_compute; discriminate.
  - exact H1.
  - vm_compute. eexists; reflexivity.
  - right. vm_compute; reflexivity.
  - exact H2.
Defined.

(** Lookups in a map after insertions at known keys. *)
Ltac map_lookups :=
  repeat (first [rewrite lookup_insert_eq | rewrite lookup_insert_ne by done]; simpl).

Lemma elem_of_py_list_set (l : list Z) (x : Z) : x ∈ py_list_set l ↔ x ∈ l.
Proof. unfold py_list_set. rewrite elem_of_elements, elem_of_list_to_set. done. Qed.

(** The slots that the responder [me] gives back when it reconciles with
    the initiator [nb] over the slots of [cells]. *)
Lemma elem_of_removeSelf me nb neighbor cells ts :
  ts ∈ removeSelf me nb neighbor cells ↔
  ts ∈ cells ∧ schedule nb !! ts = None
  ∧ (cell_neighbor <$> schedule me !! ts) = Some (Some neighbor).
Proof.
  unfold removeSelf. rewrite list_elem_of_filter. split.
  - intros [(_ & ? & ?) ?]. done.
  - intros (? & ? & Hn). split; [|done]. split; [|done].
    destruct (schedule me !! ts); [eauto|done].
Qed.

Lemma elem_of_removeNeighb me nb self cells ts :
  ts ∈ removeNeighb me nb self cells ↔
  ts ∈ cells ∧ schedule me !! ts = None
  ∧ (cell_neighbor <$> schedule nb !! ts) = Some (Some self).
Proof.
  unfold removeNeighb. rewrite list_elem_of_filter. split.
  - intros [(_ & ? & ?) ?]. done.
  - intros (? & ? & Hn). split; [|done]. split; [|done].
    destruct (schedule nb !! ts); [eauto|done].
Qed.

(** [rx_confirmation] for a list of confirmed slots [l]. *)
Lemma rx_confirmation_list self src l (w : network) me nb alloc :
  self ≠ src →
  w !! self = Some me →
  w !! src = Some nb →
  cellsAllocToNeighbor me !! src = Some alloc →
  counter_ready (Some DIR_RX) src me →
  counter_ready (Some DIR_TX) self nb →
  ∃ w' me' nb',
    rx_confirmation self src (CellsList l) w = Some w'
    ∧ w' !! self = Some me' ∧ w' !! src = Some nb'
    ∧ (∀ i, i ≠ self → i ≠ src → w' !! i = w !! i)
    ∧ pendingTransaction me' = None ∧ pendingTransaction nb' = None
    ∧ (length l ≠ length alloc ∨ l = alloc →
         schedule me' = schedule me ∧ schedule nb' = schedule nb)
    ∧ (length l = length alloc → l ≠ alloc →
         (∀ ts, schedule me' !! ts =
                if bool_decide (ts ∈ l ++ alloc ∧ schedule nb !! ts = None
                                ∧ (cell_neighbor <$> schedule me !! ts) = Some (Some src))
                then None else schedule me !! ts)
         ∧ (∀ ts, schedule nb' !! ts =
                  if bool_decide (ts ∈ l ++ alloc ∧ schedule me !! ts = None
                                  ∧ (cell_neighbor <$> schedule nb !! ts) = Some (Some self))
                  then None else schedule nb !! ts)).
Proof.
  intros Hne Hme Hnb Halloc Hc1 Hc2. unfold rx_confirmation.
  assert (Hne' : src ≠ self) by done.
  rewrite Hme. simpl. rewrite Halloc. simpl.
  destruct (decide (length l = length alloc)) as [Hlen|Hlen];
    [destruct (decide (l = alloc)) as [Heq|Heq]|].
  - rewrite (bool_decide_eq_true_2 _ Hlen).
    rewrite (bool_decide_eq_false_2 (l ≠ alloc)) by (intros ?; done).
    simpl. rewrite Hme. simpl. rewrite lookup_insert_ne by done. rewrite Hnb. simpl.
    eexists _, _, _. split; [reflexivity|].
    rewrite lookup_insert_ne by done. rewrite lookup_insert_eq.
    rewrite lookup_insert_eq.
    split; [reflexivity|]. split; [reflexivity|]. split.
    { intros i ? ?. by rewrite !lookup_insert_ne. }
    split; [reflexivity|]. split; [reflexivity|].
    split; [intros _; split; reflexivity|].
    intros _ Hd. destruct (Hd Heq).
  - rewrite (bool_decide_eq_true_2 _ Hlen). rewrite (bool_decide_eq_true_2 _ Heq).
    simpl. rewrite Hnb. simpl.
    set (cells := py_list_set (l ++ alloc)).
    destruct (_tsch_removeCells_is_Some src (Some DIR_RX) (removeSelf me nb src cells) me Hc1)
      as [me1 E1].
    rewrite E1. simpl. rewrite lookup_insert_ne by done. rewrite Hnb. simpl.
    destruct (_tsch_removeCells_is_Some self (Some DIR_TX) (removeNeighb me nb self cells)
                nb Hc2) as [nb1 E2].
    rewrite E2. simpl. map_lookups.
    eexists _, _, _. split; [reflexivity|].
    rewrite lookup_insert_ne by done. rewrite lookup_insert_eq. rewrite lookup_insert_eq.
    split; [reflexivity|]. split; [reflexivity|]. split.
    { intros i ? ?. by rewrite !lookup_insert_ne. }
    split; [reflexivity|]. split; [reflexivity|]. split.
    { intros [?|?]; done. }
    intros _ _. simpl. split; intros ts.
    + rewrite (_tsch_removeCells_schedule _ _ _ _ _ E1 ts).
      apply (f_equal (λ b : bool, if b then None else schedule me !! ts)).
      apply bool_decide_ext. rewrite elem_of_removeSelf. unfold cells.
      rewrite elem_of_py_list_set. tauto.
    + rewrite (_tsch_removeCells_schedule _ _ _ _ _ E2 ts).
      apply (f_equal (λ b : bool, if b then None else schedule nb !! ts)).
      apply bool_decide_ext. rewrite elem_of_removeNeighb. unfold cells.
      rewrite elem_of_py_list_set. tauto.
  - rewrite (bool_decide_eq_false_2 _ Hlen).
    simpl. rewrite Hme. simpl. rewrite lookup_insert_ne by done. rewrite Hnb. simpl.
    eexists _, _, _. split; [reflexivity|].
    rewrite lookup_insert_ne by done. rewrite lookup_insert_eq.
    rewrite lookup_insert_eq.
    split; [reflexivity|]. split; [reflexivity|]. split.
    { intros i ? ?. by rewrite !lookup_insert_ne. }
    split; [reflexivity|]. split; [reflexivity|].
    split; [intros _; split; reflexivity|].
    intros Hl. destruct (Hlen Hl).
Qed.
(** C1, as the code has it. A responder [self] that receives an
    in-sequence "confirmation" addressed to it clears its own
    [pendingTransaction] and that of the initiator [src]. Cells are
    reconciled only when the list [l] of confirmed slots is as long as the
    responder's list [alloc] of allocated slots and differs from it: then a
    slot of either list goes from the responder's schedule when the
    responder holds it with the initiator as neighbor and the initiator's
    schedule has no cell there, and the other way round for the initiator.
    In every other case, so whenever the initiator confirms fewer slots than
    the responder installed, both schedules stay as they are. *)
Theorem rxDone_confirmation shuffle getNextTS settings asn self src d l smac payload
    (w : network) (me nb : mote) (alloc : list Z) (v : Z) :
  slotframeLength settings ≠ 0 →
  self ≠ src →
  w !! self = Some me →
  w !! src = Some nb →
  is_Some (schedule me !! (asn `mod` slotframeLength settings)) →
  waitingFor me = Some DIR_RX ∨ waitingFor me = Some DIR_SHARED →
  data4 d = Some "confirmation"%string →
  data5 d = src →
  data0 d = CellsList l →
  data8 d = default 0 (sequenceNumberWithNeighbor me !! src) + 1 →
  asn ∉ ignorePacket me →
  motestats me !! "controlPacketsReceived"%string = Some v →
  cellsAllocToNeighbor me !! src = Some alloc →
  counter_ready (Some DIR_RX) src me →
  counter_ready (Some DIR_TX) self nb →
  ∃ w' me' nb',
    rxDone shuffle getNextTS settings asn self (Some "CONTROL"%string) (Some d) smac
      (Some self) payload w = Some (true, false, w')
    ∧ w' !! self = Some me' ∧ w' !! src = Some nb'
    ∧ pendingTransaction me' = None ∧ pendingTransaction nb' = None
    ∧ (length l ≠ length alloc ∨ l = alloc →
         schedule me' = schedule me ∧ schedule nb' = schedule nb)
    ∧ (length l = length alloc → l ≠ alloc →
         (∀ ts, schedule me' !! ts =
                if bool_decide (ts ∈ l ++ alloc ∧ schedule nb !! ts = None
                                ∧ (cell_neighbor <$> schedule me !! ts) = Some (Some src))
                then None else schedule me !! ts)
         ∧ (∀ ts, schedule nb' !! ts =
                  if bool_decide (ts ∈ l ++ alloc ∧ schedule me !! ts = None
                                  ∧ (cell_neighbor <$> schedule nb !! ts) = Some (Some self))
                  then None else schedule nb !! ts)).
Proof.
  intros Hsf Hne Hme Hnb Hts Hwait Hd4 Hd5 Hd0 Hd8 Hign Hv Halloc Hc1 Hc2.
  assert (Hne' : src ≠ self) by done.
  unfold rxDone.
  rewrite bool_decide_eq_false_2 by done. rewrite Hme. simpl.
  rewrite (bool_decide_eq_true_2 _ Hts). simpl.
  assert (bool_decide (waitingFor me = Some DIR_RX)
          || bool_decide (waitingFor me = Some DIR_SHARED) = true) as ->.
  { destruct Hwait as [-> | ->]; done. }
  simpl. unfold rx_control. simpl. rewrite Hme. simpl.
  rewrite Hd5, Hd8, Hd4, Hd0.
  rewrite (bool_decide_eq_false_2 (_ ≠ _)) by (intros Hx; by apply Hx).
  rewrite (bool_decide_eq_false_2 (asn ∈ _)) by done.
  rewrite (bool_decide_eq_true_2 (Some self = Some self)) by done. simpl.
  unfold _incrementMoteStats at 1. simpl. rewrite Hv. simpl.
  set (me0 := set_motestats _ _).
  destruct (rx_confirmation_list self src l (<[self := me0]> w) me0 nb alloc)
    as (w' & me' & nb' & E & Hs' & Hn' & _ & Hp1 & Hp2 & Hsame & Hrec);
    [done | by rewrite lookup_insert_eq | by rewrite lookup_insert_ne | done | done | done |].
  rewrite E. simpl. rewrite Hs'. simpl.
  eexists _, _, nb'. split; [reflexivity|].
  rewrite lookup_insert_eq. split; [reflexivity|].
  rewrite lookup_insert_ne by done. split; [exact Hn'|].
  split; [exact Hp1|]. split; [exact Hp2|]. split.
  - intros H. destruct (Hsame H) as [? ?]. done.
  - intros H1 H2. destruct (Hrec H1 H2) as [? ?]. done.
Qed.

(** The claim C1 fails when the initiator confirms fewer slots than the
    responder installed. In the line of three motes the root installs the
    slots 7 and 9 for mote 1, and mote 1, whose slot 7 is meanwhile taken by
    its exchange with mote 2, confirms slot 9 only. After [rxDone] the root
    still holds slot 7 as an RX cell from mote 1, and slot 7 of mote 1 is a
    cell from mote 2. *)
Lemma confirmation_keeps_unconfirmed_cell :
  (w ← line_before_confirmation; m ← w !! 0; cellsAllocToNeighbor m !! 1) = Some [7; 9]
  ∧ data0 line_confirmation_1_0 = CellsList [9]
  ∧ (cell_dir <$> cell_at line_after_confirmation 0 7) = Some DIR_RX
  ∧ (cell_neighbor <$> cell_at line_after_confirmation 0 7) = Some (Some 1)
  ∧ (cell_neighbor <$> cell_at line_after_confirmation 1 7) = Some (Some 2)
  ∧ (w ← line_after_confirmation; m ← w !! 0; Some (pendingTransaction m)) = Some None.
Proof. vm_compute. repeat split; reflexivity. Qed.

Lemma rxDone_confirmation_witness :
  line_w !! 0 = Some line_root
  ∧ line_w !! 1 = Some line_mote1
  ∧ cellsAllocToNeighbor line_root !! 1 = Some [7; 9]
  ∧ ∃ w' me' nb',
      rxDone ex_shuffle ex_getNextTS ex_settings 44 0 (Some "CONTROL"%string)
        (Some line_confirmation_1_0) (Some 1) (Some 0) None line_w = Some (true, false, w')
      ∧ w' !! 0 = Some me' ∧ w' !! 1 = Some nb'
      ∧ pendingTransaction me' = None ∧ pendingTransaction nb' = None
      ∧ schedule me' = schedule line_root ∧ schedule nb' = schedule line_mote1.
Proof.
  assert (H1 : line_w !! 0 = Some line_root) by (vm_compute; reflexivity).
  assert (H2 : line_w !! 1 = Some line_mote1) by (vm_compute; reflexivity).
  assert (H3 : cellsAllocToNeighbor line_root !! 1 = Some [7; 9])
    by (vm_compute; reflexivity).
  split; [exact H1|]. split; [exact H2|]. split; [exact H3|].
  destruct (rxDone_confirmation ex_shuffle ex_getNextTS ex_settings 44 0 1
              line_confirmation_1_0 [9] (Some 1) None line_w line_root line_mote1 [7; 9] 1)
    as (w' & me' & nb' & E & Hme & Hnb & Hp1 & Hp2 & Hsame & _).
  - vm_compute; discriminate.
  - discriminate.
  - exact H1.
  - exact H2.
  - vm_compute. eexists; reflexivity.
  - right. vm_compute; reflexivity.
  - reflexivity.
  - reflexivity.
  - reflexivity.
  - vm_compute; reflexivity.
  - vm_compute. intros H. inversion H.
  - vm_compute; reflexivity.
  - exact H3.
  - vm_compute. eexists; reflexivity.
  - vm_compute. eexists; reflexivity.
  - exists w', me', nb'. split; [exact E|]. split; [exact Hme|]. split; [exact Hnb|].
    split; [exact Hp1|]. split; [exact Hp2|].
    apply Hsame. left. simpl. discriminate.
Defined.

(** ** The end of a transmission slot *)

Lemma queue_index_head (pk : gmap Z packet) p rest v :
  pk !! p = Some v → queue_index pk (p :: rest) p = Some 0%nat.
Proof.
  intros H. unfold queue_index. rewrite H. simpl.
  rewrite decide_True by done. done.
Qed.

(** The retry bookkeeping of a DATA packet that is the head of the data
    queue, as [_tsch_action_activeCell] leaves [pktToSend]. *)
Lemma retry_or_drop_head m p v rest s :
  packets m !! p = Some v →
  txQueue m = p :: rest →
  motestats m !! "droppedMacRetries"%string = Some s →
  let v' := if bool_decide (0 < retriesLeft v)
            then set_retriesLeft (retriesLeft v - 1) v else v in
  let m1 := set_packets (<[p := v']> (packets m)) m in
  retry_or_drop txQueue set_txQueue p m
  = Some (if bool_decide (retriesLeft v' = 0)
             && bool_decide (Z.of_nat (length (txQueue m)) = TSCH_QUEUE_SIZE)
          then set_txQueue rest
                 (set_motestats (<["droppedMacRetries"%string := s + 1]> (motestats m)) m1)
          else m1).
Proof.
  intros Hp Hq Hs v' m1.
  assert (Hm1 : decrement_retries (txQueue m) p m = Some (m1, p)).
  { unfold decrement_retries. rewrite Hq, (queue_index_head _ _ _ _ Hp). simpl.
    rewrite Hp. simpl. unfold m1, v'. case_bool_decide; [done|].
    rewrite insert_id by done. by destruct m. }
  unfold retry_or_drop. rewrite Hm1. simpl. rewrite lookup_insert_eq. simpl.
  destruct (bool_decide (retriesLeft v' = 0)); simpl; [|done].
  rewrite Hq. simpl.
  destruct (bool_decide (Z.of_nat (S (length rest)) = TSCH_QUEUE_SIZE)); simpl; [|done].
  unfold _incrementMoteStats. simpl. rewrite Hs. simpl.
  unfold queue_remove. simpl. rewrite Hq.
  rewrite (queue_index_head _ _ _ v') by apply lookup_insert_eq. simpl. done.
Qed.

Lemma foldM_is_Some {A B : Type} (f : B → A → option B) (l : list A) (b : B) :
  (∀ b x, x ∈ l → is_Some (f b x)) → is_Some (foldM f l b).
Proof.
  revert b. induction l as [|x l IH]; intros b H; simpl; [done|].
  destruct (H b x) as [b' ->]; [left|]. simpl.
  apply IH. intros b0 x0 Hin. apply H. by right.
Qed.

(** The closing loop of [txDone] returns when the cell of the slot has a
    neighbor that is a mote of the network. *)
Lemma canbeInterfered_is_Some self ts (w : network) me c rx :
  w !! self = Some me →
  schedule me !! ts = Some c →
  cell_neighbor c = Some rx →
  is_Some (w !! rx) →
  is_Some (canbeInterfered self ts w).
Proof.
  intros Hme Hc Hrx [rxm Hrxm]. unfold canbeInterfered.
  rewrite Hme. simpl. rewrite Hc. simpl.
  apply foldM_is_Some. intros acc [i mote] _.
  case_bool_decide; [done|].
  destruct (schedule mote !! ts) as [c'|]; [|done].
  destruct (bool_decide (cell_ch c = cell_ch c') && bool_decide (cell_dir c' = DIR_TX));
    [|done].
  rewrite Hrx. simpl. rewrite Hrxm. simpl.
  by destruct (Qgtb (getRSSI mote rx) (minRssi rxm)).
Qed.

(** C3, as the code has it. When [txDone] runs without an ACK for the DATA
    packet at the head of the data queue, [retriesLeft] of the packet goes
    down by one if it is positive; the packet leaves the queue and
    [droppedMacRetries] goes up by one only when [retriesLeft] is then 0
    and the data queue holds exactly [TSCH_QUEUE_SIZE] = 50 packets. With
    any other occupancy the queue and the statistic stay as they are. *)
Theorem txDone_data_retry settings asn rnd self isNACKed (w : network) (m : mote)
    (c : cell) (rx p : Z) (v : packet) (rest : list Z) (s : Z) :
  slotframeLength settings ≠ 0 →
  w !! self = Some m →
  schedule m !! (asn `mod` slotframeLength settings) = Some c →
  cell_dir c = DIR_TX ∨ cell_dir c = DIR_SHARED →
  cell_neighbor c = Some rx →
  is_Some (w !! rx) →
  waitingFor m = Some DIR_TX ∨ waitingFor m = Some DIR_SHARED →
  pktToSend m = Some p →
  packets m !! p = Some v →
  pk_type v = "DATA"%string →
  txQueue m = p :: rest →
  motestats m !! "droppedMacRetries"%string = Some s →
  ∃ w' m' v',
    txDone settings asn rnd self false isNACKed w = Some w'
    ∧ w' !! self = Some m'
    ∧ packets m' !! p = Some v'
    ∧ retriesLeft v' = decremented (retriesLeft v)
    ∧ (decremented (retriesLeft v) = 0
       ∧ Z.of_nat (length (txQueue m)) = TSCH_QUEUE_SIZE →
         txQueue m' = rest
         ∧ motestats m' !! "droppedMacRetries"%string = Some (s + 1))
    ∧ (¬ (decremented (retriesLeft v) = 0
          ∧ Z.of_nat (length (txQueue m)) = TSCH_QUEUE_SIZE) →
         txQueue m' = txQueue m
         ∧ motestats m' !! "droppedMacRetries"%string = Some s).
Proof.
  intros Hsf Hw Hc Hdir Hrx Hrxm Hwait Hp Hv Hty Hq Hs.
  set (ts := asn `mod` slotframeLength settings) in *.
  (* the mote after the update of the cell and the time correction *)
  assert (∃ m1 c1, (if isNACKed
                    then update_cell ts (λ c, set_history (history c ++ [1])
                                                (set_numTxAck (numTxAck c + 1) c)) m
                         ≫= time_correction asn ts
                    else update_cell ts (λ c, set_history (history c ++ [0]) c) m)
                   = Some m1
                 ∧ schedule m1 = <[ts := c1]> (schedule m) ∧ cell_neighbor c1 = Some rx
                 ∧ pktToSend m1 = Some p ∧ packets m1 = packets m ∧ txQueue m1 = txQueue m
                 ∧ motestats m1 = motestats m) as (m1 & c1 & E1 & Hs1 & Hn1 & Hp1 & Hk1 & Hq1 & Hst1).
  { destruct isNACKed.
    - unfold update_cell. rewrite Hc. simpl. unfold time_correction. simpl.
      rewrite lookup_insert_eq. simpl.
      case_bool_decide; eexists _, _; (split; [reflexivity|]); simpl; done.
    - unfold update_cell. rewrite Hc. simpl.
      eexists _, _. split; [reflexivity|]. simpl. done. }
  assert (E2 := retry_or_drop_head m1 p v rest s).
  rewrite Hk1, Hq1, Hst1 in E2. specialize (E2 Hv Hq Hs). cbv zeta in E2.
  set (v' := if bool_decide (0 < retriesLeft v)
             then set_retriesLeft (retriesLeft v - 1) v else v) in *.
  match type of E2 with _ = Some ?x => set (m2 := x) in * end.
  assert (Hm2s : schedule m2 = schedule m1).
  { unfold m2. by destruct (_ && _). }
  assert (Hv' : retriesLeft v' = decremented (retriesLeft v)).
  { unfold v', decremented. by case_bool_decide. }
  set (m3 := set_waitingFor (if bool_decide (queuing settings = 0) then None
                             else Some DIR_SHARED) m2).
  assert (Hm3s : schedule m3 = <[ts := c1]> (schedule m)).
  { unfold m3. simpl. by rewrite Hm2s, Hs1. }
  destruct (canbeInterfered_is_Some self ts (<[self := m3]> (<[self := m2]> w)) m3 c1 rx)
    as [flag Eflag].
  { apply lookup_insert_eq. }
  { rewrite Hm3s. apply lookup_insert_eq. }
  { done. }
  { destruct (decide (rx = self)) as [->|?].
    - rewrite lookup_insert_eq. eauto.
    - rewrite !lookup_insert_ne by done. done. }
  assert (Etx : txDone settings asn rnd self false isNACKed w
                = Some (<[self := set_schedule
                             (<[ts := set_debug_canbeInterfered
                                        (debug_canbeInterfered c1 ++ [flag]) c1]>
                                (<[ts := c1]> (schedule m))) m3]>
                          (<[self := m3]> (<[self := m2]> w)))).
  { unfold txDone. rewrite bool_decide_eq_false_2 by done. fold ts.
    rewrite Hw. simpl. rewrite Hc. simpl.
    assert (bool_decide (cell_dir c = DIR_TX) || bool_decide (cell_dir c = DIR_SHARED)
            = true) as -> by (destruct Hdir as [-> | ->]; done).
    assert (bool_decide (waitingFor m = Some DIR_TX)
            || bool_decide (waitingFor m = Some DIR_SHARED) = true) as ->
      by (destruct Hwait as [-> | ->]; done).
    simpl.
    assert (Hfail : ∀ nacked, tx_failed settings rnd self ts nacked m1 w
                              = Some (<[self := m2]> w)).
    { intros nacked. unfold tx_failed. rewrite Hp1. simpl. rewrite Hk1, Hv. simpl.
      rewrite (bool_decide_eq_true_2 _ Hty). rewrite E2. done. }
    destruct isNACKed.
    - destruct (update_cell ts _ m) as [m0|] eqn:E0; [|done]. simpl in E1 |- *.
      rewrite E1. simpl. rewrite Hfail. simpl. rewrite lookup_insert_eq. simpl.
      fold m3. rewrite Eflag. simpl. unfold update_cell.
      rewrite Hm3s, lookup_insert_eq. simpl. done.
    - rewrite E1. simpl. rewrite Hfail. simpl. rewrite lookup_insert_eq. simpl.
      fold m3. rewrite Eflag. simpl. unfold update_cell.
      rewrite Hm3s, lookup_insert_eq. simpl. done. }
  eexists _, _, v'. split; [exact Etx|]. split; [apply lookup_insert_eq|].
  simpl. split.
  { unfold m2. destruct (_ && _); simpl; apply lookup_insert_eq. }
  split; [exact Hv'|].
  rewrite <- Hv'. split.
  - intros [H0 Hlen]. unfold m2.
    rewrite (bool_decide_eq_true_2 _ H0), (bool_decide_eq_true_2 _ Hlen). simpl.
    split; [done|]. apply lookup_insert_eq.
  - intros Hnot. unfold m2.
    destruct (decide (retriesLeft v' = 0)) as [H0|H0];
      [destruct (decide (Z.of_nat (length (txQueue m)) = TSCH_QUEUE_SIZE)) as [Hl|Hl]|].
    + destruct Hnot. done.
    + rewrite (bool_decide_eq_false_2 _ Hl), andb_false_r. simpl. rewrite Hst1. done.
    + rewrite (bool_decide_eq_false_2 _ H0). simpl. rewrite Hst1. done.
Qed.

(** The claim C3 fails when the data queue is not full. Mote 1 holds one
    DATA packet; its transmissions in slot 9 fail. Before the fifth failure
    the packet has one retry left; after it the packet has none, is still in
    the queue, and [droppedMacRetries] is still 0. *)
Lemma data_packet_kept_without_retries :
  tx_view (line_with_packet ≫= failed_slots 4 53) = Some ([0], [1], Some 0, 4%nat)
  ∧ tx_view (line_with_packet ≫= failed_slots 5 53) = Some ([0], [0], Some 0, 5%nat).
Proof. vm_compute. split; reflexivity. Qed.

Lemma txDone_data_retry_witness :
  line_last_retry !! 1 = Some line_sender
  ∧ pktToSend line_sender = Some 0
  ∧ txQueue line_sender = [0]
  ∧ retriesLeft line_sender_packet = 1
  ∧ ∃ w' m' v',
      txDone ex_settings 97 1 1 false false line_last_retry = Some w'
      ∧ w' !! 1 = Some m'
      ∧ packets m' !! 0 = Some v'
      ∧ retriesLeft v' = 0
      ∧ txQueue m' = [0]
      ∧ motestats m' !! "droppedMacRetries"%string = Some 0.
Proof.
  assert (H1 : line_last_retry !! 1 = Some line_sender) by (vm_compute; reflexivity).
  assert (H2 : pktToSend line_sender = Some 0) by (vm_compute; reflexivity).
  assert (H3 : txQueue line_sender = [0]) by (vm_compute; reflexivity).
  assert (H4 : retriesLeft line_sender_packet = 1) by (vm_compute; reflexivity).
  split; [exact H1|]. split; [exact H2|]. split; [exact H3|]. split; [exact H4|].
  destruct (txDone_data_retry ex_settings 97 1 1 false line_last_retry line_sender
              line_sender_cell 0 0 line_sender_packet [] 0)
    as (w' & m' & v' & E & Hm' & Hv' & Hr & _ & Hkeep).
  - vm_compute; discriminate.
  - exact H1.
  - vm_compute; reflexivity.
  - left. vm_compute; reflexivity.
  - vm_compute; reflexivity.
  - vm_compute. eexists; reflexivity.
  - left. vm_compute; reflexivity.
  - exact H2.
  - vm_compute; reflexivity.
  - vm_compute; reflexivity.
  - exact H3.
  - vm_compute; reflexivity.
  - exists w', m', v'. split; [exact E|]. split; [exact Hm'|]. split; [exact Hv'|].
    split.
    + rewrite Hr, H4. reflexivity.
    + rewrite H3 in Hkeep. apply Hkeep. intros [_ Hlen]. vm_compute in Hlen.
      discriminate Hlen.
Defined.

(** ** The choice of a channel *)

(** The loop of [_choose_channel] collects, in order, the channels that
    are free in both tables. *)
Lemma free_channels_filter settings self neighbor ts :
  (∀ j, 0 ≤ j < numChans settings →
        is_Some (reserved self ts j) ∧ is_Some (reserved neighbor ts j)) →
  free_channels settings self neighbor ts
  = Some (filter (λ j, reserved self ts j = Some false ∧ reserved neighbor ts j = Some false)
                 (py_range 0 (numChans settings))).
Proof.
  intros Hwf. unfold free_channels.
  assert (Hin : ∀ j, j ∈ py_range 0 (numChans settings) → 0 ≤ j < numChans settings).
  { intros j. unfold py_range. rewrite elem_of_seqZ. lia. }
  revert Hin. generalize (py_range 0 (numChans settings)). intros l Hin.
  enough (∀ acc, foldM (λ (k : list Z) (j : Z),
                          a ← reserved self ts j;
                          if (a : bool) then Some k
                          else b ← reserved neighbor ts j;
                               if (b : bool) then Some k else Some (k ++ [j])) l acc
                 = Some (acc ++ filter (λ j, reserved self ts j = Some false
                                             ∧ reserved neighbor ts j = Some false) l))
    as H by apply (H []).
  induction l as [|j l IH]; intros acc; simpl.
  - by rewrite app_nil_r.
  - destruct (Hwf j) as [[a Ha] [b Hb]]; [apply Hin; left|].
    rewrite Ha. simpl. rewrite filter_cons.
    destruct a; simpl.
    + rewrite decide_False by (intros [? _]; congruence).
      apply IH. intros j' ?. apply Hin. by right.
    + rewrite Hb. simpl. destruct b; simpl.
      * rewrite decide_False by (intros [_ ?]; congruence).
        apply IH. intros j' ?. apply Hin. by right.
      * rewrite decide_True by done.
        rewrite IH by (intros j' ?; apply Hin; by right).
        by rewrite <- app_assoc.
Qed.

(** C10. [_choose_channel(neighbor, ts)] returns a channel that is not
    reserved at [ts] in the reserve table of the caller and in that of the
    neighbor, whenever some channel of [0, numChans) is free in both; when
    every channel is reserved in one of the two tables, the list [k] of the
    candidates is empty and [k[0]] raises. The tables have a row for [ts]
    with [numChans] entries, as [__init__] builds them, and [random.shuffle]
    permutes its argument. *)
Theorem _choose_channel_free shuffle settings self neighbor ts :
  (∀ l : list Z, shuffle l ≡ₚ l) →
  (∀ j, 0 ≤ j < numChans settings →
        is_Some (reserved self ts j) ∧ is_Some (reserved neighbor ts j)) →
  ((∃ j, 0 ≤ j < numChans settings
         ∧ reserved self ts j = Some false ∧ reserved neighbor ts j = Some false) →
     ∃ j, _choose_channel shuffle settings self neighbor ts = Some j
          ∧ 0 ≤ j < numChans settings
          ∧ reserved self ts j = Some false ∧ reserved neighbor ts j = Some false)
  ∧ ((∀ j, 0 ≤ j < numChans settings →
           reserved self ts j = Some true ∨ reserved neighbor ts j = Some true) →
     free_channels settings self neighbor ts = Some []
     ∧ _choose_channel shuffle settings self neighbor ts = None).
Proof.
  intros Hperm Hwf.
  assert (Hin : ∀ j, j ∈ py_range 0 (numChans settings) ↔ 0 ≤ j < numChans settings).
  { intros j. unfold py_range. rewrite elem_of_seqZ. lia. }
  unfold _choose_channel. rewrite (free_channels_filter _ _ _ _ Hwf). simpl.
  set (k := filter _ _).
  split.
  - intros (j & Hj & H1 & H2).
    assert (Hjk : j ∈ k).
    { unfold k. apply list_elem_of_filter. split; [done|]. by apply Hin. }
    destruct (shuffle k) as [|j0 l0] eqn:Es.
    + exfalso. rewrite <- (Hperm k), Es in Hjk. by apply elem_of_nil in Hjk.
    + exists j0. split; [done|].
      assert (Hj0 : j0 ∈ k). { rewrite <- (Hperm k), Es. left. }
      unfold k in Hj0. apply list_elem_of_filter in Hj0 as [[? ?] Hr].
      apply Hin in Hr. done.
  - intros Hall.
    assert (Hk : k = []).
    { destruct k as [|x k'] eqn:Ek; [done|]. exfalso.
      assert (Hx : x ∈ k) by (rewrite Ek; left).
      unfold k in Hx. apply list_elem_of_filter in Hx as [[H1 H2] Hr].
      apply Hin in Hr. destruct (Hall x Hr) as [H|H]; congruence. }
    rewrite Hk. split; [done|].
    destruct (shuffle []) as [|j0 l0] eqn:Es; [done|].
    exfalso. assert (Hj0 : j0 ∈ ([] : list Z)). { rewrite <- (Hperm []), Es. left. }
    by apply elem_of_nil in Hj0.
Qed.

Lemma _choose_channel_free_witness :
  (∃ j, 0 ≤ j < numChans ex_settings
        ∧ reserved (ex_mote 1 0) 3 j = Some false ∧ reserved (ex_mote 0 1) 3 j = Some false)
  ∧ ∃ j, _choose_channel ex_shuffle ex_settings (ex_mote 1 0) (ex_mote 0 1) 3 = Some j
         ∧ 0 ≤ j < numChans ex_settings
         ∧ reserved (ex_mote 1 0) 3 j = Some false ∧ reserved (ex_mote 0 1) 3 j = Some false.
Proof.
  assert (H : ∃ j, 0 ≤ j < numChans ex_settings
                   ∧ reserved (ex_mote 1 0) 3 j = Some false
                   ∧ reserved (ex_mote 0 1) 3 j = Some false).
  { exists 0. split; [change (numChans ex_settings) with 2; lia|].
    split; vm_compute; reflexivity. }
  split; [exact H|].
  apply (_choose_channel_free ex_shuffle ex_settings (ex_mote 1 0) (ex_mote 0 1) 3).
  - intros l. reflexivity.
  - intros j Hj.
    assert (j = 0 ∨ j = 1) as [-> | ->] by (change (numChans ex_settings) with 2 in Hj; lia);
      split; vm_compute; eexists; reflexivity.
  - exact H.
Defined.

(** ** The SHARED cells *)

Lemma keeps_shared_refl w : keeps_shared w w.
Proof. intros i m ts c ? ? ?. eauto. Qed.

Lemma keeps_shared_trans w1 w2 w3 :
  keeps_shared w1 w2 → keeps_shared w2 w3 → keeps_shared w1 w3.
Proof.
  intros H12 H23 i m ts c Hm Hc Hn.
  destruct (H12 i m ts c Hm Hc Hn) as (m2 & Hm2 & Hc2).
  exact (H23 i m2 ts c Hm2 Hc2 Hn).
Qed.

Lemma foldM_keeps_shared {A : Type} (f : network → A → option network) (l : list A) w w' :
  (∀ w x w', f w x = Some w' → keeps_shared w w') →
  foldM f l w = Some w' → keeps_shared w w'.
Proof.
  intros Hf. revert w. induction l as [|x l IH]; intros w H; simpl in H.
  - injection H as <-. apply keeps_shared_refl.
  - destruct (f w x) as [w1|] eqn:E; [|done]. simpl in H.
    eapply keeps_shared_trans; [exact (Hf _ _ _ E) | exact (IH _ H)].
Qed.

(** [_tsch_removeCells] keeps the cells without a neighbor. *)
Lemma _tsch_removeCells_keeps neighbor tsList dir m m' ts c :
  _tsch_removeCells neighbor tsList dir m = Some m' →
  schedule m !! ts = Some c → cell_neighbor c = None →
  schedule m' !! ts = Some c.
Proof.
  intros E Hc Hn. rewrite (_tsch_removeCells_schedule _ _ _ _ _ E ts).
  rewrite bool_decide_eq_false_2; [done|].
  rewrite Hc. simpl. rewrite Hn. intros [_ ?]. done.
Qed.

Lemma keeps_shared_insert (w : network) i m m' :
  w !! i = Some m →
  (∀ ts c, schedule m !! ts = Some c → cell_neighbor c = None → schedule m' !! ts = Some c) →
  keeps_shared w (<[i := m']> w).
Proof.
  intros Hi Hm j mj ts c Hj Hc Hn.
  destruct (decide (j = i)) as [->|Hne].
  - rewrite lookup_insert_eq. exists m'. split; [done|]. rewrite Hi in Hj. simplify_eq. eauto.
  - rewrite lookup_insert_ne by done. eauto.
Qed.

Lemma write_reserve_keeps_shared v cells neighbor w w' :
  write_reserve v cells neighbor w = Some w' → keeps_shared w w'.
Proof.
  unfold write_reserve. intros H.
  destruct (w !! neighbor) as [n|] eqn:En; [|done]. simpl in H.
  destruct (foldM _ cells (reserve n)) as [tbl|]; [|done]. simpl in H.
  injection H as <-. apply (keeps_shared_insert _ _ n); [done|]. done.
Qed.

Lemma top_cell_deletion_receiver_keeps_shared self neighbor tsList w w' :
  top_cell_deletion_receiver self neighbor tsList w = Some w' → keeps_shared w w'.
Proof.
  unfold top_cell_deletion_receiver. intros H.
  destruct (w !! self) as [me|] eqn:Eme; [|done]. simpl in H.
  destruct (mapM _ tsList) as [cellList|]; [|done]. simpl in H.
  destruct (_tsch_removeCells neighbor tsList (Some DIR_RX) me) as [me'|] eqn:Er; [|done].
  simpl in H.
  eapply keeps_shared_trans.
  - apply (keeps_shared_insert _ _ me me' Eme).
    intros ts c. apply (_tsch_removeCells_keeps _ _ _ _ _ _ _ Er).
  - refine (foldM_keeps_shared _ _ _ _ _ H).
    intros w1 x w2 Hf. simpl in Hf. case_bool_decide.
    + unfold _delete_cell_neighbor in Hf. exact (write_reserve_keeps_shared _ _ _ _ _ Hf).
    + injection Hf as <-. apply keeps_shared_refl.
Qed.

Lemma top_cell_deletion_sender_keeps_shared self neighbor tsList w w' :
  top_cell_deletion_sender self neighbor tsList w = Some w' → keeps_shared w w'.
Proof.
  unfold top_cell_deletion_sender. intros H.
  destruct (w !! self) as [me|] eqn:Eme; [|done]. simpl in H.
  destruct (_tsch_removeCells neighbor tsList (Some DIR_TX) me) as [me'|] eqn:Er; [|done].
  simpl in H.
  destruct (top_cell_deletion_receiver neighbor self tsList _) as [w1|] eqn:E1; [|done].
  simpl in H.
  destruct (w1 !! self) as [me''|]; [|done]. simpl in H.
  destruct (numCellsToNeighbors me'' !! neighbor) as [n|]; [|done]. simpl in H.
  case_bool_decide; [|done]. injection H as <-.
  eapply keeps_shared_trans.
  - apply (keeps_shared_insert _ _ me me' Eme).
    intros ts c. apply (_tsch_removeCells_keeps _ _ _ _ _ _ _ Er).
  - exact (top_cell_deletion_receiver_keeps_shared _ _ _ _ _ E1).
Qed.

(** The schedule that [boot] builds. *)
Lemma foldl_insert_lookup_in {V : Type} (g : Z → Z) (c : V) (l : list Z) (s0 : gmap Z V) i :
  i ∈ l → foldl (λ s i, <[g i := c]> s) s0 l !! g i = Some c.
Proof.
  revert s0. induction l as [|j l IH]; intros s0 Hin; [by apply elem_of_nil in Hin|].
  simpl. destruct (decide (i ∈ l)) as [Hl|Hl]; [by apply IH|].
  apply elem_of_cons in Hin as [->|?]; [|done].
  clear IH Hl. revert s0. induction l as [|k l IH]; intros s0; simpl.
  - apply lookup_insert_eq.
  - destruct (decide (g k = g j)) as [E|E].
    + rewrite E, insert_insert_eq. apply IH.
    + rewrite insert_insert_ne by done. apply IH.
Qed.

Lemma foldl_insert_lookup_inv {V : Type} (g : Z → Z) (c : V) (l : list Z) (s0 : gmap Z V)
    ts c' :
  foldl (λ s i, <[g i := c]> s) s0 l !! ts = Some c' →
  (∃ i, i ∈ l ∧ ts = g i) ∨ s0 !! ts = Some c'.
Proof.
  revert s0. induction l as [|j l IH]; intros s0 H; simpl in H; [by right|].
  destruct (IH _ H) as [(i & Hi & ->)|Hs].
  - left. exists i. split; [by right|done].
  - destruct (decide (g j = ts)) as [<-|Hne].
    + left. exists j. split; [left|done].
    + rewrite lookup_insert_ne in Hs by done. by right.
Qed.

Lemma foldl_insert_size {V : Type} (g : Z → Z) (c : V) (l : list Z) (s0 : gmap Z V) :
  NoDup (g <$> l) → (∀ i, i ∈ l → s0 !! g i = None) →
  size (foldl (λ s i, <[g i := c]> s) s0 l) = (size s0 + length l)%nat.
Proof.
  revert s0. induction l as [|j l IH]; intros s0 Hnd Hfresh; simpl; [lia|].
  rewrite fmap_cons in Hnd.
  assert (Hj := NoDup_cons_1_1 _ _ Hnd). apply NoDup_cons_1_2 in Hnd.
  rewrite IH.
  - rewrite map_size_insert_None by (apply Hfresh; left). lia.
  - done.
  - intros i Hi. rewrite lookup_insert_ne.
    + apply Hfresh. by right.
    + intros E. apply Hj. rewrite E. apply list_elem_of_fmap. eauto.
Qed.

Lemma boot_schedule settings asn m :
  schedule (boot settings asn m)
  = foldl (λ s i, <[i * (slotframeLength settings / numSharedSlots settings)
                    := new_cell 0 DIR_SHARED None asn]> s)
          (schedule m) (py_range 0 (numSharedSlots settings)).
Proof.
  unfold boot. simpl. generalize (py_range 0 (numSharedSlots settings)). intros l.
  revert m. induction l as [|i l IH]; intros m; simpl; [done|].
  rewrite IH. done.
Qed.

(** C7. [boot] on a mote with an empty schedule installs the cells
    [new_cell 0 DIR_SHARED None]: SHARED, channel 0, no neighbor, one at
    each offset [i * (slotframeLength / numSharedSlots)] for
    [0 <= i < numSharedSlots], no cell elsewhere and [numSharedSlots] cells
    in all (the offsets are distinct when [numSharedSlots] is at most
    [slotframeLength]). The 6top deletions, [top_cell_deletion_sender] and
    [top_cell_deletion_receiver], and [_tsch_removeCells] that they and every
    other removal go through, leave every cell without a neighbor, so every
    SHARED cell, in the schedule of every mote. *)
Theorem shared_cells_installed_and_kept settings asn (m : mote) :
  schedule m = ∅ →
  numSharedSlots settings ≤ slotframeLength settings →
  (∀ i, 0 ≤ i < numSharedSlots settings →
        schedule (boot settings asn m)
          !! (i * (slotframeLength settings / numSharedSlots settings))
        = Some (new_cell 0 DIR_SHARED None asn))
  ∧ (∀ ts, is_Some (schedule (boot settings asn m) !! ts) →
           ∃ i, 0 ≤ i < numSharedSlots settings
                ∧ ts = i * (slotframeLength settings / numSharedSlots settings))
  ∧ size (schedule (boot settings asn m)) = Z.to_nat (numSharedSlots settings)
  ∧ (∀ neighbor tsList dir m1 m2 ts c,
       _tsch_removeCells neighbor tsList dir m1 = Some m2 →
       schedule m1 !! ts = Some c → cell_neighbor c = None →
       schedule m2 !! ts = Some c)
  ∧ (∀ self neighbor tsList w w',
       top_cell_deletion_sender self neighbor tsList w = Some w' → keeps_shared w w')
  ∧ (∀ self neighbor tsList w w',
       top_cell_deletion_receiver self neighbor tsList w = Some w' → keeps_shared w w').
Proof.
  intros Hempty Hle.
  set (k := numSharedSlots settings) in *.
  set (step := slotframeLength settings / k).
  assert (Hin : ∀ i, i ∈ py_range 0 k ↔ 0 ≤ i < k).
  { intros i. unfold py_range. rewrite elem_of_seqZ. lia. }
  rewrite boot_schedule. fold k. fold step.
  split; [|split; [|split; [|split; [|split]]]].
  - intros i Hi.
    apply (foldl_insert_lookup_in (λ i, i * step) _ (py_range 0 k) (schedule m) i).
    by apply Hin.
  - intros ts [c Hc].
    destruct (foldl_insert_lookup_inv (λ i, i * step) _ _ _ _ _ Hc) as [(i & Hi & ->)|Hs].
    + exists i. split; [by apply Hin|done].
    + rewrite Hempty, lookup_empty in Hs. done.
  - rewrite (foldl_insert_size (λ i, i * step)).
    + rewrite Hempty, map_size_empty. unfold py_range. rewrite length_seqZ. lia.
    + destruct (decide (0 < k)) as [Hk|Hk].
      * assert (Hstep : 0 < step).
        { unfold step. apply Z.div_str_pos. lia. }
        apply NoDup_fmap_2; [|apply NoDup_seqZ].
        intros i j E. nia.
      * unfold py_range. replace (seqZ 0 (k - 0)) with (@nil Z); [constructor|].
        symmetry. apply seqZ_nil. lia.
    + intros i _. rewrite Hempty. apply lookup_empty.
  - intros neighbor tsList dir m1 m2 ts c. apply _tsch_removeCells_keeps.
  - intros self neighbor tsList w w'. apply top_cell_deletion_sender_keeps_shared.
  - intros self neighbor tsList w w'. apply top_cell_deletion_receiver_keeps_shared.
Qed.

Lemma shared_cells_installed_and_kept_witness :
  schedule (ex_mote 1 0) = ∅
  ∧ numSharedSlots ex_settings ≤ slotframeLength ex_settings
  ∧ schedule (boot ex_settings 0 (ex_mote 1 0)) !! 0 = Some (new_cell 0 DIR_SHARED None 0)
  ∧ size (schedule (boot ex_settings 0 (ex_mote 1 0))) = 1%nat.
Proof.
  assert (H1 : schedule (ex_mote 1 0) = ∅) by reflexivity.
  assert (H2 : numSharedSlots ex_settings ≤ slotframeLength ex_settings)
    by (vm_compute; discriminate).
  split; [exact H1|]. split; [exact H2|].
  destruct (shared_cells_installed_and_kept ex_settings 0 (ex_mote 1 0) H1 H2)
    as (Hat & _ & Hsize & _).
  split; [|exact Hsize].
  apply (Hat 0). vm_compute. split; [discriminate|reflexivity].
Defined.

(** ** OTF: how many cells to add or to remove *)






(** ** Propagation: the sender that a receiver locks on *)

Lemma Qgtb_lt x y : Qgtb x y = true ↔ (y < x)%Q.
Proof.
  unfold Qgtb. rewrite negb_true_iff, <- not_true_iff_false, Qle_bool_iff.
  split; [apply Qnot_le_lt | apply Qlt_not_le].
Qed.

Lemma arrival_times_lookup calcTime transmissions s :
  s ∈ (tx_smac <$> transmissions) →
  arrival_times calcTime transmissions !! s = Some (calcTime s).
Proof.
  unfold arrival_times. generalize (∅ : gmap Z Q).
  induction transmissions as [|t l IH] using rev_ind; intros a Hs.
  - inversion Hs.
  - rewrite foldl_app. simpl.
    destruct (decide (s = tx_smac t)) as [->|Hne].
    + apply lookup_insert_eq.
    + rewrite lookup_insert_ne by done. apply IH.
      rewrite fmap_app in Hs. apply elem_of_app in Hs as [Hs|Hs]; [exact Hs|].
      simpl in Hs. apply list_elem_of_singleton in Hs. done.
Qed.





(** ** The SINR *)

Lemma _dBmTomW_pos dBm : (0 < SINR._dBmTomW dBm)%R.
Proof. unfold SINR._dBmTomW, Rpower. apply exp_pos. Qed.

Lemma sum_interference_nonneg destination interferers :
  (0 <= SINR.sum_interference destination interferers)%R.
Proof.
  induction interferers as [|x l IH]; simpl.
  - apply Rle_refl.
  - apply Rplus_le_le_0_compat; [apply Rmax_l | exact IH].
Qed.

Lemma clamp_Rmax x : (if Rlt_dec x 0 then 0 else x)%R = Rmax 0 x.
Proof.
  destruct (Rlt_dec x 0) as [H|H].
  - symmetry. apply Rmax_left. lra.
  - symmetry. apply Rmax_right. lra.
Qed.

Lemma totalInterference_sum destination interferers (total : R) :
  fold_left (λ total interferer,
               (total
                + (if Rlt_dec (SINR._dBmTomW (SINR.getRSSI interferer destination)
                               - SINR._dBmTomW (SINR.noisepower destination)) 0
                   then 0
                   else SINR._dBmTomW (SINR.getRSSI interferer destination)
                        - SINR._dBmTomW (SINR.noisepower destination)))%R)
            interferers total
  = (total + SINR.sum_interference destination interferers)%R.
Proof.
  revert total. induction interferers as [|x l IH]; intros total; simpl.
  - lra.
  - rewrite IH. rewrite clamp_Rmax. lra.
Qed.

(** C8. With [noise] the destination's noise power in mW, [S] the power of
    the source at the destination in mW less [noise], and [I] the sum over
    the interferers of the larger of 0 and their power at the destination in
    mW less [noise], [_computeSINR] returns -10 when [S] is negative and
    otherwise what [_mWTodBm] returns for [S / (I + noise)]; that is the
    value [10 * log10 (S / (I + noise))] whenever [S] is positive (for [S]
    equal to 0 the logarithm raises). The arithmetic is that of the real
    numbers. *)
Theorem _computeSINR_value (source destination : SINR.radio)
    (interferers : list SINR.radio) :
  let noise := SINR._dBmTomW (SINR.noisepower destination) in
  let S := (SINR._dBmTomW (SINR.getRSSI source destination) - noise)%R in
  let I := SINR.sum_interference destination interferers in
  SINR._computeSINR source destination interferers
  = (if Rlt_dec S 0 then Some (-10)%R else SINR._mWTodBm (S / (I + noise)))
  ∧ ((S < 0)%R → SINR._computeSINR source destination interferers = Some (-10)%R)
  ∧ ((0 < S)%R →
     SINR._computeSINR source destination interferers
     = Some (10 * (ln (S / (I + noise)) / ln 10))%R)
  ∧ (S = 0%R → SINR._computeSINR source destination interferers = None).
Proof.
  intros noise S I.
  assert (Hn : (0 < noise)%R) by apply _dBmTomW_pos.
  assert (HI : (0 <= I)%R) by apply sum_interference_nonneg.
  assert (E : SINR._computeSINR source destination interferers
              = (if Rlt_dec S 0 then Some (-10)%R else SINR._mWTodBm (S / (I + noise)))).
  { unfold SINR._computeSINR. cbv zeta.
    rewrite (totalInterference_sum destination interferers 0), Rplus_0_l.
    reflexivity. }
  split; [exact E|]. rewrite E. split; [|split].
  - intros H. destruct (Rlt_dec S 0); [reflexivity|contradiction].
  - intros H. destruct (Rlt_dec S 0) as [H'|H']; [lra|].
    unfold SINR._mWTodBm.
    destruct (Rlt_dec 0 (S / (I + noise))) as [Hp|Hp]; [reflexivity|].
    exfalso. apply Hp. apply Rdiv_lt_0_compat; lra.
  - intros H. destruct (Rlt_dec S 0) as [H'|H']; [lra|].
    unfold SINR._mWTodBm. rewrite H.
    destruct (Rlt_dec 0 (0 / (I + noise))) as [Hp|Hp]; [|reflexivity].
    exfalso. unfold Rdiv in Hp. rewrite Rmult_0_l in Hp. lra.
Qed.

(** ** The history of a cell *)

Lemma _incrementMoteStats_schedule name m m' :
  _incrementMoteStats name m = Some m' → schedule m' = schedule m.
Proof.
  unfold _incrementMoteStats. intros H.
  destruct (motestats m !! name); by simplify_eq/=.
Qed.

Lemma decrement_retries_schedule q p m m' r :
  decrement_retries q p m = Some (m', r) → schedule m' = schedule m.
Proof.
  unfold decrement_retries. intros H.
  destruct (queue_index (packets m) q p) as [i|]; [|done]. simpl in H.
  destruct (q !! i) as [r0|]; [|done]. simpl in H.
  destruct (packets m !! r0) as [v|]; [|done]. simpl in H.
  case_bool_decide; by simplify_eq/=.
Qed.

Lemma retry_or_drop_schedule get set p m m' :
  (∀ q m0, schedule (set q m0) = schedule m0) →
  retry_or_drop get set p m = Some m' → schedule m' = schedule m.
Proof.
  intros Hset. unfold retry_or_drop. intros H.
  destruct (decrement_retries (get m) p m) as [[m1 r]|] eqn:E1; [|done]. simpl in H.
  apply decrement_retries_schedule in E1.
  destruct (packets m1 !! r) as [v|]; [|done]. simpl in H.
  case_bool_decide; [|by simplify_eq].
  case_bool_decide; [|by simplify_eq].
  destruct (_incrementMoteStats "droppedMacRetries" m1) as [m2|] eqn:E2; [|done].
  simpl in H. apply _incrementMoteStats_schedule in E2.
  destruct (queue_remove (packets m2) (get m2) p) as [q|]; [|done]. simpl in H.
  simplify_eq. rewrite Hset. congruence.
Qed.

Lemma _tsch_removeCells_subseteq neighbor tsList dir m m' :
  _tsch_removeCells neighbor tsList dir m = Some m' → schedule m' ⊆ schedule m.
Proof.
  intros H. apply map_subseteq_spec. intros ts c Hc.
  rewrite (_tsch_removeCells_schedule _ _ _ _ _ H ts) in Hc.
  by case_bool_decide.
Qed.

(** An abort removes cells, it adds and changes none. *)
Lemma _top_abort_transaction_subseteq m m' :
  _top_abort_transaction m = Some m' → schedule m' ⊆ schedule m.
Proof.
  unfold _top_abort_transaction. intros H.
  match type of H with
  | mbind _ ?e = _ => destruct e as [m1|] eqn:E1; [|done]
  end.
  simpl in H. apply _incrementMoteStats_schedule in H. simpl in H. rewrite H.
  destruct (pendingTransaction m) as [pt|]; [|by simplify_eq].
  match type of E1 with
  | mbind _ ?e = _ => destruct e as [m2|] eqn:E2; [|done]
  end.
  simpl in E1. simplify_eq. simpl.
  destruct (pt_cells pt) as [[|c cs]|]; [by simplify_eq| |by simplify_eq].
  exact (_tsch_removeCells_subseteq _ _ _ _ _ E2).
Qed.

Lemma drop_control_subseteq self p m (w w' : network) :
  drop_control self p m w = Some w' →
  ∃ m', w' !! self = Some m' ∧ schedule m' ⊆ schedule m.
Proof.
  unfold drop_control. intros H.
  destruct (packets m !! p) as [v|]; [|done]. simpl in H.
  destruct (pk_dmac v) as [dmac|]; [|done]. simpl in H.
  destruct (_incrementMoteStats "droppedMacRetries" m) as [m1|] eqn:E1; [|done].
  simpl in H. apply _incrementMoteStats_schedule in E1.
  destruct (queue_remove (packets m1) (controlQueue m1) p) as [q|]; [|done]. simpl in H.
  destruct (_top_abort_transaction (set_controlQueue q m1)) as [m2|] eqn:E2; [|done].
  simpl in H. apply _top_abort_transaction_subseteq in E2. simpl in E2.
  rewrite E1 in E2.
  destruct (pk_data v) as [d|]; [|done]. simpl in H.
  case_bool_decide.
  - destruct (decide (dmac = self)) as [->|Hne].
    + rewrite lookup_insert_eq in H. simpl in H.
      destruct (_top_abort_transaction m2) as [m3|] eqn:E3; [|done]. simpl in H.
      apply _top_abort_transaction_subseteq in E3. simplify_eq.
      exists m3. rewrite lookup_insert_eq. split; [done|]. by transitivity (schedule m2).
    + rewrite lookup_insert_ne in H by done.
      destruct (w !! dmac) as [peer|]; [|done]. simpl in H.
      destruct (_top_abort_transaction peer) as [peer'|]; [|done]. simpl in H.
      simplify_eq. exists m2.
      rewrite lookup_insert_ne by done. rewrite lookup_insert_eq. done.
  - simplify_eq. exists m2. rewrite lookup_insert_eq. done.
Qed.

Lemma control_failed_q1_subseteq shared nacked rnd self p m (w w' : network) :
  control_failed_q1 shared nacked rnd self p m w = Some w' →
  ∃ m', w' !! self = Some m' ∧ schedule m' ⊆ schedule m.
Proof.
  unfold control_failed_q1. cbv zeta.
  set (m0 := if shared then _ else _).
  assert (E0 : schedule m0 = schedule m).
  { unfold m0. destruct shared; [reflexivity|]. destruct nacked; reflexivity. }
  clearbody m0. intros H.
  destruct (controlQueue m0) as [|x q].
  { simplify_eq. exists m0. rewrite lookup_insert_eq. by rewrite E0. }
  destruct (decrement_retries (x :: q) p m0) as [[m1 r]|] eqn:E1; [|done]. simpl in H.
  apply decrement_retries_schedule in E1.
  destruct (packets m1 !! r) as [v|]; [|done]. simpl in H.
  match type of H with
  | (if ?b then _ else _) = _ => destruct b
  end.
  - destruct (packets m1 !! p) as [pv|]; [|done]. simpl in H.
    destruct (pk_dmac pv) as [dmac|]; [|done]. simpl in H.
    apply drop_control_subseteq in H as (m' & Hm' & Hsub).
    exists m'. split; [exact Hm'|].
    match type of Hsub with
    | _ ⊆ schedule ?x =>
        assert (E2 : schedule x = schedule m1) by (destruct shared; reflexivity)
    end.
    rewrite E2, E1, E0 in Hsub. exact Hsub.
  - simplify_eq. exists m1. rewrite lookup_insert_eq. split; [done|].
    by rewrite E1, E0.
Qed.

Lemma control_failed_q2_schedule nacked p m m' :
  control_failed_q2 nacked p m = Some m' → schedule m' = schedule m.
Proof.
  unfold control_failed_q2. intros H.
  destruct nacked.
  - destruct (queue_contains (packets m) (controlQueueHP m) p).
    + by apply retry_or_drop_schedule in H.
    + destruct (queue_contains (packets m) (controlQueueNP m) p).
      * by apply retry_or_drop_schedule in H.
      * by simplify_eq.
  - destruct (controlQueueHP m).
    + by apply retry_or_drop_schedule in H.
    + by apply retry_or_drop_schedule in H.
Qed.

Lemma tx_failed_subseteq settings rnd self ts nacked m (w w' : network) :
  tx_failed settings rnd self ts nacked m w = Some w' →
  ∃ m', w' !! self = Some m' ∧ schedule m' ⊆ schedule m.
Proof.
  unfold tx_failed. intros H.
  destruct (pktToSend m) as [p|]; [|done]. simpl in H.
  destruct (packets m !! p) as [v|]; [|done]. simpl in H.
  case_bool_decide.
  { destruct (retry_or_drop txQueue set_txQueue p m) as [m1|] eqn:E; [|done].
    simpl in H. apply retry_or_drop_schedule in E; [|done].
    simplify_eq. exists m1. rewrite lookup_insert_eq. by rewrite E. }
  case_bool_decide.
  - case_bool_decide; [by apply control_failed_q1_subseteq in H|].
    case_bool_decide.
    + destruct (control_failed_q2 nacked p m) as [m1|] eqn:E; [|done].
      simpl in H. apply control_failed_q2_schedule in E.
      simplify_eq. exists m1. rewrite lookup_insert_eq. by rewrite E.
    + simplify_eq. exists m. by rewrite lookup_insert_eq.
  - simplify_eq. exists m. by rewrite lookup_insert_eq.
Qed.

Lemma tx_acked_schedule settings p m m' :
  tx_acked settings p m = Some m' → schedule m' = schedule m.
Proof.
  unfold tx_acked. intros H.
  destruct (packets m !! p) as [v|]; [|done]. simpl in H.
  case_bool_decide.
  - destruct (pk_dmac v) as [dmac|]; [|done]. simpl in H.
    match type of H with
    | mbind _ ?e = _ => destruct e as [m1|] eqn:E1; [|done]
    end.
    simpl in H. simplify_eq. simpl.
    repeat (match type of E1 with
            | (if ?b then _ else _) = _ => destruct b
            | mbind _ ?e = _ => destruct e; [|done]
            end; simpl in E1); by simplify_eq.
  - case_bool_decide; [|by simplify_eq].
    destruct (queue_remove (packets m) (txQueue m) p); by simplify_eq/=.
Qed.

Lemma time_correction_schedule asn ts m m' :
  time_correction asn ts m = Some m' → schedule m' = schedule m.
Proof.
  unfold time_correction. intros H.
  destruct (schedule m !! ts); [|done]. simpl in H.
  case_bool_decide; by simplify_eq.
Qed.

Lemma update_cell_schedule ts f m m' :
  update_cell ts f m = Some m' →
  ∃ c, schedule m !! ts = Some c ∧ schedule m' = <[ts := f c]> (schedule m).
Proof.
  unfold update_cell. intros H.
  destruct (schedule m !! ts) as [c|]; [|done]. simpl in H.
  simplify_eq. eauto.
Qed.

Lemma length_recentHistory c : (length (recentHistory c) ≤ NUM_MAX_HISTORY)%nat.
Proof. unfold recentHistory, py_last. rewrite length_drop. lia. Qed.

(** C2. [txDone] appends one entry to the history of the cell of the slot,
    1 after an ACK or a NACK and 0 otherwise, and takes nothing away from
    it: the history is one entry longer after every [txDone], whatever its
    length was, and no other cell of the mote changes. What holds at most
    [NUM_MAX_HISTORY] = 32 entries is [recentHistory], the slice
    [history[-NUM_MAX_HISTORY:]] that the 6top housekeeping reads: the last
    32 entries of the history, or all of them when there are fewer. *)
Theorem txDone_history settings asn rnd self isACKed isNACKed (w w' : network)
    (m : mote) (c : cell) :
  txDone settings asn rnd self isACKed isNACKed w = Some w' →
  w !! self = Some m →
  schedule m !! (asn `mod` slotframeLength settings) = Some c →
  ∃ m' c',
    w' !! self = Some m'
    ∧ schedule m' !! (asn `mod` slotframeLength settings) = Some c'
    ∧ history c' = history c ++ [tx_outcome isACKed isNACKed]
    ∧ length (history c') = S (length (history c))
    ∧ (∀ ts c1, ts ≠ asn `mod` slotframeLength settings →
                schedule m' !! ts = Some c1 → schedule m !! ts = Some c1)
    ∧ recentHistory c' = drop (length (history c') - NUM_MAX_HISTORY) (history c')
    ∧ (length (recentHistory c') ≤ NUM_MAX_HISTORY)%nat.
Proof.
  intros H Hm Hc. unfold txDone in H.
  destruct (bool_decide (slotframeLength settings = 0)); [discriminate|].
  cbv zeta in H. set (ts := asn `mod` slotframeLength settings) in *.
  rewrite Hm in H. cbn [mbind option_bind] in H.
  rewrite Hc in H. cbn [mbind option_bind] in H.
  destruct (negb (bool_decide (cell_dir c = DIR_TX) || bool_decide (cell_dir c = DIR_SHARED)));
    [discriminate|].
  destruct (negb (bool_decide (waitingFor m = Some DIR_TX)
                  || bool_decide (waitingFor m = Some DIR_SHARED))); [discriminate|].
  match type of H with
  | mbind _ ?e = _ => destruct e as [w2|] eqn:E2; [|discriminate]
  end.
  cbn [mbind option_bind] in H.
  assert (Hmid : ∃ m2 c1, w2 !! self = Some m2
                   ∧ schedule m2 ⊆ <[ts := c1]> (schedule m)
                   ∧ history c1 = history c ++ [tx_outcome isACKed isNACKed]).
  { destruct isACKed; [|destruct isNACKed].
    - destruct (update_cell ts _ m) as [m1|] eqn:E1; [|discriminate].
      cbn [mbind option_bind] in E2.
      apply update_cell_schedule in E1 as (c0 & Hc0 & E1).
      rewrite Hc in Hc0. injection Hc0 as <-.
      destruct (pktToSend m1) as [p|]; [|discriminate]. cbn [mbind option_bind] in E2.
      destruct (packets m1 !! p) as [v|]; [|discriminate]. cbn [mbind option_bind] in E2.
      destruct (time_correction asn ts _) as [m3|] eqn:E3; [|discriminate].
      cbn [mbind option_bind] in E2. apply time_correction_schedule in E3. simpl in E3.
      destruct (tx_acked settings p m3) as [m4|] eqn:E4; [|discriminate].
      cbn [mbind option_bind] in E2. apply tx_acked_schedule in E4.
      injection E2 as <-. eexists m4, _. rewrite lookup_insert_eq.
      split; [reflexivity|]. split; [rewrite E4, E3, E1; reflexivity|]. reflexivity.
    - destruct (update_cell ts _ m) as [m1|] eqn:E1; [|discriminate].
      cbn [mbind option_bind] in E2.
      apply update_cell_schedule in E1 as (c0 & Hc0 & E1).
      rewrite Hc in Hc0. injection Hc0 as <-.
      destruct (time_correction asn ts m1) as [m3|] eqn:E3; [|discriminate].
      cbn [mbind option_bind] in E2. apply time_correction_schedule in E3.
      apply tx_failed_subseteq in E2 as (m4 & Hm4 & Hsub).
      eexists m4, _. split; [exact Hm4|].
      split; [rewrite E3, E1 in Hsub; exact Hsub|]. reflexivity.
    - destruct (update_cell ts _ m) as [m1|] eqn:E1; [|discriminate].
      cbn [mbind option_bind] in E2.
      apply update_cell_schedule in E1 as (c0 & Hc0 & E1).
      rewrite Hc in Hc0. injection Hc0 as <-.
      apply tx_failed_subseteq in E2 as (m4 & Hm4 & Hsub).
      eexists m4, _. split; [exact Hm4|].
      split; [rewrite E1 in Hsub; exact Hsub|]. reflexivity. }
  destruct Hmid as (m2 & c1 & Hm2 & Hsub & Hh).
  rewrite Hm2 in H. cbn [mbind option_bind] in H.
  destruct (canbeInterfered self ts _) as [flag|]; [|discriminate].
  cbn [mbind option_bind] in H.
  clear E2.
  destruct (update_cell ts _ _) as [m3|] eqn:E3; [|discriminate].
  cbn [mbind option_bind] in H. injection H as <-.
  apply update_cell_schedule in E3 as (c2 & Hc2 & E3). simpl in Hc2, E3.
  assert (c2 = c1) as ->.
  { apply (lookup_weaken _ _ _ _ Hc2) in Hsub. rewrite lookup_insert_eq in Hsub.
    congruence. }
  eexists m3, _. rewrite lookup_insert_eq. split; [reflexivity|].
  rewrite E3. rewrite lookup_insert_eq. split; [reflexivity|].
  simpl. split; [exact Hh|].
  split; [rewrite Hh, length_app; simpl; lia|].
  split.
  - intros ts' c' Hne Hc'. rewrite lookup_insert_ne in Hc' by done.
    apply (lookup_weaken _ _ _ _ Hc') in Hsub.
    rewrite lookup_insert_ne in Hsub by done. exact Hsub.
  - split; [reflexivity|]. apply length_recentHistory.
Qed.

(** The claim C2 fails: the history of a cell is not bounded. Mote 1 holds one
    DATA packet; its transmissions in slot 9 fail, one per slotframe. After
    33 of them the history of the cell holds 33 entries. *)
Lemma history_longer_than_NUM_MAX_HISTORY :
  (length ∘ history) <$> cell_at (line_with_packet ≫= failed_slots 33 53) 1 9
  = Some 33%nat
  ∧ (NUM_MAX_HISTORY < 33)%nat.
Proof. split; [vm_compute; reflexivity | unfold NUM_MAX_HISTORY; lia]. Qed.

Lemma txDone_history_witness :
  txDone ex_settings 97 1 1 false false line_last_retry = Some line_after_retry
  ∧ line_last_retry !! 1 = Some line_sender
  ∧ schedule line_sender !! (97 `mod` slotframeLength ex_settings) = Some line_sender_cell
  ∧ ∃ m' c',
      line_after_retry !! 1 = Some m'
      ∧ schedule m' !! (97 `mod` slotframeLength ex_settings) = Some c'
      ∧ history c' = history line_sender_cell ++ [0].
Proof.
  assert (H1 : txDone ex_settings 97 1 1 false false line_last_retry
               = Some line_after_retry) by (vm_compute; reflexivity).
  assert (H2 : line_last_retry !! 1 = Some line_sender) by (vm_compute; reflexivity).
  assert (H3 : schedule line_sender !! (97 `mod` slotframeLength ex_settings)
               = Some line_sender_cell) by (vm_compute; reflexivity).
  split; [exact H1|]. split; [exact H2|]. split; [exact H3|].
  destruct (txDone_history ex_settings 97 1 1 false false line_last_retry
              line_after_retry line_sender line_sender_cell H1 H2 H3)
    as (m' & c' & Hm' & Hc' & Hh & _).
  exists m', c'. split; [exact Hm'|]. split; [exact Hc'|]. exact Hh.
Defined.

(** ** The next active cell *)

(** The distance from the slot [c] to the next occurrence of the slot [ts]. *)
Lemma tsDiff_unique (sfl c ts d : Z) :
  0 ≤ c < sfl → 0 ≤ ts < sfl → 1 ≤ d ≤ sfl →
  (c + d) `mod` sfl = ts →
  (if bool_decide (ts = c) then sfl
   else if bool_decide (c < ts) then ts - c else (ts + sfl) - c) = d.
Proof.
  intros Hc Hts Hd Hmod.
  destruct (decide (c + d < sfl)) as [Hlt|Hge].
  - rewrite Z.mod_small in Hmod by lia.
    rewrite bool_decide_eq_false_2 by lia. rewrite bool_decide_eq_true_2 by lia. lia.
  - assert (E : (c + d) `mod` sfl = c + d - sfl).
    { symmetry. apply (Z.mod_unique (c + d) sfl 1 (c + d - sfl)); lia. }
    rewrite E in Hmod.
    destruct (decide (ts = c)) as [Heq|Hne].
    + rewrite bool_decide_eq_true_2 by done. lia.
    + rewrite bool_decide_eq_false_2 by done. rewrite bool_decide_eq_false_2 by lia. lia.
Qed.

Lemma tsDiff_reaches (sfl c ts : Z) :
  0 ≤ c < sfl → 0 ≤ ts < sfl →
  let d := if bool_decide (ts = c) then sfl
           else if bool_decide (c < ts) then ts - c else (ts + sfl) - c in
  1 ≤ d ≤ sfl ∧ (c + d) `mod` sfl = ts.
Proof.
  intros Hc Hts. cbv zeta.
  case_bool_decide as H1; [|case_bool_decide as H2].
  - subst. split; [lia|].
    apply (eq_sym (Z.mod_unique (c + sfl) sfl 1 c ltac:(lia) ltac:(lia))).
  - split; [lia|]. rewrite Z.mod_small by lia. lia.
  - split; [lia|].
    apply (eq_sym (Z.mod_unique (c + (ts + sfl - c)) sfl 1 ts ltac:(lia) ltac:(lia))).
Qed.

(** The loop keeps the least distance. *)
Lemma tsDiffMin_fold (sfl c : Z) (l : list Z) (acc : option Z) :
  0 ≤ c < sfl →
  Forall (λ ts, 0 ≤ ts < sfl) l →
  (∀ a, acc = Some a → 1 ≤ a) →
  acc ≠ None ∨ l ≠ [] →
  ∃ d, foldl (tsDiffMin_step sfl c) acc l = Some d
       ∧ 1 ≤ d
       ∧ (acc = Some d ∨ ∃ ts, ts ∈ l ∧ tsDiffMin_step sfl c None ts = Some d)
       ∧ (∀ a, acc = Some a → d ≤ a)
       ∧ (∀ ts d', ts ∈ l → tsDiffMin_step sfl c None ts = Some d' → d ≤ d').
Proof.
  intros Hc. revert acc. induction l as [|ts l IH]; intros acc Hl Hacc Hne.
  - destruct acc as [a|]; [|destruct Hne; done].
    exists a. simpl. split; [done|]. split; [by apply Hacc|]. split; [by left|].
    split; [by intros ? [= ->]|]. intros ? ? Hin. inversion Hin.
  - apply Forall_cons_1 in Hl as [Hts Hl]. simpl.
    destruct (tsDiff_reaches sfl c ts Hc Hts) as [Hd _]. cbv zeta in Hd.
    set (td := if bool_decide (ts = c) then sfl
               else if bool_decide (c < ts) then ts - c else ts + sfl - c) in *.
    assert (Estep : tsDiffMin_step sfl c None ts = Some td) by reflexivity.
    assert (Hstep : ∃ s, tsDiffMin_step sfl c acc ts = Some s
                         ∧ s ≤ td ∧ (s = td ∨ acc = Some s)
                         ∧ ∀ a, acc = Some a → s ≤ a).
    { unfold tsDiffMin_step. fold td. destruct acc as [a0|].
      - assert (1 ≤ a0) by (by apply Hacc).
        rewrite (bool_decide_eq_false_2 (a0 = 0)) by lia. simpl.
        case_bool_decide.
        + exists td. split; [done|]. split; [lia|]. split; [by left|].
          intros ? [= <-]. lia.
        + exists a0. split; [done|]. split; [lia|]. split; [by right|].
          intros ? [= <-]. lia.
      - exists td. split; [done|]. split; [lia|]. split; [by left|]. intros ? [=]. }
    destruct Hstep as (s & Es & Hs1 & Hs2 & Hs3).
    assert (Hs0 : 1 ≤ s).
    { destruct Hs2 as [->|Hs2]; [lia|by apply Hacc]. }
    rewrite Es.
    destruct (IH (Some s) Hl) as (d & E & Hd1 & Hor & Hle & Hmin).
    { by intros a [= <-]. }
    { by left. }
    specialize (Hle s eq_refl).
    exists d. split; [exact E|]. split; [exact Hd1|].
    split; [|split].
    + destruct Hor as [Hd0|(ts' & Hin & Ets')].
      * injection Hd0 as ->.
        destruct Hs2 as [->|Hs2]; [|by left].
        right. exists ts. split; [left|done].
      * right. exists ts'. split; [by right|done].
    + intros a Ha. specialize (Hs3 a Ha). lia.
    + intros ts' d' Hin Ed'. apply elem_of_cons in Hin as [Heq|Hin].
      * assert (d' = td) as ->; [|lia].
        subst ts'. change (Some td = Some d') in Ed'. congruence.
      * by apply (Hmin ts' d').
Qed.

Lemma elem_of_schedule_slots (s : gmap Z cell) ts :
  ts ∈ (fst <$> map_to_list s) ↔ is_Some (s !! ts).
Proof.
  rewrite list_elem_of_fmap. split.
  - intros ([k c] & -> & Hin). apply elem_of_map_to_list in Hin. by exists c.
  - intros [c Hc]. exists (ts, c). split; [done|]. by apply elem_of_map_to_list.
Qed.

(** X1. With a slotframe of at least one slot and a schedule that is not
    empty and whose slots are all within the slotframe,
    [_tsch_schedule_activeCell] at the ASN [asn] asks for the next
    [activeCell] event at [asn + d] with [1 <= d <= slotframeLength]: the
    slot of that ASN is in the schedule, and no ASN strictly between [asn]
    and [asn + d] falls on a slot of the schedule. (A cell in the current
    slot is met again a full slotframe later.) *)
Theorem _tsch_schedule_activeCell_next settings asn (m : mote) :
  0 < slotframeLength settings →
  schedule m ≠ ∅ →
  (∀ ts, is_Some (schedule m !! ts) → 0 ≤ ts < slotframeLength settings) →
  ∃ d, _tsch_schedule_activeCell settings asn m = Some (Event_at (asn + d))
       ∧ 1 ≤ d ≤ slotframeLength settings
       ∧ is_Some (schedule m !! ((asn + d) `mod` slotframeLength settings))
       ∧ ∀ d', 1 ≤ d' < d →
               schedule m !! ((asn + d') `mod` slotframeLength settings) = None.
Proof.
  intros Hsfl Hne Hrange. unfold _tsch_schedule_activeCell.
  rewrite bool_decide_eq_false_2 by lia.
  rewrite bool_decide_eq_false_2 by done. cbv zeta.
  set (sfl := slotframeLength settings) in *.
  set (c := asn `mod` sfl).
  assert (Hc : 0 ≤ c < sfl) by (apply Z.mod_pos_bound; lia).
  assert (Hshift : ∀ x, (asn + x) `mod` sfl = (c + x) `mod` sfl).
  { intros x. unfold c. by rewrite Zplus_mod_idemp_l. }
  destruct (tsDiffMin_fold sfl c (fst <$> map_to_list (schedule m)) None Hc)
    as (d & E & _ & Hor & _ & Hmin).
  { apply list.Forall_forall. intros ts Hin. apply Hrange.
    exact (proj1 (elem_of_schedule_slots _ _) Hin). }
  { intros ? [=]. }
  { right. intros Hnil. apply fmap_nil_inv in Hnil.
    apply map_to_list_empty_iff in Hnil. done. }
  destruct Hor as [[=]|(ts & Hin & Ets)].
  assert (Hts : 0 ≤ ts < sfl)
    by (apply Hrange; exact (proj1 (elem_of_schedule_slots _ _) Hin)).
  destruct (tsDiff_reaches sfl c ts Hc Hts) as [Hd Hmod]. cbv zeta in Hd, Hmod.
  injection Ets as Ets. rewrite Ets in Hd, Hmod.
  exists d. rewrite E. simpl. split; [done|]. split; [exact Hd|]. split.
  - rewrite Hshift, Hmod. exact (proj1 (elem_of_schedule_slots _ _) Hin).
  - intros d' Hd'.
    destruct (schedule m !! ((asn + d') `mod` sfl)) as [c'|] eqn:Ec; [|done].
    exfalso.
    assert (Hin' : (asn + d') `mod` sfl ∈ (fst <$> map_to_list (schedule m)))
      by (apply (proj2 (elem_of_schedule_slots _ _)); eauto).
    assert (Hts' : 0 ≤ (asn + d') `mod` sfl < sfl) by (apply Z.mod_pos_bound; lia).
    assert (Hu := tsDiff_unique sfl c ((asn + d') `mod` sfl) d' Hc Hts' ltac:(lia)
                    (eq_sym (Hshift d'))).
    specialize (Hmin _ d' Hin'). unfold tsDiffMin_step in Hmin. cbv zeta in Hmin.
    rewrite Hu in Hmin. specialize (Hmin eq_refl). lia.
Qed.

Lemma _tsch_schedule_activeCell_next_witness :
  0 < slotframeLength ex_settings
  ∧ schedule ex_booted_mote ≠ ∅
  ∧ ∃ d, _tsch_schedule_activeCell ex_settings 25 ex_booted_mote = Some (Event_at (25 + d))
         ∧ 1 ≤ d ≤ slotframeLength ex_settings.
Proof.
  assert (H1 : 0 < slotframeLength ex_settings) by (vm_compute; reflexivity).
  assert (H2 : schedule ex_booted_mote ≠ ∅).
  { intros E. apply (f_equal (λ s : gmap Z cell, bool_decide (is_Some (s !! 0)))) in E.
    vm_compute in E. discriminate E. }
  assert (H3 : ∀ ts, is_Some (schedule ex_booted_mote !! ts)
                     → 0 ≤ ts < slotframeLength ex_settings).
  { intros ts Hts. destruct (decide (ts = 0)) as [->|Hne]; [vm_compute; split; congruence|].
    exfalso. revert Hts.
    change (schedule ex_booted_mote) with
      (schedule (boot ex_settings 0 (ex_mote 1 0))).
    rewrite boot_schedule. change (numSharedSlots ex_settings) with 1.
    change (py_range 0 1) with [0]. simpl.
    rewrite lookup_insert_ne by (vm_compute; congruence).
    change (schedule (ex_mote 1 0)) with (∅ : gmap Z cell).
    rewrite lookup_empty. by intros [? ?]. }
  split; [exact H1|]. split; [exact H2|].
  destruct (_tsch_schedule_activeCell_next ex_settings 25 ex_booted_mote H1 H2 H3)
    as (d & E & Hd & _).
  exists d. split; [exact E | exact Hd].
Defined.

Lemma ln_10_pos : (0 < ln 10)%R.
Proof. rewrite <- ln_1. apply ln_increasing; lra. Qed.

(** ** Interference lowers the SINR *)

Lemma sum_interference_app destination l1 l2 :
  SINR.sum_interference destination (l1 ++ l2)
  = (SINR.sum_interference destination l1 + SINR.sum_interference destination l2)%R.
Proof.
  induction l1 as [|x l1 IH]; simpl; [lra|]. rewrite IH. lra.
Qed.

Lemma _computeSINR_sum source destination interferers :
  SINR._computeSINR source destination interferers
  = (if Rlt_dec (SINR._dBmTomW (SINR.getRSSI source destination)
                 - SINR._dBmTomW (SINR.noisepower destination)) 0
     then Some (-10)%R
     else SINR._mWTodBm
            ((SINR._dBmTomW (SINR.getRSSI source destination)
              - SINR._dBmTomW (SINR.noisepower destination))
             / (SINR.sum_interference destination interferers
                + SINR._dBmTomW (SINR.noisepower destination)))).
Proof.
  unfold SINR._computeSINR. cbv zeta.
  rewrite (totalInterference_sum destination interferers 0), Rplus_0_l.
  reflexivity.
Qed.

(** X3. More interferers never raise the SINR: when [_computeSINR]
    returns [a] with the interferers [l], it returns with the interferers
    [l ++ l'] as well, and a value that is at most [a]; with no interferer
    at all the SINR is what [_mWTodBm] gives for signal over noise. Over the
    real numbers. *)
Theorem _computeSINR_antitone (source destination : SINR.radio)
    (l l' : list SINR.radio) (a : R) :
  SINR._computeSINR source destination l = Some a →
  (∃ b, SINR._computeSINR source destination (l ++ l') = Some b ∧ (b <= a)%R)
  ∧ (∃ top, SINR._computeSINR source destination [] = Some top ∧ (a <= top)%R).
Proof.
  assert (H10 := ln_10_pos).
  assert (Hmono : ∀ l1 l2 a1,
            SINR._computeSINR source destination l1 = Some a1 →
            ∃ b, SINR._computeSINR source destination (l1 ++ l2) = Some b ∧ (b <= a1)%R).
  { intros l1 l2 a1. rewrite !_computeSINR_sum.
    set (noise := SINR._dBmTomW (SINR.noisepower destination)).
    set (S := (SINR._dBmTomW (SINR.getRSSI source destination) - noise)%R).
    assert (Hn : (0 < noise)%R) by apply _dBmTomW_pos.
    assert (HI := sum_interference_nonneg destination l1).
    assert (HI' := sum_interference_nonneg destination l2).
    rewrite sum_interference_app.
    set (I1 := SINR.sum_interference destination l1) in *.
    set (I2 := SINR.sum_interference destination l2) in *.
    destruct (Rlt_dec S 0) as [Hs|Hs].
    { intros [= <-]. exists (-10)%R. split; [done|lra]. }
    unfold SINR._mWTodBm.
    destruct (Rlt_dec 0 (S / (I1 + noise))) as [Hp|Hp]; [|discriminate].
    intros [= <-].
    assert (HS : (0 < S)%R).
    { destruct (Rle_lt_dec S 0) as [Hle|Hlt]; [|exact Hlt].
      assert (S = 0%R) as E0 by lra. rewrite E0 in Hp.
      unfold Rdiv in Hp. rewrite Rmult_0_l in Hp. lra. }
    assert (Hp' : (0 < S / (I1 + I2 + noise))%R) by (apply Rdiv_lt_0_compat; lra).
    destruct (Rlt_dec 0 (S / (I1 + I2 + noise))) as [_|Hq]; [|done].
    eexists. split; [reflexivity|].
    assert (Hle : (S / (I1 + I2 + noise) <= S / (I1 + noise))%R).
    { unfold Rdiv. apply Rmult_le_compat_l; [lra|].
      apply Rinv_le_contravar; lra. }
    assert (Hln : (ln (S / (I1 + I2 + noise)) <= ln (S / (I1 + noise)))%R).
    { destruct Hle as [Hlt|Heq]; [left; by apply ln_increasing | right; by rewrite Heq]. }
    apply Rmult_le_compat_l; [lra|].
    unfold Rdiv. apply Rmult_le_compat_r; [|exact Hln].
    left. by apply Rinv_0_lt_compat. }
  intros Ha. split; [by apply Hmono|].
  assert (∃ top, SINR._computeSINR source destination [] = Some top) as [top Etop].
  { revert Ha. rewrite !_computeSINR_sum.
    set (noise := SINR._dBmTomW (SINR.noisepower destination)).
    set (S := (SINR._dBmTomW (SINR.getRSSI source destination) - noise)%R).
    assert (Hn : (0 < noise)%R) by apply _dBmTomW_pos.
    assert (HI := sum_interference_nonneg destination l).
    destruct (Rlt_dec S 0) as [Hs|Hs]; [by eauto|].
    unfold SINR._mWTodBm.
    destruct (Rlt_dec 0 (S / (SINR.sum_interference destination l + noise))) as [Hp|Hp];
      [|discriminate].
    intros _.
    assert (HS : (0 < S)%R).
    { destruct (Rle_lt_dec S 0) as [Hle|Hlt]; [|exact Hlt].
      assert (S = 0%R) as E0 by lra. rewrite E0 in Hp.
      unfold Rdiv in Hp. rewrite Rmult_0_l in Hp. lra. }
    simpl SINR.sum_interference.
    destruct (Rlt_dec 0 (S / (0 + noise))) as [_|Hq]; [by eauto|].
    exfalso. apply Hq. apply Rdiv_lt_0_compat; lra. }
  exists top. split; [exact Etop|].
  destruct (Hmono [] l top Etop) as (b & Eb & Hb).
  simpl in Eb. rewrite Ha in Eb. injection Eb as <-. exact Hb.
Qed.

Lemma _computeSINR_antitone_witness :
  (SINR._dBmTomW (SINR.noisepower sinr_destination)
   < SINR._dBmTomW (SINR.getRSSI sinr_source sinr_destination))%R
  ∧ (0 < SINR.sum_interference sinr_destination [sinr_interferer2])%R
  ∧ (0 < SINR.sum_interference sinr_destination [sinr_interferer3])%R
  ∧ ∃ a b,
      SINR._computeSINR sinr_source sinr_destination [sinr_interferer2] = Some a
      ∧ SINR._computeSINR sinr_source sinr_destination
          ([sinr_interferer2] ++ [sinr_interferer3]) = Some b
      ∧ (b <= a)%R.
Proof.
  assert (Hpow : ∀ x y, (x < y)%R → (SINR._dBmTomW x < SINR._dBmTomW y)%R).
  { intros x y Hxy. unfold SINR._dBmTomW. apply Rpower_lt; lra. }
  assert (Hs : (SINR._dBmTomW (SINR.noisepower sinr_destination)
                < SINR._dBmTomW (SINR.getRSSI sinr_source sinr_destination))%R).
  { unfold SINR.getRSSI. simpl. rewrite lookup_singleton_eq. simpl. apply Hpow. lra. }
  assert (H2 : (0 < SINR.sum_interference sinr_destination [sinr_interferer2])%R).
  { unfold SINR.sum_interference, SINR.getRSSI. simpl. rewrite lookup_singleton_eq. simpl.
    assert (SINR._dBmTomW (-105) < SINR._dBmTomW (-80))%R by (apply Hpow; lra).
    rewrite Rmax_right by lra. lra. }
  assert (H3 : (0 < SINR.sum_interference sinr_destination [sinr_interferer3])%R).
  { unfold SINR.sum_interference, SINR.getRSSI. simpl. rewrite lookup_singleton_eq. simpl.
    assert (SINR._dBmTomW (-105) < SINR._dBmTomW (-75))%R by (apply Hpow; lra).
    rewrite Rmax_right by lra. lra. }
  split; [exact Hs|]. split; [exact H2|]. split; [exact H3|].
  assert (Ha : ∃ a, SINR._computeSINR sinr_source sinr_destination [sinr_interferer2]
                    = Some a).
  { rewrite _computeSINR_sum.
    assert (Hn : (0 < SINR._dBmTomW (SINR.noisepower sinr_destination))%R)
      by apply _dBmTomW_pos.
    destruct (Rlt_dec _ 0) as [Hneg|_]; [lra|].
    unfold SINR._mWTodBm.
    destruct (Rlt_dec 0 _) as [_|Hq]; [by eexists|].
    exfalso. apply Hq. apply Rdiv_lt_0_compat; lra. }
  destruct Ha as [a Ha].
  destruct (proj1 (_computeSINR_antitone sinr_source sinr_destination
                     [sinr_interferer2] [sinr_interferer3] a Ha)) as (b & Hb & Hle).
  exists a, b. split; [exact Ha|]. split; [exact Hb | exact Hle].
Defined.

(** ** Propagation: idle listeners *)

Lemma idle_interferers_smac transmissions r i :
  i ∈ idle_interferers transmissions r → i ∈ (tx_smac <$> transmissions).
Proof.
  unfold idle_interferers. intros H.
  apply list_elem_of_fmap in H as (t' & -> & H).
  apply list_elem_of_filter in H as [_ H].
  apply list_elem_of_fmap. eauto.
Qed.

(** What the loop of lines 268-276 maintains. *)
Lemma idle_lockOn_spec (arr : Z → Q) (arrivalTime : gmap Z Q) (rm : mote)
    (interferers : list Z) :
  (∀ i, i ∈ interferers → arrivalTime !! i = Some (arr i)) →
  ∃ lockOn,
    idle_lockOn arrivalTime rm interferers = Some lockOn
    ∧ (lockOn = None → ∀ i, i ∈ interferers → Qgtb (getRSSI rm i) (minRssi rm) = false)
    ∧ (∀ l, lockOn = Some l →
            l ∈ interferers ∧ Qgtb (getRSSI rm l) (minRssi rm) = true
            ∧ ∀ i, i ∈ interferers → Qgtb (getRSSI rm i) (minRssi rm) = true →
                   (arr l <= arr i)%Q).
Proof.
  unfold idle_lockOn.
  induction interferers as [|x l IH] using rev_ind; intros Hall.
  - exists None. simpl. split; [reflexivity|]. split.
    + intros _ i Hi. inversion Hi.
    + intros ? [=].
  - destruct IH as (lk & E & Hnone & Hsome).
    { intros i Hi. apply Hall. apply elem_of_app. by left. }
    assert (Hx : arrivalTime !! x = Some (arr x)).
    { apply Hall. apply elem_of_app. right. apply list_elem_of_singleton. reflexivity. }
    rewrite foldM_app, E. simpl.
    destruct lk as [lk|].
    + destruct (Hsome lk eq_refl) as (Hin & Hst & Hmin).
      assert (Hlk : arrivalTime !! lk = Some (arr lk)).
      { apply Hall. apply elem_of_app. by left. }
      destruct (Qgtb (getRSSI rm x) (minRssi rm)) eqn:Eb; simpl.
      * rewrite Hx, Hlk. simpl.
        destruct (Qgtb (arr lk) (arr x)) eqn:Ea.
        -- apply Qgtb_lt in Ea.
           exists (Some x). split; [reflexivity|]. split; [intros [=]|].
           intros ? [= <-]. split; [apply elem_of_app; right; by apply list_elem_of_singleton|].
           split; [exact Eb|].
           intros i Hi Hsi. apply elem_of_app in Hi as [Hi|Hi].
           ++ apply Qle_trans with (arr lk); [by apply Qlt_le_weak|by apply Hmin].
           ++ apply list_elem_of_singleton in Hi as ->. apply Qle_refl.
        -- exists (Some lk). split; [reflexivity|]. split; [intros [=]|].
           intros ? [= <-]. split; [apply elem_of_app; by left|]. split; [exact Hst|].
           intros i Hi Hsi. apply elem_of_app in Hi as [Hi|Hi]; [by apply Hmin|].
           apply list_elem_of_singleton in Hi as ->.
           destruct (Qlt_le_dec (arr x) (arr lk)) as [Hlt|Hge]; [|exact Hge].
           apply Qgtb_lt in Hlt. congruence.
      * exists (Some lk). split; [reflexivity|]. split; [intros [=]|].
        intros ? [= <-]. split; [apply elem_of_app; by left|]. split; [exact Hst|].
        intros i Hi Hsi. apply elem_of_app in Hi as [Hi|Hi]; [by apply Hmin|].
        apply list_elem_of_singleton in Hi as ->. congruence.
    + specialize (Hnone eq_refl).
      destruct (Qgtb (getRSSI rm x) (minRssi rm)) eqn:Eb; simpl.
      * exists (Some x). split; [reflexivity|]. split; [intros [=]|].
        intros ? [= <-]. split; [apply elem_of_app; right; by apply list_elem_of_singleton|].
        split; [exact Eb|].
        intros i Hi Hsi. apply elem_of_app in Hi as [Hi|Hi].
        -- rewrite (Hnone i Hi) in Hsi. discriminate.
        -- apply list_elem_of_singleton in Hi as ->. apply Qle_refl.
      * exists None. split; [reflexivity|]. split; [|intros ? [=]].
        intros _ i Hi. apply elem_of_app in Hi as [Hi|Hi]; [by apply Hnone|].
        apply list_elem_of_singleton in Hi as ->. exact Eb.
Qed.

(** X4. At the end of [propagate], a receiver [r] that got no frame locks
    on a sender among the frames on its channel that are for another mote:
    on none when none of them reaches [r] above its [minRssi], and otherwise
    on one that does and that no other such sender precedes in arrival time.
    With no such sender the slot ends for [r] as a plain idle listen:
    [rxDone()] and nothing else, so [rxDetectedCollision] is not set. *)
Theorem propagate_idle_lockOn shuffle getNextTS settings computePdr (calcTime : Z → Q)
    asn transmissions (r : receiver) failure (w : network) (rm : mote) :
  w !! rx_mote r = Some rm →
  let arrivalTime := arrival_times calcTime transmissions in
  let interferers := idle_interferers transmissions r in
  let audible := λ i, Qgtb (getRSSI rm i) (minRssi rm) = true in
  ∃ lockOn,
    idle_lockOn arrivalTime rm interferers = Some lockOn
    ∧ (lockOn = None ↔ ∀ i, i ∈ interferers → ¬ audible i)
    ∧ (∀ l, lockOn = Some l →
            l ∈ interferers ∧ audible l
            ∧ ∀ i, i ∈ interferers → audible i → (calcTime l <= calcTime i)%Q)
    ∧ (lockOn = None →
       idle_receiver shuffle getNextTS settings computePdr asn transmissions arrivalTime
         r failure w
       = if bool_decide (slotframeLength settings = 0) then None
         else '(_, _, w') ← rxDone shuffle getNextTS settings asn (rx_mote r)
                              None None None None None w;
              Some w').
Proof.
  intros Hrm arrivalTime interferers audible.
  destruct (idle_lockOn_spec calcTime arrivalTime rm interferers)
    as (lockOn & E & Hnone & Hsome).
  { intros i Hi. apply arrival_times_lookup. eapply idle_interferers_smac. exact Hi. }
  exists lockOn. split; [exact E|]. split; [|split].
  - split.
    + intros Hn i Hi Ha. unfold audible in Ha. rewrite (Hnone Hn i Hi) in Ha. discriminate.
    + intros Hno. destruct lockOn as [l|]; [|done].
      destruct (Hsome l eq_refl) as (Hin & Ha & _). destruct (Hno l Hin Ha).
  - exact Hsome.
  - intros ->. unfold idle_receiver.
    destruct (bool_decide (slotframeLength settings = 0)); [done|].
    cbv zeta. destruct (noInterference settings); simpl; [done|].
    rewrite Hrm. simpl. fold interferers. fold arrivalTime. rewrite E. done.
Qed.

Lemma propagate_idle_lockOn_witness :
  line_booted !! rx_mote (Build_receiver 1 0) = Some (line_mote 1 (Some 0) [0; 2])
  ∧ ∃ lockOn,
      idle_lockOn (arrival_times line_calcTime
                     [Build_transmission 0 None None 0 2 None;
                      Build_transmission 0 None None 2 0 None])
        (line_mote 1 (Some 0) [0; 2])
        (idle_interferers [Build_transmission 0 None None 0 2 None;
                           Build_transmission 0 None None 2 0 None]
           (Build_receiver 1 0))
      = Some lockOn
      ∧ (∀ l, lockOn = Some l → Qgtb (getRSSI (line_mote 1 (Some 0) [0; 2]) l)
                                  (minRssi (line_mote 1 (Some 0) [0; 2])) = true).
Proof.
  assert (H : line_booted !! rx_mote (Build_receiver 1 0)
              = Some (line_mote 1 (Some 0) [0; 2])) by reflexivity.
  split; [exact H|].
  destruct (propagate_idle_lockOn ex_shuffle ex_getNextTS ex_settings (λ _ _ _, 1%Q)
              line_calcTime 0
              [Build_transmission 0 None None 0 2 None;
               Build_transmission 0 None None 2 0 None]
              (Build_receiver 1 0) (1 # 2) line_booted (line_mote 1 (Some 0) [0; 2]) H)
    as (lockOn & E & _ & Hsome & _).
  exists lockOn. split; [exact E|].
  intros l Hl. exact (proj1 (proj2 (Hsome l Hl))).
Defined.

(** ** 6top: the answer to a request *)

(** The slot of an entry of a cell list. *)
Lemma drop_scheduled_props (sched : gmap Z cell) (n : nat) :
  ∀ l : list (Z * Z * direction), (length l ≤ n)%nat →
    drop_scheduled sched l `sublist_of` l
    ∧ (∀ ts ch d, (ts, ch, d) ∈ l → sched !! ts = None →
                  (ts, ch, d) ∈ drop_scheduled sched l)
    ∧ (length l ≤ 2 * length (drop_scheduled sched l) + 1)%nat.
Proof.
  induction n as [|n IH]; intros l Hlen.
  { destruct l; [|simpl in Hlen; lia]. simpl. split; [done|]. split; [|lia].
    intros ? ? ? Hin. inversion Hin. }
  destruct l as [|[[ts ch] d] rest].
  { simpl. split; [done|]. split; [|lia]. intros ? ? ? Hin. inversion Hin. }
  simpl in Hlen. simpl.
  destruct (decide (is_Some (sched !! ts))) as [Hs|Hs].
  - rewrite (bool_decide_eq_true_2 _ Hs).
    destruct rest as [|y rest'].
    + split; [apply sublist_nil_l|]. split; [|simpl; lia].
      intros ts' ch' d' Hin Hnone.
      apply list_elem_of_singleton in Hin. simplify_eq.
      rewrite Hnone in Hs. by destruct Hs.
    + simpl in Hlen.
      destruct (IH rest' ltac:(lia)) as (Hsub & Hkeep & Hhalf).
      split; [apply sublist_cons; by apply sublist_skip|].
      split; [|simpl; lia].
      intros ts' ch' d' Hin Hnone.
      apply elem_of_cons in Hin as [Heq|Hin].
      { simplify_eq. rewrite Hnone in Hs. by destruct Hs. }
      apply elem_of_cons in Hin as [->|Hin]; [left|].
      right. by apply Hkeep.
  - rewrite (bool_decide_eq_false_2 _ Hs).
    destruct (IH rest ltac:(lia)) as (Hsub & Hkeep & Hhalf).
    split; [by apply sublist_skip|]. split; [|simpl; lia].
    intros ts' ch' d' Hin Hnone.
    apply elem_of_cons in Hin as [->|Hin]; [left|].
    right. by apply Hkeep.
Qed.

(** X5. The loop of [top_new_handle_request_ok] that drops the offered
    cells whose slot is taken removes from the list it iterates over: what
    it leaves is a sublist of the offer that holds every cell whose slot is
    free, but the entry that follows a dropped one is not looked at, so a
    cell whose slot is taken stays whenever it follows a dropped one; at
    most every other entry is dropped. *)
Theorem drop_scheduled_skips (sched : gmap Z cell) (l : list (Z * Z * direction)) :
  drop_scheduled sched l `sublist_of` l
  ∧ (∀ ts ch d, (ts, ch, d) ∈ l → sched !! ts = None →
                (ts, ch, d) ∈ drop_scheduled sched l)
  ∧ (length l ≤ 2 * length (drop_scheduled sched l) + 1)%nat
  ∧ (∀ ts ch d y rest, l = (ts, ch, d) :: y :: rest → is_Some (sched !! ts) →
                       drop_scheduled sched l = y :: drop_scheduled sched rest).
Proof.
  destruct (drop_scheduled_props sched (length l) l ltac:(lia)) as (H1 & H2 & H3).
  split; [exact H1|]. split; [exact H2|]. split; [exact H3|].
  intros ts ch d y rest -> Hs. simpl. by rewrite (bool_decide_eq_true_2 _ Hs).
Qed.

(** [_tsch_addCells] on a list with one cell per slot. *)
Lemma _tsch_addCells_lookup asn neighbor (cellList : list (Z * Z * direction)) (m : mote) :
  NoDup ((λ x, x.1.1) <$> cellList) →
  (∀ ts ch d, (ts, ch, d) ∈ cellList →
     schedule (_tsch_addCells asn neighbor cellList m) !! ts
     = Some (new_cell ch d (Some neighbor) asn))
  ∧ (∀ ts, ts ∉ ((λ x, x.1.1) <$> cellList) →
     schedule (_tsch_addCells asn neighbor cellList m) !! ts = schedule m !! ts).
Proof.
  unfold _tsch_addCells. simpl. generalize (schedule m) as s.
  induction cellList as [|[[ts0 ch0] d0] l IH]; intros s Hnd.
  - simpl. split; [intros ? ? ? Hin; inversion Hin|done].
  - simpl in Hnd. assert (Hnotin := NoDup_cons_1_1 _ _ Hnd).
    apply NoDup_cons_1_2 in Hnd. simpl.
    destruct (IH (<[ts0 := new_cell ch0 d0 (Some neighbor) asn]> s) Hnd) as [Hin Hout].
    split.
    + intros ts ch d Hel. apply elem_of_cons in Hel as [Heq|Hel]; [|by apply Hin].
      simplify_eq. rewrite Hout by done. apply lookup_insert_eq.
    + intros ts Hts. apply not_elem_of_cons in Hts as [Hne Hts].
      rewrite Hout by done. by apply lookup_insert_ne.
Qed.

(** X6. When the initiator handles the "answer" [cells] of [neighbor]
    with [top_new_handle_request_ok]: every offered cell whose slot is free
    in its schedule is installed as a new cell to [neighbor] on the offered
    channel and in the direction [dir]; a slot that is not offered keeps what
    it had; an offered slot that was taken keeps its cell or gets the offered
    one in its place; [requestTriggered] of [neighbor] is [False], and the
    sequence number for [neighbor] goes up by one for the confirmation. *)
Theorem top_new_handle_request_ok_installs asn (cells : gmap Z Z) neighbor dir (m : mote) :
  let m' := top_new_handle_request_ok asn cells neighbor dir m in
  (∀ ts ch, cells !! ts = Some ch → schedule m !! ts = None →
            schedule m' !! ts = Some (new_cell ch dir (Some neighbor) asn))
  ∧ (∀ ts, cells !! ts = None → schedule m' !! ts = schedule m !! ts)
  ∧ (∀ ts ch, cells !! ts = Some ch →
              schedule m' !! ts = schedule m !! ts
              ∨ schedule m' !! ts = Some (new_cell ch dir (Some neighbor) asn))
  ∧ requestTriggered m' !! neighbor = Some false
  ∧ sequenceNumberWithNeighbor m' !! neighbor
    = Some (default 0 (sequenceNumberWithNeighbor m !! neighbor) + 1).
Proof.
  intros m'.
  set (offer := map (λ '(ts, ch), (ts, ch, dir)) (map_to_list cells)).
  set (m0 := set_requestTriggered (<[neighbor := false]> (requestTriggered m)) m).
  set (kept := drop_scheduled (schedule m0) offer).
  assert (Hoffer : ∀ ts ch d, (ts, ch, d) ∈ offer ↔ cells !! ts = Some ch ∧ d = dir).
  { intros ts ch d. unfold offer. rewrite list_elem_of_fmap. split.
    - intros ([ts' ch'] & Heq & Hin). simplify_eq.
      by apply elem_of_map_to_list in Hin.
    - intros [Hc ->]. exists (ts, ch). split; [done|]. by apply elem_of_map_to_list. }
  assert (Hkeys : (λ x : Z * Z * direction, x.1.1) <$> offer = (map_to_list cells).*1).
  { unfold offer. rewrite <- list_fmap_compose. apply list_fmap_ext.
    by intros ? [? ?]. }
  destruct (drop_scheduled_props (schedule m0) (length offer) offer ltac:(lia))
    as (Hsub & Hfree & _). fold kept in Hsub, Hfree.
  assert (Hnd : NoDup ((λ x : Z * Z * direction, x.1.1) <$> kept)).
  { eapply sublist_NoDup; [|apply fmap_sublist; exact Hsub].
    rewrite Hkeys. apply NoDup_fst_map_to_list. }
  destruct (_tsch_addCells_lookup asn neighbor kept m0 Hnd) as [Hin Hout].
  assert (Hsched : schedule m' = schedule (_tsch_addCells asn neighbor kept m0)).
  { unfold m', top_new_handle_request_ok. cbv zeta. fold m0. fold offer. fold kept.
    destruct dir; reflexivity. }
  rewrite !Hsched.
  split; [|split; [|split; [|split]]].
  - intros ts ch Hc Hnone. apply Hin. apply Hfree; [by apply Hoffer|exact Hnone].
  - intros ts Hc. rewrite Hout; [done|].
    intros Hel. apply list_elem_of_fmap in Hel as ([[ts' ch'] d'] & -> & Hel).
    apply (elem_of_sublist _ _ _ Hel) in Hsub. apply Hoffer in Hsub as [Hc' _].
    simpl in Hc. congruence.
  - intros ts ch Hc.
    destruct (decide (ts ∈ (λ x : Z * Z * direction, x.1.1) <$> kept)) as [Hel|Hel].
    + right. apply list_elem_of_fmap in Hel as ([[ts' ch'] d'] & -> & Hel).
      assert (Hel' := Hel). apply (elem_of_sublist _ _ _ Hel') in Hsub.
      apply Hoffer in Hsub as [Hc' ->]. simpl in Hc. simplify_eq. by apply Hin.
    + left. by rewrite Hout.
  - unfold m', top_new_handle_request_ok. cbv zeta. fold m0. fold offer. fold kept.
    destruct dir; simpl; apply lookup_insert_eq.
  - unfold m', top_new_handle_request_ok. cbv zeta. fold m0. fold offer. fold kept.
    destruct dir; simpl; apply lookup_insert_eq.
Qed.

(** ** The queues *)

Lemma stats_ready_lookup (m : mote) k :
  stats_ready m → k ∈ motestats_keys → ∃ v, motestats m !! k = Some v.
Proof. intros H Hk. destruct (H k Hk) as [v Hv]. eauto. Qed.

Lemma new_packet_fresh v m r m' :
  new_packet v m = (r, m') →
  packets m !! r = None ∧ packets m' = <[r := v]> (packets m)
  ∧ m' = set_packets (<[r := v]> (packets m)) m.
Proof.
  unfold new_packet. intros [= <- <-]. split; [|done].
  apply not_elem_of_dom. apply is_fresh.
Qed.

(** X7. [_tsch_enqueue] of a DATA packet, on a mote whose counters are
    there: the packet is queued exactly when the mote has a preferred
    parent, has a TX cell and its data queue does not hold
    [TSCH_QUEUE_SIZE] = 50 packets; it then goes to the end of the data
    queue as a new packet object and no counter moves. Otherwise the queue
    is as before and one counter goes up by one: [droppedNoRoute] without
    a parent, else [droppedNoTxCells] without a TX cell, else
    [droppedQueueFull]. A data queue of at most 50 packets stays so. *)
Theorem _tsch_enqueue_data settings (v : packet) (m : mote) :
  stats_ready m →
  pk_type v = "DATA"%string →
  ∃ ok m',
    _tsch_enqueue settings v m = Some (ok, m')
    ∧ (ok = true ↔ preferredParent m ≠ None ∧ getTxCells m ≠ []
                   ∧ Z.of_nat (length (txQueue m)) ≠ TSCH_QUEUE_SIZE)
    ∧ (ok = true →
       ∃ r, packets m !! r = None ∧ packets m' !! r = Some v
            ∧ txQueue m' = txQueue m ++ [r] ∧ motestats m' = motestats m)
    ∧ (ok = false →
       txQueue m' = txQueue m ∧ packets m' = packets m
       ∧ ∃ name n, name = (if bool_decide (preferredParent m = None) then "droppedNoRoute"
                           else if bool_decide (getTxCells m = []) then "droppedNoTxCells"
                           else "droppedQueueFull")%string
                   ∧ motestats m !! name = Some n
                   ∧ motestats m' = <[name := n + 1]> (motestats m))
    ∧ controlQueue m' = controlQueue m
    ∧ (Z.of_nat (length (txQueue m)) ≤ TSCH_QUEUE_SIZE →
       Z.of_nat (length (txQueue m')) ≤ TSCH_QUEUE_SIZE).
Proof.
  intros Hst Hty. unfold _tsch_enqueue.
  destruct (preferredParent m) as [pp|] eqn:Epp.
  2:{ destruct (stats_ready_lookup m "droppedNoRoute" Hst) as [n Hn];
        [unfold motestats_keys; set_solver|].
      rewrite (_incrementMoteStats_Some _ _ n Hn). simpl.
      eexists false, _. split; [reflexivity|]. simpl.
      split; [split; [done|by intros [? _]]|]. split; [done|].
      split; [|split; [done|done]]. intros _. split; [done|]. split; [done|].
      exists "droppedNoRoute"%string, n. done. }
  destruct (decide (getTxCells m = [])) as [Htx|Htx].
  { rewrite (bool_decide_eq_true_2 _ Htx).
    destruct (stats_ready_lookup m "droppedNoTxCells" Hst) as [n Hn];
      [unfold motestats_keys; set_solver|].
    rewrite (_incrementMoteStats_Some _ _ n Hn). simpl.
    eexists false, _. split; [reflexivity|]. simpl.
    split; [split; [done|by intros (_ & ? & _)]|]. split; [done|].
    split; [|split; [done|done]]. intros _. split; [done|]. split; [done|].
    exists "droppedNoTxCells"%string, n. done. }
  rewrite (bool_decide_eq_false_2 _ Htx).
  rewrite (bool_decide_eq_true_2 _ Hty). simpl.
  destruct (decide (Z.of_nat (length (txQueue m)) = TSCH_QUEUE_SIZE)) as [Hfull|Hfull].
  { rewrite (bool_decide_eq_true_2 _ Hfull).
    destruct (stats_ready_lookup m "droppedQueueFull" Hst) as [n Hn];
      [unfold motestats_keys; set_solver|].
    rewrite (_incrementMoteStats_Some _ _ n Hn). simpl.
    eexists false, _. split; [reflexivity|]. simpl.
    split; [split; [done|by intros (_ & _ & ?)]|]. split; [done|].
    split; [|split; [done|by rewrite Hfull]]. intros _. split; [done|]. split; [done|].
    exists "droppedQueueFull"%string, n. done. }
  rewrite (bool_decide_eq_false_2 _ Hfull).
  rewrite (bool_decide_eq_false_2 (pk_type v = "CONTROL"%string)) by (rewrite Hty; done).
  simpl. rewrite andb_false_r.
  assert (Hfresh : packets m !! fresh (dom (packets m)) = None)
    by (apply not_elem_of_dom, is_fresh).
  unfold new_packet. simpl.
  eexists true, _. split; [reflexivity|]. simpl.
  split; [split; [done|done]|].
  split; [|split; [done|split; [done|]]].
  - intros _. exists (fresh (dom (packets m))).
    split; [exact Hfresh|]. split; [apply lookup_insert_eq|done].
  - intros Hle. rewrite length_app. simpl. unfold TSCH_QUEUE_SIZE in *. lia.
Qed.

Lemma _tsch_enqueue_data_witness :
  stats_ready line_mote1
  ∧ pk_type (Build_packet 50 "DATA" None None None [1; 50; 1] 5) = "DATA"%string
  ∧ ∃ ok m', _tsch_enqueue ex_settings (Build_packet 50 "DATA" None None None [1; 50; 1] 5)
               line_mote1 = Some (ok, m')
             ∧ controlQueue m' = controlQueue line_mote1.
Proof.
  assert (H1 : stats_ready line_mote1).
  { intros k Hk. unfold motestats_keys in Hk.
    repeat (apply elem_of_cons in Hk as [->|Hk]; [vm_compute; eauto|]).
    inversion Hk. }
  assert (H2 : pk_type (Build_packet 50 "DATA" None None None [1; 50; 1] 5)
               = "DATA"%string) by reflexivity.
  split; [exact H1|]. split; [exact H2|].
  destruct (_tsch_enqueue_data ex_settings _ line_mote1 H1 H2)
    as (ok & m' & E & _ & _ & _ & Hc & _).
  exists ok, m'. split; [exact E | exact Hc].
Defined.

(** X8. [_app_action_enqueueControl] never fails and never counts a drop:
    [_tsch_enqueueSlotZero] reports success in every case, so no counter
    moves. With [queuing] = 1 the frame goes to the end of the control
    queue whatever the length of that queue (the bound [TOP_CQUEUE_SIZE] is
    not looked at); with [queuing] = 2 an "answer" goes to the high-priority
    queue, a "req" to the normal-priority queue, and a frame of another kind
    (a "confirmation") is in no queue afterwards; with any other value of
    [queuing] the frame is in no queue either. The data queue is never
    touched. *)
Theorem _app_action_enqueueControl_never_drops settings asn (args : control_data)
    (m : mote) :
  ∃ m',
    _app_action_enqueueControl settings asn args m = Some m'
    ∧ motestats m' = motestats m
    ∧ txQueue m' = txQueue m
    ∧ (queuing settings = 1 →
       ∃ r, packets m !! r = None
            ∧ packets m' !! r = Some (control_packet asn args m)
            ∧ controlQueue m' = controlQueue m ++ [r])
    ∧ (queuing settings = 2 → data4 args = Some "answer"%string →
       ∃ r, packets m !! r = None
            ∧ packets m' !! r = Some (control_packet asn args m)
            ∧ controlQueueHP m' = controlQueueHP m ++ [r]
            ∧ controlQueueNP m' = controlQueueNP m)
    ∧ (queuing settings = 2 → data4 args = Some "req"%string →
       ∃ r, packets m !! r = None
            ∧ packets m' !! r = Some (control_packet asn args m)
            ∧ controlQueueNP m' = controlQueueNP m ++ [r]
            ∧ controlQueueHP m' = controlQueueHP m)
    ∧ (queuing settings ≠ 1 →
       ¬ (queuing settings = 2
          ∧ (data4 args = Some "answer"%string ∨ data4 args = Some "req"%string)) →
       m' = m).
Proof.
  assert (Hfresh : packets m !! fresh (dom (packets m)) = None)
    by (apply not_elem_of_dom, is_fresh).
  unfold _app_action_enqueueControl, _tsch_enqueueSlotZero, new_packet.
  destruct (decide (queuing settings = 2)) as [H2|H2].
  - rewrite (bool_decide_eq_true_2 _ H2). simpl.
    destruct (decide (data4 args = Some "answer"%string)) as [Ha|Ha].
    + rewrite (bool_decide_eq_true_2 _ Ha). simpl.
      eexists. split; [reflexivity|]. simpl.
      split; [done|]. split; [done|]. split; [intros H1; congruence|].
      split; [|split].
      * intros _ _. eexists. split; [exact Hfresh|].
        split; [apply lookup_insert_eq|done].
      * intros _ Hr. congruence.
      * intros _ Hn. destruct Hn. auto.
    + rewrite (bool_decide_eq_false_2 _ Ha).
      destruct (decide (data4 args = Some "req"%string)) as [Hr|Hr].
      * rewrite (bool_decide_eq_true_2 _ Hr). simpl.
        eexists. split; [reflexivity|]. simpl.
        split; [done|]. split; [done|]. split; [intros H1; congruence|].
        split; [|split].
        -- intros _ Ha'. congruence.
        -- intros _ _. eexists. split; [exact Hfresh|].
           split; [apply lookup_insert_eq|done].
        -- intros _ Hn. destruct Hn. auto.
      * rewrite (bool_decide_eq_false_2 _ Hr). simpl.
        exists m. split; [reflexivity|].
        split; [done|]. split; [done|]. split; [intros H1; congruence|].
        split; [intros _ ?; congruence|]. split; [intros _ ?; congruence|]. done.
  - rewrite (bool_decide_eq_false_2 _ H2).
    destruct (decide (queuing settings = 1)) as [H1|H1].
    + rewrite (bool_decide_eq_true_2 _ H1). simpl.
      eexists. split; [reflexivity|]. simpl.
      split; [done|]. split; [done|]. split.
      * intros _. eexists. split; [exact Hfresh|].
        split; [apply lookup_insert_eq|done].
      * split; [intros ?; congruence|]. split; [intros ?; congruence|].
        intros Hn. congruence.
    + rewrite (bool_decide_eq_false_2 _ H1). simpl.
      exists m. split; [reflexivity|].
      split; [done|]. split; [done|]. split; [intros ?; congruence|].
      split; [intros ?; congruence|]. split; [intros ?; congruence|]. done.
Qed.

(** ** Adding and removing cells *)

Lemma _tsch_addCells_neighbor asn neighbor (cellList : list (Z * Z * direction)) (m : mote) ts :
  (ts ∈ ((λ x, x.1.1) <$> cellList) →
   ∃ c, schedule (_tsch_addCells asn neighbor cellList m) !! ts = Some c
        ∧ cell_neighbor c = Some neighbor)
  ∧ (ts ∉ ((λ x, x.1.1) <$> cellList) →
     schedule (_tsch_addCells asn neighbor cellList m) !! ts = schedule m !! ts).
Proof.
  unfold _tsch_addCells. simpl. generalize (schedule m) as s.
  induction cellList as [|[[ts0 ch0] d0] l IH] using rev_ind; intros s.
  - simpl. split; [intros Hin; inversion Hin|done].
  - rewrite foldl_app, fmap_app. simpl.
    destruct (IH s) as [Hin Hout].
    destruct (decide (ts = ts0)) as [->|Hne].
    + split.
      * intros _. rewrite lookup_insert_eq. eauto.
      * intros Hn. exfalso. apply Hn. apply elem_of_app. right. by left.
    + rewrite lookup_insert_ne by done. split.
      * intros Hel. apply elem_of_app in Hel as [Hel|Hel]; [by apply Hin|].
        apply list_elem_of_singleton in Hel. done.
      * intros Hn. apply Hout. intros Hel. apply Hn. apply elem_of_app. by left.
Qed.

(** X9. Cells that [_tsch_addCells] put in free slots are taken out
    again by [_tsch_removeCells] for the same neighbor and the same slots:
    the call returns (the counter that it decrements has an entry for the
    neighbor) and the schedule is what it was before the cells were added. *)
Theorem _tsch_addCells_removeCells asn neighbor (cellList : list (Z * Z * direction))
    dir (m : mote) :
  (∀ ts ch d, (ts, ch, d) ∈ cellList → schedule m !! ts = None) →
  counter_ready dir neighbor m →
  ∃ m', _tsch_removeCells neighbor (map (λ '(ts, ch, d), ts) cellList) dir
          (_tsch_addCells asn neighbor cellList m) = Some m'
        ∧ schedule m' = schedule m.
Proof.
  intros Hfree Hc.
  assert (Hmap : map (λ '(ts, ch, d), ts) cellList = (λ x, x.1.1) <$> cellList).
  { apply list_fmap_ext. by intros ? [[? ?] ?]. }
  rewrite Hmap.
  destruct (_tsch_removeCells_is_Some neighbor dir ((λ x, x.1.1) <$> cellList)
              (_tsch_addCells asn neighbor cellList m)) as [m' E].
  { destruct dir as [[| |]|]; exact Hc. }
  exists m'. split; [exact E|].
  apply map_eq. intros ts.
  rewrite (_tsch_removeCells_schedule _ _ _ _ _ E ts).
  destruct (_tsch_addCells_neighbor asn neighbor cellList m ts) as [Hin Hout].
  destruct (decide (ts ∈ (λ x, x.1.1) <$> cellList)) as [Hel|Hel].
  - destruct (Hin Hel) as (c & Hc1 & Hc2).
    rewrite bool_decide_eq_true_2 by (rewrite Hc1; simpl; by rewrite Hc2).
    apply list_elem_of_fmap in Hel as ([[ts' ch'] d'] & -> & Hel).
    symmetry. by apply (Hfree ts' ch' d').
  - rewrite bool_decide_eq_false_2 by (by intros [? _]).
    by apply Hout.
Qed.

Lemma _tsch_addCells_removeCells_witness :
  (∀ ts ch d, (ts, ch, d) ∈ [(3, 0, DIR_RX); (5, 1, DIR_RX)] →
              schedule ex_booted_mote !! ts = None)
  ∧ counter_ready None 2 ex_booted_mote
  ∧ ∃ m', _tsch_removeCells 2 (map (λ '(ts, ch, d), ts) [(3, 0, DIR_RX); (5, 1, DIR_RX)])
            None (_tsch_addCells 0 2 [(3, 0, DIR_RX); (5, 1, DIR_RX)] ex_booted_mote)
          = Some m'
          ∧ schedule m' = schedule ex_booted_mote.
Proof.
  assert (H1 : ∀ ts ch d, (ts, ch, d) ∈ [(3, 0, DIR_RX); (5, 1, DIR_RX)] →
                          schedule ex_booted_mote !! ts = None).
  { intros ts ch d Hin.
    apply elem_of_cons in Hin as [Heq|Hin]; [simplify_eq; reflexivity|].
    apply elem_of_cons in Hin as [Heq|Hin]; [simplify_eq; reflexivity|].
    inversion Hin. }
  assert (H2 : counter_ready None 2 ex_booted_mote) by exact I.
  split; [exact H1|]. split; [exact H2|].
  exact (_tsch_addCells_removeCells 0 2 [(3, 0, DIR_RX); (5, 1, DIR_RX)] None
           ex_booted_mote H1 H2).
Defined.

(** ** The counter of TX cells *)

Lemma count_cells_delete d n (s : gmap Z cell) ts c :
  s !! ts = Some c →
  count_cells d n (delete ts s)
  = count_cells d n s
    - (if bool_decide (cell_dir c = d ∧ cell_neighbor c = Some n) then 1 else 0).
Proof.
  intros Hc. unfold count_cells.
  assert (Hp := map_to_list_delete s ts c Hc).
  rewrite <- (Permutation_length
                (filter_Permutation (λ x : Z * cell, cell_dir x.2 = d ∧ cell_neighbor x.2 = Some n)
                   _ _ Hp)).
  rewrite filter_cons. simpl.
  destruct (decide (cell_dir c = d ∧ cell_neighbor c = Some n)) as [H|H].
  - rewrite (bool_decide_eq_true_2 _ H). simpl. lia.
  - rewrite (bool_decide_eq_false_2 _ H). lia.
Qed.

Lemma count_cells_pos d n (s : gmap Z cell) ts c :
  s !! ts = Some c → cell_dir c = d → cell_neighbor c = Some n → 1 ≤ count_cells d n s.
Proof.
  intros Hc Hd Hn.
  assert (E := count_cells_delete d n s ts c Hc).
  rewrite bool_decide_eq_true_2 in E by done.
  assert (0 ≤ count_cells d n (delete ts s)) by (unfold count_cells; lia). lia.
Qed.

Lemma _tsch_removeCells_step_tx_counter neighbor (m m' : mote) ts :
  _tsch_removeCells_step neighbor (Some DIR_TX) m ts = Some m' →
  (∀ c, schedule m !! ts = Some c → cell_neighbor c = Some neighbor → cell_dir c = DIR_TX) →
  (∀ n, default 0 (numCellsToNeighbors m' !! n) - count_cells DIR_TX n (schedule m')
        = default 0 (numCellsToNeighbors m !! n) - count_cells DIR_TX n (schedule m))
  ∧ (∀ n, n ≠ neighbor →
          numCellsToNeighbors m' !! n = numCellsToNeighbors m !! n
          ∧ count_cells DIR_TX n (schedule m') = count_cells DIR_TX n (schedule m)).
Proof.
  unfold _tsch_removeCells_step. intros H Htx.
  destruct (schedule m !! ts) as [c|] eqn:Ec; [|by simplify_eq].
  destruct (decide (cell_neighbor c = Some neighbor)) as [Hn|Hn].
  2:{ rewrite bool_decide_eq_false_2 in H by done. by simplify_eq. }
  rewrite bool_decide_eq_true_2 in H by done. simpl in H.
  destruct (numCellsToNeighbors m !! neighbor) as [k|] eqn:Ek; [|done].
  simpl in H. injection H as <-. simpl.
  specialize (Htx c eq_refl Hn).
  split.
  - intros n. rewrite (count_cells_delete _ _ _ _ _ Ec).
    destruct (decide (n = neighbor)) as [->|Hne].
    + rewrite lookup_insert_eq, Ek. simpl.
      rewrite bool_decide_eq_true_2 by done. lia.
    + rewrite lookup_insert_ne by done.
      rewrite bool_decide_eq_false_2 by (intros [_ ?]; congruence). lia.
  - intros n Hne. rewrite lookup_insert_ne by done. split; [done|].
    rewrite (count_cells_delete _ _ _ _ _ Ec).
    rewrite bool_decide_eq_false_2 by (intros [_ ?]; congruence). lia.
Qed.

(** X10. When [_tsch_removeCells(neighbor, tsList, DIR_TX)] returns and
    the cells to [neighbor] in the slots of [tsList] are all TX cells, the
    counter [numCellsToNeighbors] stays in step with the schedule: for every
    mote [n] the difference between the counter of [n] (0 when it has none)
    and the number of TX cells to [n] is what it was, so the assertion of
    [_top_housekeeping], that the two are equal, still holds if it held;
    for the other motes neither the counter nor the number of cells moves. *)
Theorem _tsch_removeCells_tx_counter neighbor tsList (m m' : mote) :
  _tsch_removeCells neighbor tsList (Some DIR_TX) m = Some m' →
  (∀ ts c, ts ∈ tsList → schedule m !! ts = Some c → cell_neighbor c = Some neighbor →
           cell_dir c = DIR_TX) →
  (∀ n, default 0 (numCellsToNeighbors m' !! n) - count_cells DIR_TX n (schedule m')
        = default 0 (numCellsToNeighbors m !! n) - count_cells DIR_TX n (schedule m))
  ∧ (∀ n, tx_counter_consistent n m → tx_counter_consistent n m')
  ∧ (∀ n, n ≠ neighbor →
          numCellsToNeighbors m' !! n = numCellsToNeighbors m !! n
          ∧ count_cells DIR_TX n (schedule m') = count_cells DIR_TX n (schedule m)).
Proof.
  unfold _tsch_removeCells. revert m.
  induction tsList as [|ts l IH]; intros m H Htx; simpl in H.
  { injection H as <-. split; [done|]. split; [done|]. done. }
  destruct (_tsch_removeCells_step neighbor (Some DIR_TX) m ts) as [m1|] eqn:E; [|done].
  simpl in H.
  destruct (_tsch_removeCells_step_tx_counter neighbor m m1 ts E) as [Hd1 Ho1].
  { intros c Hc. apply (Htx ts c); [left|done]. }
  destruct (IH m1 H) as (Hd & _ & Ho).
  { intros ts' c Hin Hc. apply (Htx ts' c); [by right|].
    rewrite (_tsch_removeCells_step_schedule _ _ _ _ _ E) in Hc.
    case_bool_decide; [|done].
    destruct (decide (ts' = ts)) as [->|Hne];
      [by rewrite lookup_delete_eq in Hc | by rewrite lookup_delete_ne in Hc]. }
  assert (Hdiff : ∀ n, default 0 (numCellsToNeighbors m' !! n)
                       - count_cells DIR_TX n (schedule m')
                       = default 0 (numCellsToNeighbors m !! n)
                         - count_cells DIR_TX n (schedule m)).
  { intros n. rewrite Hd. apply Hd1. }
  split; [exact Hdiff|]. split.
  - intros n Hcons. unfold tx_counter_consistent in *. specialize (Hdiff n). lia.
  - intros n Hne. destruct (Ho n Hne) as [-> ->]. by apply Ho1.
Qed.

Lemma _tsch_removeCells_tx_counter_witness :
  _tsch_removeCells 0 [9] (Some DIR_TX) line_mote1 = Some line_mote1_removed
  ∧ (∀ ts c, ts ∈ [9] → schedule line_mote1 !! ts = Some c → cell_neighbor c = Some 0 →
             cell_dir c = DIR_TX)
  ∧ (tx_counter_consistent 0 line_mote1 → tx_counter_consistent 0 line_mote1_removed).
Proof.
  assert (H1 : _tsch_removeCells 0 [9] (Some DIR_TX) line_mote1 = Some line_mote1_removed)
    by (vm_compute; reflexivity).
  assert (H2 : ∀ ts c, ts ∈ [9] → schedule line_mote1 !! ts = Some c →
                       cell_neighbor c = Some 0 → cell_dir c = DIR_TX).
  { intros ts c Hin. apply list_elem_of_singleton in Hin as ->.
    vm_compute. intros [= <-] _. reflexivity. }
  split; [exact H1|]. split; [exact H2|].
  exact (proj1 (proj2 (_tsch_removeCells_tx_counter 0 [9] line_mote1 line_mote1_removed
                         H1 H2)) 0).
Defined.

(** ** The deletion of cells between two motes *)

(** Two networks that differ in the reserve tables of their motes only. *)
Lemma write_reserve_only_reserve v cells neighbor (w w' : network) :
  write_reserve v cells neighbor w = Some w' →
  ∀ i, option_Forall2 (λ m m' : mote, m' = set_reserve (reserve m') m) (w !! i) (w' !! i).
Proof.
  unfold write_reserve. intros H i.
  destruct (w !! neighbor) as [n|] eqn:En; [|done]. simpl in H.
  destruct (foldM _ cells (reserve n)) as [tbl|]; [|done]. simpl in H.
  injection H as <-.
  destruct (decide (i = neighbor)) as [->|Hne].
  - rewrite lookup_insert_eq, En. constructor. by destruct n.
  - rewrite lookup_insert_ne by done.
    destruct (w !! i) as [m|]; constructor. by destruct m.
Qed.

Lemma foldM_only_reserve {A : Type} (f : network → A → option network) (l : list A)
    (w w' : network) :
  (∀ w x w', f w x = Some w' →
     ∀ i, option_Forall2 (λ m m' : mote, m' = set_reserve (reserve m') m) (w !! i) (w' !! i)) →
  foldM f l w = Some w' →
  ∀ i, option_Forall2 (λ m m' : mote, m' = set_reserve (reserve m') m) (w !! i) (w' !! i).
Proof.
  intros Hf. revert w. induction l as [|x l IH]; intros w H i; simpl in H.
  - injection H as <-. destruct (w !! i) as [m|]; constructor. by destruct m.
  - destruct (f w x) as [w1|] eqn:E; [|done]. simpl in H.
    specialize (Hf _ _ _ E i). specialize (IH _ H i).
    destruct Hf as [m m1 H1|]; [|exact IH].
    inversion IH as [m1' m2 H2|]; subst. constructor.
    rewrite H2, H1. by destruct m.
Qed.

Lemma only_reserve_refl (w : network) i :
  option_Forall2 (λ m m' : mote, m' = set_reserve (reserve m') m) (w !! i) (w !! i).
Proof. destruct (w !! i) as [m|]; constructor. by destruct m. Qed.

Lemma delete_fold_only_reserve skip cellList (l : list Z) (w w' : network) :
  foldM (λ w' neighb, if bool_decide (skip ≠ neighb)
                      then _delete_cell_neighbor cellList neighb w' else Some w') l w
  = Some w' →
  ∀ i, option_Forall2 (λ m m' : mote, m' = set_reserve (reserve m') m) (w !! i) (w' !! i).
Proof.
  apply foldM_only_reserve. intros w0 x w1 Hx.
  case_bool_decide.
  - by apply (write_reserve_only_reserve false cellList x).
  - injection Hx as <-. apply only_reserve_refl.
Qed.

(** X11. [top_cell_deletion_sender(neighbor, tsList)] between two distinct
    motes raises as soon as [neighbor] has no cell in one of the slots of
    [tsList] ([self.schedule.get(ts)['ch']] in [top_cell_deletion_receiver]).
    When it returns, the schedule of the mote has lost its cells to
    [neighbor] in the slots of [tsList] and nothing else, the schedule of
    [neighbor] has lost its cells to the mote in these slots and nothing
    else, the schedule of every other mote is as before, and the counter of
    the TX cells to [neighbor] is not negative. *)
Theorem top_cell_deletion_sender_effect self neighbor tsList (w : network) (me nb : mote) :
  self ≠ neighbor →
  w !! self = Some me →
  w !! neighbor = Some nb →
  ((∃ ts, ts ∈ tsList ∧ schedule nb !! ts = None) →
   top_cell_deletion_sender self neighbor tsList w = None)
  ∧ (∀ w', top_cell_deletion_sender self neighbor tsList w = Some w' →
       ∃ me' nb',
         w' !! self = Some me' ∧ w' !! neighbor = Some nb'
         ∧ (∀ ts, schedule me' !! ts =
                  if bool_decide (ts ∈ tsList
                       ∧ (cell_neighbor <$> schedule me !! ts) = Some (Some neighbor))
                  then None else schedule me !! ts)
         ∧ (∀ ts, schedule nb' !! ts =
                  if bool_decide (ts ∈ tsList
                       ∧ (cell_neighbor <$> schedule nb !! ts) = Some (Some self))
                  then None else schedule nb !! ts)
         ∧ (∀ i m, i ≠ self → i ≠ neighbor → w !! i = Some m →
                   ∃ m', w' !! i = Some m' ∧ schedule m' = schedule m)
         ∧ ∃ n, numCellsToNeighbors me' !! neighbor = Some n ∧ 0 ≤ n).
Proof.
  intros Hne Hme Hnb. unfold top_cell_deletion_sender. rewrite Hme. simpl.
  destruct (_tsch_removeCells neighbor tsList (Some DIR_TX) me) as [me1|] eqn:E1;
    [|split; [done|intros ? [=]]].
  simpl. unfold top_cell_deletion_receiver.
  rewrite lookup_insert_ne by done. rewrite Hnb. simpl.
  split.
  - intros (ts & Hin & Hnone).
    destruct (mapM _ tsList) as [cellList|] eqn:Em; [|done].
    exfalso. assert (Hs : is_Some (mapM (λ ts, c ← schedule nb !! ts; Some (ts, cell_ch c))
                                     tsList)) by eauto.
    apply mapM_is_Some in Hs. rewrite list.Forall_forall in Hs.
    specialize (Hs ts Hin). simpl in Hs. rewrite Hnone in Hs. by destruct Hs.
  - intros w' H.
    destruct (mapM _ tsList) as [cellList|]; [|done]. simpl in H.
    destruct (_tsch_removeCells self tsList (Some DIR_RX) nb) as [nb1|] eqn:E2; [|done].
    simpl in H.
    match type of H with
    | mbind _ ?e = _ => destruct e as [w2|] eqn:E3; [|done]
    end.
    simpl in H.
    assert (Hres := delete_fold_only_reserve _ _ _ _ _ E3). clear E3.
    assert (Hs := Hres self). assert (Hn := Hres neighbor).
    rewrite lookup_insert_ne in Hs by done. rewrite lookup_insert_eq in Hs, Hn.
    inversion Hs as [? me' Hme' Ea Eb|]; subst. symmetry in Eb.
    inversion Hn as [? nb' Hnb' Ec Ed|]; subst. symmetry in Ed.
    rewrite Eb in H. simpl in H.
    destruct (numCellsToNeighbors me' !! neighbor) as [n|] eqn:En; [|done].
    simpl in H. case_bool_decide as Hpos; [|done]. injection H as <-.
    exists me', nb'. split; [exact Eb|]. split; [exact Ed|].
    split; [|split; [|split]].
    + intros ts. rewrite Hme'. simpl. apply (_tsch_removeCells_schedule _ _ _ _ _ E1).
    + intros ts. rewrite Hnb'. simpl. apply (_tsch_removeCells_schedule _ _ _ _ _ E2).
    + intros i m Hi1 Hi2 Hm. specialize (Hres i).
      rewrite !lookup_insert_ne in Hres by done. rewrite Hm in Hres.
      inversion Hres as [? m' Hm' Ee Ef|]; subst. exists m'. split; [done|].
      rewrite Hm'. reflexivity.
    + exists n. split; [exact En | exact Hpos].
Qed.

Lemma top_cell_deletion_sender_effect_witness :
  (1 : Z) ≠ 0
  ∧ line_w !! 1 = Some line_mote1
  ∧ line_w !! 0 = Some line_root
  ∧ top_cell_deletion_sender 1 0 [9] line_w = Some line_after_deletion
  ∧ ∃ me' nb', line_after_deletion !! 1 = Some me'
               ∧ line_after_deletion !! 0 = Some nb'
               ∧ schedule me' !! 9 = None ∧ schedule nb' !! 9 = None.
Proof.
  assert (H1 : (1 : Z) ≠ 0) by discriminate.
  assert (H2 : line_w !! 1 = Some line_mote1) by (vm_compute; reflexivity).
  assert (H3 : line_w !! 0 = Some line_root) by (vm_compute; reflexivity).
  assert (H4 : top_cell_deletion_sender 1 0 [9] line_w = Some line_after_deletion)
    by (vm_compute; reflexivity).
  split; [exact H1|]. split; [exact H2|]. split; [exact H3|]. split; [exact H4|].
  destruct (proj2 (top_cell_deletion_sender_effect 1 0 [9] line_w line_mote1 line_root
                     H1 H2 H3) _ H4)
    as (me' & nb' & Ha & Hb & Hs1 & Hs2 & _).
  exists me', nb'. split; [exact Ha|]. split; [exact Hb|].
  split.
  - rewrite (Hs1 9). vm_compute. reflexivity.
  - rewrite (Hs2 9). vm_compute. reflexivity.
Defined.

(** ** The cells that a responder offers *)

Lemma mapM_pairs {A B : Type} (g : A → option B) (l : list A) (chosen : list (A * B)) :
  mapM (λ ts, ch ← g ts; Some (ts, ch)) l = Some chosen →
  chosen.*1 = l ∧ ∀ ts ch, (ts, ch) ∈ chosen → g ts = Some ch.
Proof.
  revert chosen. induction l as [|x l IH]; intros chosen H; simpl in H.
  - injection H as <-. split; [done|]. intros ? ? Hin. inversion Hin.
  - destruct (g x) as [b|] eqn:Eg; [|done]. simpl in H.
    destruct (mapM _ l) as [rest|]; [|done]. simpl in H. injection H as <-.
    destruct (IH rest eq_refl) as [H1 H2]. split; [simpl; by f_equal|].
    intros ts ch Hin. apply elem_of_cons in Hin as [Heq|Hin]; [by simplify_eq|eauto].
Qed.

Lemma foldl_insert_pairs (l : list (Z * Z)) :
  foldl (λ (d : gmap Z Z) '(ts, ch), <[ts := ch]> d) ∅ l = list_to_map (reverse l).
Proof.
  induction l as [|[ts ch] l IH] using rev_ind; [done|].
  rewrite foldl_app, reverse_app. simpl. by rewrite IH.
Qed.

Lemma free_channels_free settings self neighbor ts k :
  free_channels settings self neighbor ts = Some k →
  ∀ j, j ∈ k → 0 ≤ j < numChans settings
               ∧ reserved self ts j = Some false ∧ reserved neighbor ts j = Some false.
Proof.
  unfold free_channels.
  assert (Hin : ∀ j, j ∈ py_range 0 (numChans settings) → 0 ≤ j < numChans settings).
  { intros j. unfold py_range. rewrite elem_of_seqZ. lia. }
  revert Hin. generalize (py_range 0 (numChans settings)). intros l Hin.
  enough (∀ acc k, foldM (λ (k : list Z) (j : Z),
                            a ← reserved self ts j;
                            if (a : bool) then Some k
                            else b ← reserved neighbor ts j;
                                 if (b : bool) then Some k else Some (k ++ [j])) l acc
                   = Some k →
                   ∀ j, j ∈ k → j ∈ acc ∨ (0 ≤ j < numChans settings
                        ∧ reserved self ts j = Some false ∧ reserved neighbor ts j = Some false))
    as H.
  { intros Hk j Hj. destruct (H [] k Hk j Hj) as [Hnil|?]; [inversion Hnil|done]. }
  induction l as [|x l IH]; intros acc k0 H j Hj; simpl in H.
  - injection H as <-. by left.
  - destruct (reserved self ts x) as [a|] eqn:Ea; [|done]. simpl in H.
    assert (Hin' : ∀ j, j ∈ l → 0 ≤ j < numChans settings)
      by (intros ? ?; apply Hin; by right).
    destruct a; [by apply (IH Hin' acc k0)|].
    destruct (reserved neighbor ts x) as [b|] eqn:Eb; [|done]. simpl in H.
    destruct b; [by apply (IH Hin' acc k0)|].
    destruct (IH Hin' _ _ H j Hj) as [Hacc|?]; [|by right].
    apply elem_of_app in Hacc as [?|Hx]; [by left|].
    apply list_elem_of_singleton in Hx as ->. right.
    split; [apply Hin; left|done].
Qed.

Lemma reserve_fold_only_reserve skip (cellList : list (Z * Z * direction)) (l : list Z)
    (w w' : network) :
  foldM (λ w' neighb, if bool_decide (skip ≠ neighb)
                      then _reserve_cell_neighbor cellList neighb w' else Some w') l w
  = Some w' →
  ∀ i, option_Forall2 (λ m m' : mote, m' = set_reserve (reserve m') m) (w !! i) (w' !! i).
Proof.
  apply foldM_only_reserve. intros w0 x w1 Hx.
  case_bool_decide.
  - by eapply write_reserve_only_reserve.
  - injection Hx as <-. apply only_reserve_refl.
Qed.

(** X12. What a responder offers with [top_cell_reservation_response]
    (without ideal allocation, [random.shuffle] permuting its argument):
    at most [numCells] cells; every offered slot is a slot of the slotframe
    that was free in the schedule of the responder and that the requester
    does not use (its list of used slots with [queuing], its schedule
    without); the offered channel is reserved at that slot neither in the
    table of the responder nor in that of the requester; the cell is in the
    schedule of the responder afterwards, to the requester, in the direction
    opposite to the one asked for. The other slots of the responder are as
    before. *)
Theorem top_cell_reservation_response_offer shuffle getNextTS settings asn self neighbor
    numCells dirNeighbor slotUsedByNeighbor (w w' : network) (me nb : mote)
    (cells : gmap Z Z) :
  (∀ l : list Z, shuffle l ≡ₚ l) →
  idealAllocation settings = false →
  0 ≤ numCells →
  w !! self = Some me →
  w !! neighbor = Some nb →
  top_cell_reservation_response shuffle getNextTS settings asn self neighbor numCells
    dirNeighbor slotUsedByNeighbor w = Some (cells, w') →
  ∃ me',
    w' !! self = Some me'
    ∧ Z.of_nat (size cells) ≤ numCells
    ∧ (∀ ts ch, cells !! ts = Some ch →
         0 ≤ ts < slotframeLength settings
         ∧ schedule me !! ts = None
         ∧ (if bool_decide (queuing settings ≠ 0)
            then ∃ l, slotUsedByNeighbor = Some l ∧ ts ∉ l
            else schedule nb !! ts = None)
         ∧ 0 ≤ ch < numChans settings
         ∧ reserved me ts ch = Some false ∧ reserved nb ts ch = Some false
         ∧ schedule me' !! ts
           = Some (new_cell ch (if bool_decide (dirNeighbor = Some DIR_TX)
                                then DIR_RX else DIR_TX) (Some neighbor) asn))
    ∧ (∀ ts, cells !! ts = None → schedule me' !! ts = schedule me !! ts).
Proof.
  intros Hperm Hideal Hnum Hme Hnb H.
  unfold top_cell_reservation_response in H.
  rewrite Hme, Hnb in H. cbn [mbind option_bind] in H. cbv zeta in H.
  set (dir := if bool_decide (dirNeighbor = Some DIR_TX) then DIR_RX else DIR_TX) in *.
  match type of H with
  | mbind _ ?e = _ => destruct e as [used|] eqn:Eused; [|discriminate]
  end.
  cbn [mbind option_bind] in H.
  set (avail := shuffle (elements (@list_to_set Z (gset Z) _ _ _
                                     (py_range 0 (slotframeLength settings))
                                   ∖ used ∖ dom (schedule me)))) in *.
  destruct (mapM _ (py_prefix avail numCells)) as [chosen|] eqn:Echosen; [|discriminate].
  cbn [mbind option_bind] in H. rewrite Hideal in H.
  apply mapM_pairs in Echosen as [Hkeys Hch].
  rewrite foldl_insert_pairs in H.
  set (offer := (list_to_map (reverse chosen) : gmap Z Z)) in *.
  set (cellList := map (λ '(ts, ch), (ts, ch, dir)) (map_to_list offer)) in *.
  (* the available slots *)
  assert (Havail : ∀ ts, ts ∈ avail ↔
            ((0 ≤ ts < slotframeLength settings) ∧ (ts ∉ used)
             ∧ (schedule me !! ts = None))).
  { intros ts. unfold avail. rewrite (Hperm _), elem_of_elements.
    rewrite !elem_of_difference, elem_of_list_to_set, not_elem_of_dom.
    unfold py_range. rewrite elem_of_seqZ. split; [intros [[? ?] ?]|intros (? & ? & ?)];
      repeat split; try done; lia. }
  assert (Hnd : NoDup avail).
  { unfold avail. rewrite (Hperm _). apply NoDup_elements. }
  assert (Hpre : py_prefix avail numCells = take (Z.to_nat numCells) avail).
  { unfold py_prefix. by rewrite bool_decide_eq_true_2. }
  assert (Hndc : NoDup (reverse chosen).*1).
  { rewrite fmap_reverse, reverse_Permutation, Hkeys, Hpre.
    eapply sublist_NoDup; [exact Hnd|]. apply sublist_take. }
  assert (Hoffer : ∀ ts ch, offer !! ts = Some ch ↔ (ts, ch) ∈ chosen).
  { intros ts ch. unfold offer. rewrite <- elem_of_list_to_map by exact Hndc.
    by rewrite elem_of_reverse. }
  assert (Hin_avail : ∀ ts ch, (ts, ch) ∈ chosen → ts ∈ avail).
  { intros ts ch Hin.
    assert (ts ∈ chosen.*1) by (apply list_elem_of_fmap; by exists (ts, ch)).
    rewrite Hkeys, Hpre in H0.
    exact (elem_of_sublist _ _ _ H0 (sublist_take _ _)). }
  assert (Hsize : Z.of_nat (size offer) ≤ numCells).
  { unfold offer. rewrite <- length_map_to_list.
    rewrite (Permutation_length (map_to_list_to_map _ Hndc)).
    rewrite length_reverse.
    rewrite <- (length_fmap fst chosen), Hkeys, Hpre, length_take. lia. }
  assert (HcellList : ∀ ts ch d, (ts, ch, d) ∈ cellList ↔ offer !! ts = Some ch ∧ d = dir).
  { intros ts ch d. unfold cellList. rewrite list_elem_of_fmap. split.
    - intros ([ts' ch'] & Heq & Hin). simplify_eq.
      by apply elem_of_map_to_list in Hin.
    - intros [Hc ->]. exists (ts, ch). split; [done|]. by apply elem_of_map_to_list. }
  assert (HndL : NoDup ((λ x : Z * Z * direction, x.1.1) <$> cellList)).
  { assert (Hk2 : (λ x : Z * Z * direction, x.1.1) <$> cellList = (map_to_list offer).*1).
    { unfold cellList. rewrite <- list_fmap_compose. apply list_fmap_ext.
      by intros ? [? ?]. }
    rewrite Hk2. apply NoDup_fst_map_to_list. }
  destruct (_tsch_addCells_lookup asn neighbor cellList me HndL) as [Hadd_in Hadd_out].
  (* the state of the responder at the end *)
  assert (Hend : ∃ me', w' !! self = Some me'
                        ∧ schedule me' = schedule (_tsch_addCells asn neighbor cellList me)
                        ∧ cells = offer).
  { clear Hadd_in Hadd_out.
    set (me1 := _tsch_addCells asn neighbor cellList me) in *.
    match type of H with
    | mbind _ ?e = _ => destruct e as [w2|] eqn:Ew2; [|discriminate]
    end.
    cbn [mbind option_bind] in H.
    assert (Hw2 : ∃ me2, w2 !! self = Some me2 ∧ schedule me2 = schedule me1).
    { destruct (bool_decide (dir = DIR_TX)).
      - assert (Hr := reserve_fold_only_reserve _ _ _ _ _ Ew2 self).
        rewrite lookup_insert_eq in Hr.
        inversion Hr as [? me2 Hme2 Ea Eb|]; subst. exists me2. split; [done|].
        rewrite Hme2. simpl. by case_bool_decide.
      - assert (Hr := reserve_fold_only_reserve _ _ _ _ _ Ew2 self).
        rewrite lookup_insert_eq in Hr.
        inversion Hr as [? me2 Hme2 Ea Eb|]; subst. exists me2. split; [done|].
        rewrite Hme2. simpl. by case_bool_decide. }
    destruct Hw2 as (me2 & Hme2 & Hs2).
    case_bool_decide.
    - rewrite Hme2 in H. cbn [mbind option_bind] in H. injection H as <- <-.
      eexists. rewrite lookup_insert_eq. split; [reflexivity|]. split; [|done].
      simpl. exact Hs2.
    - injection H as <- <-. exists me2. done. }
  destruct Hend as (me' & Hme' & Hsched & ->).
  exists me'. split; [exact Hme'|]. split; [exact Hsize|]. rewrite Hsched. split.
  - intros ts ch Hc.
    assert (Hc' := proj1 (Hoffer ts ch) Hc).
    destruct (proj1 (Havail ts) (Hin_avail ts ch Hc')) as (Hr & Hu & Hf).
    split; [exact Hr|]. split; [exact Hf|].
    specialize (Hch ts ch Hc'). unfold _choose_channel in Hch.
    destruct (free_channels settings me nb ts) as [k|] eqn:Ek; [|discriminate].
    simpl in Hch.
    assert (Hk : ch ∈ k).
    { rewrite <- (Hperm k). destruct (shuffle k); [discriminate|].
      injection Hch as ->. left. }
    destruct (free_channels_free _ _ _ _ _ Ek ch Hk) as (Hc1 & Hc2 & Hc3).
    split; [|split; [exact Hc1|split; [exact Hc2|split; [exact Hc3|]]]].
    + case_bool_decide.
      * destruct slotUsedByNeighbor as [l|]; [|discriminate].
        simpl in Eused. injection Eused as <-. exists l. split; [done|].
        by rewrite elem_of_list_to_set in Hu.
      * injection Eused as <-. by apply not_elem_of_dom.
    + apply Hadd_in. by apply HcellList.
  - intros ts Hc. apply Hadd_out.
    intros Hel. apply list_elem_of_fmap in Hel as ([[ts' ch'] d'] & -> & Hel).
    apply HcellList in Hel as [Hc' _]. simpl in Hc. congruence.
Qed.

Lemma top_cell_reservation_response_offer_witness :
  (∀ l : list Z, ex_shuffle l ≡ₚ l)
  ∧ idealAllocation ex_settings = false
  ∧ ex_booted !! 1 = Some ex_booted_mote
  ∧ ex_booted !! 0 = Some (boot ex_settings 0 (ex_mote 0 1))
  ∧ top_cell_reservation_response ex_shuffle ex_getNextTS ex_settings 3 1 0 2
      (Some DIR_TX) (Some [0]) ex_booted = Some (ex_offer, ex_answered)
  ∧ ∃ me', ex_answered !! 1 = Some me' ∧ Z.of_nat (size ex_offer) ≤ 2.
Proof.
  assert (H1 : ∀ l : list Z, ex_shuffle l ≡ₚ l) by reflexivity.
  assert (H2 : idealAllocation ex_settings = false) by reflexivity.
  assert (H3 : ex_booted !! 1 = Some ex_booted_mote) by reflexivity.
  assert (H4 : ex_booted !! 0 = Some (boot ex_settings 0 (ex_mote 0 1))) by reflexivity.
  assert (H5 : top_cell_reservation_response ex_shuffle ex_getNextTS ex_settings 3 1 0 2
                 (Some DIR_TX) (Some [0]) ex_booted = Some (ex_offer, ex_answered))
    by (vm_compute; reflexivity).
  split; [exact H1|]. split; [exact H2|]. split; [exact H3|]. split; [exact H4|].
  split; [exact H5|].
  destruct (top_cell_reservation_response_offer ex_shuffle ex_getNextTS ex_settings 3 1 0 2
              (Some DIR_TX) (Some [0]) ex_booted ex_answered ex_booted_mote
              (boot ex_settings 0 (ex_mote 0 1)) ex_offer H1 H2 ltac:(lia) H3 H4 H5)
    as (me' & Hme' & Hsize & _).
  exists me'. split; [exact Hme' | exact Hsize].
Defined.

(** ** The reserve tables *)

Lemma py_index_pos {A : Type} (l : list A) (i : Z) :
  py_index l i = p ← py_pos (length l) i; l !! p.
Proof.
  unfold py_index, py_pos.
  case_bool_decide as H0.
  - case_bool_decide as H1; [done|]. simpl. apply lookup_ge_None. lia.
  - by case_bool_decide.
Qed.

Lemma py_setitem_pos {A : Type} (l : list A) (i : Z) (x : A) :
  py_setitem l i x = p ← py_pos (length l) i; Some (<[p := x]> l).
Proof.
  unfold py_setitem, py_pos.
  case_bool_decide as H0.
  - by case_bool_decide.
  - by case_bool_decide.
Qed.

Lemma py_pos_lt len i p : py_pos len i = Some p → (p < len)%nat.
Proof.
  unfold py_pos. repeat case_bool_decide; intros [=]; lia.
Qed.

(** Reading after writing. *)
Lemma py_setitem_index {A : Type} (l l' : list A) (i j : Z) (x : A) :
  py_setitem l i x = Some l' →
  length l' = length l
  ∧ py_index l' i = Some x
  ∧ (py_pos (length l) j ≠ py_pos (length l) i → py_index l' j = py_index l j)
  ∧ (py_index l j = Some x → py_index l' j = Some x).
Proof.
  rewrite py_setitem_pos. intros H.
  destruct (py_pos (length l) i) as [p|] eqn:Ep; [|done]. simpl in H. injection H as <-.
  assert (Hp := py_pos_lt _ _ _ Ep).
  rewrite !py_index_pos, length_insert. split; [done|]. rewrite Ep. simpl.
  split; [by apply list_lookup_insert_eq|].
  destruct (py_pos (length l) j) as [q|] eqn:Eq; simpl.
  - split.
    + intros Hne. apply list_lookup_insert_ne. congruence.
    + intros Hx. destruct (decide (p = q)) as [->|Hne].
      * by apply list_lookup_insert_eq.
      * by rewrite list_lookup_insert_ne.
  - done.
Qed.

Lemma set_reserved_lookup v (tbl tbl' : list (list bool)) ts ch :
  set_reserved v tbl ts ch = Some tbl' →
  (row ← py_index tbl' ts; py_index row ch) = Some v
  ∧ ∀ ts' ch', (row ← py_index tbl ts'; py_index row ch') = Some v →
               (row ← py_index tbl' ts'; py_index row ch') = Some v.
Proof.
  unfold set_reserved. intros H.
  destruct (py_index tbl ts) as [row|] eqn:Er; [|done]. simpl in H.
  destruct (py_setitem row ch v) as [row'|] eqn:Es; [|done]. simpl in H.
  destruct (py_setitem_index _ _ _ ch _ Es) as (_ & Hr1 & _).
  destruct (py_setitem_index _ _ _ ts _ H) as (Hlen & Ht1 & _).
  split; [rewrite Ht1; simpl; exact Hr1|].
  intros ts' ch' Hold.
  destruct (decide (py_pos (length tbl) ts' = py_pos (length tbl) ts)) as [Heq|Hne].
  - assert (E1 : py_index tbl' ts' = Some row').
    { rewrite py_index_pos, Hlen, Heq. rewrite py_index_pos, Hlen in Ht1. exact Ht1. }
    assert (E2 : py_index tbl ts' = Some row).
    { rewrite py_index_pos, Heq. rewrite py_index_pos in Er. exact Er. }
    rewrite E1. rewrite E2 in Hold. simpl in *.
    by apply (py_setitem_index _ _ _ ch' _ Es).
  - destruct (py_setitem_index _ _ _ ts' _ H) as (_ & _ & Hother & _).
    rewrite (Hother Hne). exact Hold.
Qed.

Lemma write_reserve_value v (cells : list (Z * Z)) (tbl tbl' : list (list bool)) :
  foldM (λ t '(ts, ch), set_reserved v t ts ch) cells tbl = Some tbl' →
  (∀ ts ch, (ts, ch) ∈ cells → (row ← py_index tbl' ts; py_index row ch) = Some v)
  ∧ (∀ ts ch, (row ← py_index tbl ts; py_index row ch) = Some v →
              (row ← py_index tbl' ts; py_index row ch) = Some v).
Proof.
  revert tbl. induction cells as [|[ts0 ch0] l IH]; intros tbl H; simpl in H.
  - injection H as <-. split; [intros ? ? Hin; inversion Hin|done].
  - destruct (set_reserved v tbl ts0 ch0) as [t1|] eqn:E1; [|done]. simpl in H.
    destruct (set_reserved_lookup _ _ _ _ _ E1) as [Hset Hkeep].
    destruct (IH _ H) as [Hin Hkeep'].
    split.
    + intros ts ch Hel. apply elem_of_cons in Hel as [Heq|Hel]; [|by apply Hin].
      simplify_eq. by apply Hkeep'.
    + intros ts ch Hold. apply Hkeep'. by apply Hkeep.
Qed.

(** X13. When [_reserve_cell_neighbor(cells, neighbor)] returns, every
    cell of [cells] is marked in the reserve table of [neighbor], and the
    marks that were there before are still there. From then on
    [_choose_channel] never returns the channel of such a cell for its
    slot when [neighbor] is one of the two motes, whichever of the two
    calls ([random.shuffle] permuting its argument). *)
Theorem _reserve_cell_neighbor_blocks shuffle settings
    (cells : list (Z * Z * direction)) neighbor (w w' : network) (nb : mote) :
  (∀ l : list Z, shuffle l ≡ₚ l) →
  w !! neighbor = Some nb →
  _reserve_cell_neighbor cells neighbor w = Some w' →
  ∃ nb',
    w' !! neighbor = Some nb'
    ∧ (∀ ts ch, reserved nb ts ch = Some true → reserved nb' ts ch = Some true)
    ∧ ∀ ts ch d, (ts, ch, d) ∈ cells →
        reserved nb' ts ch = Some true
        ∧ ∀ other, _choose_channel shuffle settings nb' other ts ≠ Some ch
                   ∧ _choose_channel shuffle settings other nb' ts ≠ Some ch.
Proof.
  intros Hperm Hnb H. unfold _reserve_cell_neighbor, write_reserve in H.
  rewrite Hnb in H. simpl in H.
  destruct (foldM _ _ (reserve nb)) as [tbl|] eqn:Et; [|done]. simpl in H.
  injection H as <-.
  destruct (write_reserve_value _ _ _ _ Et) as [Hin Hkeep].
  exists (set_reserve tbl nb). rewrite lookup_insert_eq. split; [done|].
  split; [intros ts ch; apply Hkeep|].
  intros ts ch d Hel.
  assert (Hres : reserved (set_reserve tbl nb) ts ch = Some true).
  { apply Hin. apply list_elem_of_fmap. by exists (ts, ch, d). }
  split; [exact Hres|]. intros other. split.
  - unfold _choose_channel. intros Hc.
    destruct (free_channels settings (set_reserve tbl nb) other ts) as [k|] eqn:Ek;
      [|discriminate].
    simpl in Hc. assert (Hk : ch ∈ k).
    { rewrite <- (Hperm k). destruct (shuffle k); [discriminate|].
      injection Hc as ->. left. }
    destruct (free_channels_free _ _ _ _ _ Ek ch Hk) as (_ & Hf & _). congruence.
  - unfold _choose_channel. intros Hc.
    destruct (free_channels settings other (set_reserve tbl nb) ts) as [k|] eqn:Ek;
      [|discriminate].
    simpl in Hc. assert (Hk : ch ∈ k).
    { rewrite <- (Hperm k). destruct (shuffle k); [discriminate|].
      injection Hc as ->. left. }
    destruct (free_channels_free _ _ _ _ _ Ek ch Hk) as (_ & _ & Hf). congruence.
Qed.

Lemma _reserve_cell_neighbor_blocks_witness :
  (∀ l : list Z, ex_shuffle l ≡ₚ l)
  ∧ ex_booted !! 0 = Some (boot ex_settings 0 (ex_mote 0 1))
  ∧ _reserve_cell_neighbor [(3, 1, DIR_TX)] 0 ex_booted = Some ex_reserved
  ∧ ∃ nb', ex_reserved !! 0 = Some nb'
           ∧ reserved nb' 3 1 = Some true
           ∧ _choose_channel ex_shuffle ex_settings nb' ex_booted_mote 3 ≠ Some 1.
Proof.
  assert (H1 : ∀ l : list Z, ex_shuffle l ≡ₚ l) by reflexivity.
  assert (H2 : ex_booted !! 0 = Some (boot ex_settings 0 (ex_mote 0 1))) by reflexivity.
  assert (H3 : _reserve_cell_neighbor [(3, 1, DIR_TX)] 0 ex_booted = Some ex_reserved)
    by (vm_compute; reflexivity).
  split; [exact H1|]. split; [exact H2|]. split; [exact H3|].
  destruct (_reserve_cell_neighbor_blocks ex_shuffle ex_settings [(3, 1, DIR_TX)] 0
              ex_booted ex_reserved _ H1 H2 H3) as (nb' & Hnb' & _ & Hcells).
  exists nb'. split; [exact Hnb'|].
  destruct (Hcells 3 1 DIR_TX ltac:(left)) as [Hr Hc].
  split; [exact Hr|]. exact (proj1 (Hc ex_booted_mote)).
Defined.

(** X14. When [_delete_cell_neighbor(cells, neighbor)] returns, every
    cell of [cells] is free in the reserve table of [neighbor], however
    often it had been reserved before (the table keeps no count of the
    reservations); what was free stays free, [neighbor] changes in its
    reserve table only and no other mote changes. *)
Theorem _delete_cell_neighbor_frees (cells : list (Z * Z)) neighbor (w w' : network)
    (nb : mote) :
  w !! neighbor = Some nb →
  _delete_cell_neighbor cells neighbor w = Some w' →
  ∃ nb',
    w' !! neighbor = Some nb'
    ∧ nb' = set_reserve (reserve nb') nb
    ∧ (∀ ts ch, (ts, ch) ∈ cells → reserved nb' ts ch = Some false)
    ∧ (∀ ts ch, reserved nb ts ch = Some false → reserved nb' ts ch = Some false)
    ∧ (∀ i, i ≠ neighbor → w' !! i = w !! i).
Proof.
  intros Hnb H. unfold _delete_cell_neighbor, write_reserve in H.
  rewrite Hnb in H. simpl in H.
  destruct (foldM _ _ (reserve nb)) as [tbl|] eqn:Et; [|done]. simpl in H.
  injection H as <-.
  destruct (write_reserve_value _ _ _ _ Et) as [Hin Hkeep].
  exists (set_reserve tbl nb). rewrite lookup_insert_eq. split; [done|].
  split; [by destruct nb|]. split; [exact Hin|]. split; [exact Hkeep|].
  intros i Hne. by rewrite lookup_insert_ne.
Qed.

Lemma _delete_cell_neighbor_frees_witness :
  (∃ nb, ex_reserved !! 0 = Some nb ∧ reserved nb 3 1 = Some true)
  ∧ _delete_cell_neighbor [(3, 1)] 0 ex_reserved = Some ex_unreserved
  ∧ ∃ nb', ex_unreserved !! 0 = Some nb' ∧ reserved nb' 3 1 = Some false.
Proof.
  assert (H1 : ∃ nb, ex_reserved !! 0 = Some nb ∧ reserved nb 3 1 = Some true).
  { eexists. split; [vm_compute; reflexivity|]. vm_compute. reflexivity. }
  assert (H2 : _delete_cell_neighbor [(3, 1)] 0 ex_reserved = Some ex_unreserved)
    by (vm_compute; reflexivity).
  split; [exact H1|]. split; [exact H2|].
  destruct H1 as (nb & Hnb & _).
  destruct (_delete_cell_neighbor_frees [(3, 1)] 0 ex_reserved ex_unreserved nb Hnb H2)
    as (nb' & Hnb' & _ & Hfree & _).
  exists nb'. split; [exact Hnb'|]. apply Hfree. left.
Defined.

(** ** The end of a transmission slot: the ACK *)

(** X15. When [txDone] runs with an ACK for the DATA packet at the head
    of the data queue, the packet leaves the queue, the cell of the slot
    counts one more acknowledged transmission and gets a 1 at the end of
    its history, the queueing delay (the ASN less the ASN at which the
    packet was built) is logged, the time-correction slot becomes the ASN
    when the cell leads to the preferred parent, no counter of the mote
    moves, and the mote waits for nothing any more ([None], or the shared
    slot with [queuing]). *)
Theorem txDone_data_acked settings asn rnd self isNACKed (w : network) (m : mote)
    (c : cell) (rx p : Z) (v : packet) (rest : list Z) :
  slotframeLength settings ≠ 0 →
  w !! self = Some m →
  schedule m !! (asn `mod` slotframeLength settings) = Some c →
  cell_dir c = DIR_TX ∨ cell_dir c = DIR_SHARED →
  cell_neighbor c = Some rx →
  is_Some (w !! rx) →
  waitingFor m = Some DIR_TX ∨ waitingFor m = Some DIR_SHARED →
  pktToSend m = Some p →
  packets m !! p = Some v →
  pk_type v = "DATA"%string →
  txQueue m = p :: rest →
  ∃ w' m' c',
    txDone settings asn rnd self true isNACKed w = Some w'
    ∧ w' !! self = Some m'
    ∧ txQueue m' = rest
    ∧ schedule m' !! (asn `mod` slotframeLength settings) = Some c'
    ∧ numTxAck c' = numTxAck c + 1
    ∧ numTx c' = numTx c
    ∧ history c' = history c ++ [1]
    ∧ queuestats_delay m' = queuestats_delay m ++ [asn - pk_asn v]
    ∧ timeCorrectedSlot m' = (if bool_decide (cell_neighbor c = preferredParent m)
                              then Some asn else timeCorrectedSlot m)
    ∧ motestats m' = motestats m
    ∧ waitingFor m' = (if bool_decide (queuing settings = 0) then None
                       else Some DIR_SHARED).
Proof.
  intros Hsf Hw Hc Hdir Hrx Hrxm Hwait Hp Hv Hty Hq.
  set (ts := asn `mod` slotframeLength settings) in *.
  set (c1 := set_history (history c ++ [1]) (set_numTxAck (numTxAck c + 1) c)).
  set (m1 := set_schedule (<[ts := c1]> (schedule m)) m).
  set (m2 := _logQueueDelayStat (asn - pk_asn v) m1).
  set (m3 := if bool_decide (cell_neighbor c = preferredParent m)
             then set_timeCorrectedSlot (Some asn) m2 else m2).
  set (m4 := set_txQueue rest m3).
  set (m5 := set_waitingFor (if bool_decide (queuing settings = 0) then None
                             else Some DIR_SHARED) m4).
  assert (Hs3 : schedule m3 = <[ts := c1]> (schedule m)).
  { unfold m3. by case_bool_decide. }
  assert (Hm5s : schedule m5 = <[ts := c1]> (schedule m)) by exact Hs3.
  assert (E3 : time_correction asn ts m2 = Some m3).
  { unfold time_correction. simpl. rewrite lookup_insert_eq. simpl.
    unfold m3. by case_bool_decide. }
  assert (E4 : tx_acked settings p m3 = Some m4).
  { unfold tx_acked.
    assert (Hk3 : packets m3 = packets m) by (unfold m3; by case_bool_decide).
    assert (Hq3 : txQueue m3 = p :: rest) by (unfold m3; by case_bool_decide).
    rewrite Hk3, Hv. simpl.
    rewrite (bool_decide_eq_false_2 (pk_type v = "CONTROL"%string)) by (rewrite Hty; done).
    rewrite (bool_decide_eq_true_2 _ Hty).
    unfold queue_remove. rewrite Hq3, (queue_index_head _ _ _ _ Hv). done. }
  destruct (canbeInterfered_is_Some self ts (<[self := m5]> (<[self := m4]> w)) m5 c1 rx)
    as [flag Eflag].
  { apply lookup_insert_eq. }
  { rewrite Hm5s. apply lookup_insert_eq. }
  { done. }
  { destruct (decide (rx = self)) as [->|?].
    - rewrite lookup_insert_eq. eauto.
    - rewrite !lookup_insert_ne by done. done. }
  assert (Etx : txDone settings asn rnd self true isNACKed w
                = Some (<[self := set_schedule
                             (<[ts := set_debug_canbeInterfered
                                        (debug_canbeInterfered c1 ++ [flag]) c1]>
                                (<[ts := c1]> (schedule m))) m5]>
                          (<[self := m5]> (<[self := m4]> w)))).
  { unfold txDone. rewrite bool_decide_eq_false_2 by done. fold ts.
    rewrite Hw. simpl. rewrite Hc. simpl.
    assert (bool_decide (cell_dir c = DIR_TX) || bool_decide (cell_dir c = DIR_SHARED)
            = true) as -> by (destruct Hdir as [-> | ->]; done).
    assert (bool_decide (waitingFor m = Some DIR_TX)
            || bool_decide (waitingFor m = Some DIR_SHARED) = true) as ->
      by (destruct Hwait as [-> | ->]; done).
    simpl.
    assert (E1 : update_cell ts (λ c0, set_history (history c0 ++ [1])
                                         (set_numTxAck (numTxAck c0 + 1) c0)) m
                 = Some m1) by (unfold update_cell; rewrite Hc; done).
    rewrite E1. simpl.
    rewrite Hp. simpl. rewrite Hv. simpl. fold m2. rewrite E3. simpl.
    rewrite E4. simpl. rewrite lookup_insert_eq. simpl. fold m5.
    rewrite Eflag. simpl. unfold update_cell. rewrite Hm5s, lookup_insert_eq. simpl.
    done. }
  eexists _, _, _. split; [exact Etx|]. split; [apply lookup_insert_eq|].
  simpl. split; [done|]. split; [apply lookup_insert_eq|].
  simpl. split; [done|]. split; [done|]. split; [done|].
  unfold m3. case_bool_decide; simpl; done.
Qed.

Lemma txDone_data_acked_witness :
  slotframeLength ex_settings ≠ 0
  ∧ line_last_retry !! 1 = Some line_sender
  ∧ schedule line_sender !! (97 `mod` slotframeLength ex_settings) = Some line_sender_cell
  ∧ pktToSend line_sender = Some 0
  ∧ packets line_sender !! 0 = Some line_sender_packet
  ∧ txQueue line_sender = [0]
  ∧ ∃ w' m', txDone ex_settings 97 1 1 true false line_last_retry = Some w'
             ∧ w' !! 1 = Some m'
             ∧ txQueue m' = [].
Proof.
  assert (H0 : slotframeLength ex_settings ≠ 0) by (vm_compute; discriminate).
  assert (H1 : line_last_retry !! 1 = Some line_sender) by (vm_compute; reflexivity).
  assert (H2 : schedule line_sender !! (97 `mod` slotframeLength ex_settings)
               = Some line_sender_cell) by (vm_compute; reflexivity).
  assert (H3 : cell_dir line_sender_cell = DIR_TX ∨ cell_dir line_sender_cell = DIR_SHARED)
    by (left; vm_compute; reflexivity).
  assert (H4 : cell_neighbor line_sender_cell = Some 0) by (vm_compute; reflexivity).
  assert (H5 : is_Some (line_last_retry !! 0)).
  { apply (bool_decide_unpack _). vm_compute. exact I. }
  assert (H6 : waitingFor line_sender = Some DIR_TX ∨ waitingFor line_sender = Some DIR_SHARED)
    by (left; vm_compute; reflexivity).
  assert (H7 : pktToSend line_sender = Some 0) by (vm_compute; reflexivity).
  assert (H8 : packets line_sender !! 0 = Some line_sender_packet)
    by (vm_compute; reflexivity).
  assert (H9 : pk_type line_sender_packet = "DATA"%string) by (vm_compute; reflexivity).
  assert (H10 : txQueue line_sender = [0]) by (vm_compute; reflexivity).
  split; [exact H0|]. split; [exact H1|]. split; [exact H2|]. split; [exact H7|].
  split; [exact H8|]. split; [exact H10|].
  destruct (txDone_data_acked ex_settings 97 1 1 false line_last_retry line_sender
              line_sender_cell 0 0 line_sender_packet [] H0 H1 H2 H3 H4 H5 H6 H7 H8 H9 H10)
    as (w' & m' & c' & E & Hm' & Hq & _).
  exists w', m'. split; [exact E|]. split; [exact Hm'|exact Hq].
Defined.

(** ** The end of a reception slot: DATA frames *)

Lemma getTxCells_nil (m : mote) :
  getTxCells m = [] ↔ ∀ ts c, schedule m !! ts = Some c → cell_dir c ≠ DIR_TX.
Proof.
  unfold getTxCells. split.
  - intros Hnil ts c Hc Hd.
    assert (Hin : (ts, cell_ch c, cell_neighbor c)
                  ∈ omap (λ '(ts, c), if bool_decide (cell_dir c = DIR_TX)
                                      then Some (ts, cell_ch c, cell_neighbor c) else None)
                         (map_to_list (schedule m))).
    { apply list_elem_of_omap. exists (ts, c). split; [by apply elem_of_map_to_list|].
      by rewrite bool_decide_eq_true_2. }
    rewrite Hnil in Hin. inversion Hin.
  - intros Hno.
    destruct (omap _ (map_to_list (schedule m))) as [|x l] eqn:E; [done|].
    exfalso. assert (Hin : x ∈ x :: l) by left. rewrite <- E in Hin.
    apply list_elem_of_omap in Hin as ([ts c] & Hel & Hf).
    apply elem_of_map_to_list in Hel.
    case_bool_decide; [|done]. by apply (Hno ts c).
Qed.

(** X16. A DATA frame that the DAG root receives (its slot has a cell,
    it is listening, its counters are there and the payload holds the
    origin, the ASN of the origin and the number of hops): [rxDone]
    acknowledges it, the cell counts one more reception,
    [appReachesDagroot] goes up by one, the latency (the ASN less the ASN of
    the origin) and the number of hops are logged, and nothing is queued:
    the root relays nothing. No other mote changes. *)
Theorem rxDone_data_at_root shuffle getNextTS settings asn self data smac dmac
    (origin t0 hops : Z) (more : list Z) (w : network) (m : mote) (c : cell) (n : Z) :
  slotframeLength settings ≠ 0 →
  w !! self = Some m →
  schedule m !! (asn `mod` slotframeLength settings) = Some c →
  waitingFor m = Some DIR_RX ∨ waitingFor m = Some DIR_SHARED →
  dagRoot m = true →
  motestats m !! "appReachesDagroot"%string = Some n →
  ∃ m',
    rxDone shuffle getNextTS settings asn self (Some "DATA"%string) data (Some smac) dmac
      (Some (origin :: t0 :: hops :: more)) w
    = Some (true, false, <[self := m']> w)
    ∧ schedule m' = <[asn `mod` slotframeLength settings := set_numRx (numRx c + 1) c]>
                      (schedule m)
    ∧ motestats m' = <["appReachesDagroot"%string := n + 1]> (motestats m)
    ∧ packetLatencies m' = packetLatencies m ++ [asn - t0]
    ∧ packetHops m' = packetHops m ++ [hops]
    ∧ txQueue m' = txQueue m ∧ controlQueue m' = controlQueue m
    ∧ waitingFor m' = (if bool_decide (queuing settings = 0) then None
                       else Some DIR_SHARED).
Proof.
  intros Hsf Hw Hc Hwait Hroot Hn. unfold rxDone.
  rewrite bool_decide_eq_false_2 by done. rewrite Hw. simpl.
  rewrite bool_decide_eq_true_2 by (rewrite Hc; eauto). simpl.
  assert (bool_decide (waitingFor m = Some DIR_RX)
          || bool_decide (waitingFor m = Some DIR_SHARED) = true) as ->
    by (destruct Hwait as [-> | ->]; done).
  simpl. unfold rx_data, update_cell. rewrite Hc. simpl. rewrite Hroot.
  unfold _incrementMoteStats. simpl. rewrite Hn. simpl.
  rewrite lookup_insert_eq. simpl. rewrite insert_insert_eq.
  eexists. split; [reflexivity|]. simpl. done.
Qed.

Lemma rxDone_data_at_root_witness :
  slotframeLength ex_settings ≠ 0
  ∧ line_rooted !! 0 = Some (role_setDagRoot line_root)
  ∧ dagRoot (role_setDagRoot line_root) = true
  ∧ ∃ m', rxDone ex_shuffle ex_getNextTS ex_settings 53 0 (Some "DATA"%string) None
            (Some 1) (Some 0) (Some [1; 50; 1]) line_rooted
          = Some (true, false, <[0 := m']> line_rooted)
          ∧ packetLatencies m' = [3] ∧ packetHops m' = [1].
Proof.
  assert (H0 : slotframeLength ex_settings ≠ 0) by (vm_compute; discriminate).
  assert (H1 : line_rooted !! 0 = Some (role_setDagRoot line_root))
    by apply lookup_insert_eq.
  assert (H2 : ∃ c, schedule (role_setDagRoot line_root)
                      !! (53 `mod` slotframeLength ex_settings) = Some c).
  { apply (bool_decide_unpack _). vm_compute. exact I. }
  destruct H2 as [c H2].
  assert (H3 : waitingFor (role_setDagRoot line_root) = Some DIR_RX
               ∨ waitingFor (role_setDagRoot line_root) = Some DIR_SHARED)
    by (right; vm_compute; reflexivity).
  assert (H4 : dagRoot (role_setDagRoot line_root) = true) by reflexivity.
  assert (H5 : motestats (role_setDagRoot line_root) !! "appReachesDagroot"%string = Some 0)
    by (vm_compute; reflexivity).
  split; [exact H0|]. split; [exact H1|]. split; [exact H4|].
  destruct (rxDone_data_at_root ex_shuffle ex_getNextTS ex_settings 53 0 None 1 (Some 0)
              1 50 1 [] line_rooted (role_setDagRoot line_root) c 0 H0 H1 H2 H3 H4 H5)
    as (m' & E & _ & _ & Hl & Hh & _).
  exists m'. split; [exact E|]. split; [exact Hl | exact Hh].
Defined.

(** X17. A DATA frame that a mote which is not the DAG root receives from
    [smac] (its slot has a cell, it is listening, its counters are there, it
    counts the traffic of [smac], and the payload holds the origin, the ASN
    of the origin and the number of hops): the cell counts one more
    reception and the incoming traffic of [smac] goes up by one. The frame
    is relayed exactly when the mote has a preferred parent, has a TX cell
    and its data queue does not hold [TSCH_QUEUE_SIZE] packets: a new
    packet with the same payload but one more hop and [TSCH_MAXTXRETRIES]
    retries goes to the end of the data queue, [appRelayed] goes up by one
    and the frame is acknowledged. Otherwise nothing is queued and the
    frame is refused with a NACK. *)
Theorem rxDone_data_relay shuffle getNextTS settings asn self data smac dmac
    (origin t0 hops : Z) (more : list Z) (w : network) (m : mote) (c : cell) (n : Z) :
  slotframeLength settings ≠ 0 →
  w !! self = Some m →
  schedule m !! (asn `mod` slotframeLength settings) = Some c →
  waitingFor m = Some DIR_RX ∨ waitingFor m = Some DIR_SHARED →
  dagRoot m = false →
  stats_ready m →
  inTraffic m !! smac = Some n →
  ∃ ok m',
    rxDone shuffle getNextTS settings asn self (Some "DATA"%string) data (Some smac) dmac
      (Some (origin :: t0 :: hops :: more)) w
    = Some (ok, negb ok, <[self := m']> w)
    ∧ (ok = true ↔ preferredParent m ≠ None
                   ∧ (∃ ts c, schedule m !! ts = Some c ∧ cell_dir c = DIR_TX)
                   ∧ Z.of_nat (length (txQueue m)) ≠ TSCH_QUEUE_SIZE)
    ∧ schedule m' = <[asn `mod` slotframeLength settings := set_numRx (numRx c + 1) c]>
                      (schedule m)
    ∧ inTraffic m' = <[smac := n + 1]> (inTraffic m)
    ∧ (ok = true →
       ∃ r v, packets m !! r = None
              ∧ packets m' !! r = Some v
              ∧ txQueue m' = txQueue m ++ [r]
              ∧ pk_payload v = origin :: t0 :: (hops + 1) :: more
              ∧ pk_type v = "DATA"%string ∧ pk_asn v = asn
              ∧ retriesLeft v = TSCH_MAXTXRETRIES
              ∧ ∃ k, motestats m !! "appRelayed"%string = Some k
                     ∧ motestats m' = <["appRelayed"%string := k + 1]> (motestats m))
    ∧ (ok = false → txQueue m' = txQueue m ∧ packets m' = packets m)
    ∧ waitingFor m' = (if bool_decide (queuing settings = 0) then None
                       else Some DIR_SHARED).
Proof.
  intros Hsf Hw Hc Hwait Hroot Hst Hin. unfold rxDone.
  rewrite bool_decide_eq_false_2 by done. rewrite Hw. simpl.
  rewrite bool_decide_eq_true_2 by (rewrite Hc; eauto). simpl.
  assert (bool_decide (waitingFor m = Some DIR_RX)
          || bool_decide (waitingFor m = Some DIR_SHARED) = true) as ->
    by (destruct Hwait as [-> | ->]; done).
  simpl. unfold rx_data, update_cell. rewrite Hc. simpl. rewrite Hroot.
  unfold _otf_incrementIncomingTraffic. simpl. rewrite Hin. simpl.
  assert (Hset : py_setitem (origin :: t0 :: hops :: more) 2 (hops + 1)
                 = Some (origin :: t0 :: (hops + 1) :: more)).
  { unfold py_setitem. rewrite bool_decide_eq_true_2 by lia.
    rewrite bool_decide_eq_true_2 by (simpl; lia). done. }
  rewrite Hset. simpl.
  set (ts := asn `mod` slotframeLength settings) in *.
  set (m1 := set_inTraffic (<[smac := n + 1]> (inTraffic m))
               (set_schedule (<[ts := set_numRx (numRx c + 1) c]> (schedule m)) m)).
  set (v := Build_packet asn "DATA" data None None (origin :: t0 :: (hops + 1) :: more)
              TSCH_MAXTXRETRIES).
  assert (Hst1 : ∀ k, k ∈ motestats_keys → ∃ x, motestats m !! k = Some x).
  { intros k Hk. by apply stats_ready_lookup. }
  assert (Htx : getTxCells m1 = []
                ↔ ¬ ∃ ts c, schedule m !! ts = Some c ∧ cell_dir c = DIR_TX).
  { rewrite getTxCells_nil. simpl. split.
    - intros Hno (ts' & c' & Hc' & Hd').
      destruct (decide (ts' = ts)) as [->|Hne].
      + apply (Hno ts (set_numRx (numRx c + 1) c)); [apply lookup_insert_eq|].
        simpl. congruence.
      + apply (Hno ts' c'); [by rewrite lookup_insert_ne|done].
    - intros Hno ts' c' Hc' Hd'. apply Hno.
      destruct (decide (ts' = ts)) as [->|Hne].
      + rewrite lookup_insert_eq in Hc'. injection Hc' as <-. simpl in Hd'. eauto.
      + rewrite lookup_insert_ne in Hc' by done. eauto. }
  unfold _tsch_enqueue. change (preferredParent m1) with (preferredParent m).
  destruct (preferredParent m) as [pp|] eqn:Epp.
  2:{ destruct (Hst1 "droppedNoRoute"%string) as [x Hx]; [unfold motestats_keys; repeat constructor|].
      unfold _incrementMoteStats. simpl. rewrite Hx. simpl.
      rewrite lookup_insert_eq. simpl. rewrite insert_insert_eq.
      eexists false, _. split; [reflexivity|]. simpl.
      split; [split; [done|by intros [? _]]|]. done. }
  destruct (decide (getTxCells m1 = [])) as [Hnil|Hnil].
  { rewrite (bool_decide_eq_true_2 _ Hnil).
    destruct (Hst1 "droppedNoTxCells"%string) as [x Hx]; [unfold motestats_keys; repeat constructor|].
    unfold _incrementMoteStats. simpl. rewrite Hx. simpl.
    rewrite lookup_insert_eq. simpl. rewrite insert_insert_eq.
    eexists false, _. split; [reflexivity|]. simpl.
    split; [split; [done|]|done].
    intros (_ & Hex & _). by apply Htx in Hnil. }
  rewrite (bool_decide_eq_false_2 _ Hnil). simpl.
  assert (Hex : ∃ ts c, schedule m !! ts = Some c ∧ cell_dir c = DIR_TX).
  { destruct (decide (∃ ts c, schedule m !! ts = Some c ∧ cell_dir c = DIR_TX)) as [?|Hn];
      [done|]. by apply Htx in Hn. }
  destruct (decide (Z.of_nat (length (txQueue m)) = TSCH_QUEUE_SIZE)) as [Hfull|Hfull].
  { rewrite (bool_decide_eq_true_2 _ Hfull).
    destruct (Hst1 "droppedQueueFull"%string) as [x Hx]; [unfold motestats_keys; repeat constructor|].
    unfold _incrementMoteStats. simpl. rewrite Hx. simpl.
    rewrite lookup_insert_eq. simpl. rewrite insert_insert_eq.
    eexists false, _. split; [reflexivity|]. simpl.
    split; [split; [done|by intros (_ & _ & ?)]|done]. }
  rewrite (bool_decide_eq_false_2 _ Hfull). rewrite andb_false_r.
  destruct (Hst1 "appRelayed"%string) as [k Hk]; [unfold motestats_keys; repeat constructor|].
  assert (Hfresh : packets m !! fresh (dom (packets m)) = None)
    by (apply not_elem_of_dom, is_fresh).
  unfold new_packet, _incrementMoteStats. simpl. rewrite Hk. simpl.
  rewrite lookup_insert_eq. simpl. rewrite insert_insert_eq.
  eexists true, _. split; [reflexivity|]. simpl.
  split; [split; [done|done]|]. split; [done|]. split; [done|].
  split; [|done].
  intros _. exists (fresh (dom (packets m))), v.
  split; [exact Hfresh|]. split; [apply lookup_insert_eq|].
  split; [done|]. split; [done|]. split; [done|]. split; [done|]. split; [done|].
  exists k. done.
Qed.

Lemma rxDone_data_relay_witness :
  slotframeLength ex_settings ≠ 0
  ∧ line_w !! 1 = Some line_mote1
  ∧ dagRoot line_mote1 = false
  ∧ stats_ready line_mote1
  ∧ inTraffic line_mote1 !! 2 = Some 0
  ∧ ∃ ok m', rxDone ex_shuffle ex_getNextTS ex_settings 51 1 (Some "DATA"%string) None
               (Some 2) (Some 1) (Some [2; 50; 1]) line_w
             = Some (ok, negb ok, <[1 := m']> line_w)
             ∧ inTraffic m' = <[2 := 0 + 1]> (inTraffic line_mote1).
Proof.
  assert (H0 : slotframeLength ex_settings ≠ 0) by (vm_compute; discriminate).
  assert (H1 : line_w !! 1 = Some line_mote1) by (vm_compute; reflexivity).
  assert (H2 : ∃ c, schedule line_mote1 !! (51 `mod` slotframeLength ex_settings) = Some c).
  { apply (bool_decide_unpack _). vm_compute. exact I. }
  destruct H2 as [c H2].
  assert (H3 : waitingFor line_mote1 = Some DIR_RX ∨ waitingFor line_mote1 = Some DIR_SHARED)
    by (right; vm_compute; reflexivity).
  assert (H4 : dagRoot line_mote1 = false) by (vm_compute; reflexivity).
  assert (H5 : stats_ready line_mote1).
  { intros k Hk. unfold motestats_keys in Hk.
    repeat (apply elem_of_cons in Hk as [->|Hk]; [vm_compute; eauto|]).
    inversion Hk. }
  assert (H6 : inTraffic line_mote1 !! 2 = Some 0) by (vm_compute; reflexivity).
  split; [exact H0|]. split; [exact H1|]. split; [exact H4|]. split; [exact H5|].
  split; [exact H6|].
  destruct (rxDone_data_relay ex_shuffle ex_getNextTS ex_settings 51 1 None 2 (Some 1)
              2 50 1 [] line_w line_mote1 c 0 H0 H1 H2 H3 H4 H5 H6)
    as (ok & m' & E & _ & _ & Hi & _).
  exists ok, m'. split; [exact E | exact Hi].
Defined.

(** ** The ETX of a link *)

Lemma sum_tx_cells_bounds neighbor (s : gmap Z cell) (tx0 ack0 : Z) :
  (∀ ts c, s !! ts = Some c → cell_neighbor c = Some neighbor → cell_dir c = DIR_TX →
           0 ≤ numTxAck c ≤ numTx c) →
  ack0 ≤ tx0 →
  ∃ tx ack, sum_tx_cells neighbor s (tx0, ack0) = (tx, ack)
            ∧ ack0 ≤ ack ∧ ack ≤ tx ∧ tx0 ≤ tx.
Proof.
  intros Hcells. unfold sum_tx_cells.
  assert (Hl : ∀ x, x ∈ map_to_list s →
               cell_neighbor x.2 = Some neighbor → cell_dir x.2 = DIR_TX →
               0 ≤ numTxAck x.2 ≤ numTx x.2).
  { intros [ts c] Hin. apply elem_of_map_to_list in Hin. simpl. by apply (Hcells ts). }
  clear Hcells. revert tx0 ack0. induction (map_to_list s) as [|[ts c] l IH];
    intros tx0 ack0 Hle; simpl.
  - exists tx0, ack0. split; [done|]. lia.
  - assert (Hc := Hl (ts, c) ltac:(left)). simpl in Hc.
    assert (Hl' : ∀ x, x ∈ l → cell_neighbor x.2 = Some neighbor → cell_dir x.2 = DIR_TX →
                  0 ≤ numTxAck x.2 ≤ numTx x.2) by (intros ? ?; apply Hl; by right).
    destruct (decide (cell_neighbor c = Some neighbor)) as [Hn|Hn];
      [destruct (decide (cell_dir c = DIR_TX)) as [Hd|Hd]|].
    + rewrite (bool_decide_eq_true_2 _ Hn), (bool_decide_eq_true_2 _ Hd). simpl.
      specialize (Hc Hn Hd).
      destruct (IH Hl' (tx0 + numTx c) (ack0 + numTxAck c) ltac:(lia))
        as (tx & ack & E & ? & ? & ?).
      exists tx, ack. split; [exact E|]. lia.
    + rewrite (bool_decide_eq_false_2 _ Hd), andb_false_r. by apply IH.
    + rewrite (bool_decide_eq_false_2 _ Hn). simpl. by apply IH.
Qed.

Lemma Qfloor_pdr_bounds (pdr : Q) :
  (0 <= pdr)%Q → (pdr <= 1)%Q →
  0 ≤ Qfloor (pdr * inject_Z NUM_SUFFICIENT_TX) ≤ NUM_SUFFICIENT_TX.
Proof.
  intros H0 H1. split.
  - change 0 with (Qfloor (inject_Z 0)). apply Qfloor_resp_le.
    apply Qmult_le_0_compat; [exact H0|]. by compute.
  - rewrite <- (Qfloor_Z NUM_SUFFICIENT_TX) at 2. apply Qfloor_resp_le.
    rewrite <- (Qmult_1_l (inject_Z NUM_SUFFICIENT_TX)) at 2.
    apply Qmult_le_compat_r; [exact H1|]. by compute.
Qed.

Lemma Qdiv_ge_1 (tx ack : Z) : 0 < ack → ack ≤ tx → (1 <= inject_Z tx / inject_Z ack)%Q.
Proof.
  intros Hpos Hle. apply Qle_shift_div_l.
  - change 0%Q with (inject_Z 0). by rewrite <- Zlt_Qlt.
  - rewrite Qmult_1_l. by rewrite <- Zle_Qle.
Qed.

(** X18. For a neighbor with a PDR between 0 and 1, and when no TX cell
    to it has more acknowledged transmissions than transmissions (nor a
    negative number of them): [_estimateETX] returns nothing, and so does
    [_rpl_calcRankIncrease], exactly when the acknowledged transmissions add
    up to 0, which needs a PDR below 1/10; otherwise the ETX is at least 1
    and the rank increase is at least
    [2 * RPL_MIN_HOP_RANK_INCREASE] = 512. The floats are rationals. *)
Theorem _estimateETX_at_least_1 neighbor (m : mote) (pdr : Q) :
  PDR m !! neighbor = Some pdr →
  (0 <= pdr)%Q → (pdr <= 1)%Q →
  (∀ ts c, schedule m !! ts = Some c → cell_neighbor c = Some neighbor →
           cell_dir c = DIR_TX → 0 ≤ numTxAck c ≤ numTx c) →
  ((_estimateETX neighbor m = Some None ∧ _rpl_calcRankIncrease neighbor m = Some None
    ∧ (pdr < 1 # 10)%Q)
   ∨ (∃ etx r, _estimateETX neighbor m = Some (Some etx)
               ∧ (1 <= etx)%Q
               ∧ _rpl_calcRankIncrease neighbor m = Some (Some r)
               ∧ 2 * RPL_MIN_HOP_RANK_INCREASE ≤ r)).
Proof.
  intros Hpdr H0 H1 Hcells.
  destruct (Qfloor_pdr_bounds pdr H0 H1) as [Hf0 Hf1].
  destruct (sum_tx_cells_bounds neighbor (schedule m) NUM_SUFFICIENT_TX
              (Qfloor (pdr * inject_Z NUM_SUFFICIENT_TX)) Hcells Hf1)
    as (tx & ack & E & Ha0 & Hat & Ht0).
  unfold _rpl_calcRankIncrease, _estimateETX. rewrite Hpdr.
  cbn [mbind option_bind]. rewrite E.
  destruct (decide (ack = 0)) as [Hz|Hz].
  - left. rewrite (bool_decide_eq_true_2 _ Hz). simpl. split; [done|]. split; [done|].
    assert (Hfl : Qfloor (pdr * inject_Z NUM_SUFFICIENT_TX) = 0) by lia.
    apply Qnot_le_lt. intros Hge.
    assert (1 ≤ Qfloor (pdr * inject_Z NUM_SUFFICIENT_TX)); [|lia].
    change 1 with (Qfloor (inject_Z 1)). apply Qfloor_resp_le.
    apply (Qmult_le_compat_r _ _ (inject_Z NUM_SUFFICIENT_TX)) in Hge; [|by compute].
    eapply Qle_trans; [|exact Hge]. by compute.
  - right. rewrite (bool_decide_eq_false_2 _ Hz). simpl.
    assert (Hetx : (1 <= inject_Z tx / inject_Z ack)%Q) by (apply Qdiv_ge_1; lia).
    assert (Hnz : Qeq_bool (inject_Z tx / inject_Z ack) 0 = false).
    { apply not_true_iff_false. intros Heq. apply Qeq_bool_iff in Heq.
      rewrite Heq in Hetx. by compute in Hetx. }
    rewrite Hnz. eexists _, _. split; [reflexivity|]. split; [exact Hetx|].
    split; [reflexivity|].
    assert (Hbig : (inject_Z (2 * RPL_MIN_HOP_RANK_INCREASE)
                    <= inject_Z (2 * RPL_MIN_HOP_RANK_INCREASE)
                       * (inject_Z tx / inject_Z ack))%Q).
    { rewrite <- (Qmult_1_r (inject_Z (2 * RPL_MIN_HOP_RANK_INCREASE))) at 1.
      apply Qmult_le_l; [by compute|exact Hetx]. }
    unfold py_int.
    assert (Hpos : Qle_bool 0 (inject_Z (2 * RPL_MIN_HOP_RANK_INCREASE)
                               * (inject_Z tx / inject_Z ack)) = true).
    { apply Qle_bool_iff. eapply Qle_trans; [|exact Hbig]. by compute. }
    rewrite Hpos.
    rewrite <- (Qfloor_Z (2 * RPL_MIN_HOP_RANK_INCREASE)) at 1.
    by apply Qfloor_resp_le.
Qed.

Lemma _estimateETX_at_least_1_witness :
  PDR line_mote1 !! 0 = Some 1%Q
  ∧ (∀ ts c, schedule line_mote1 !! ts = Some c → cell_neighbor c = Some 0 →
             cell_dir c = DIR_TX → 0 ≤ numTxAck c ≤ numTx c)
  ∧ ∃ etx r, _estimateETX 0 line_mote1 = Some (Some etx)
             ∧ _rpl_calcRankIncrease 0 line_mote1 = Some (Some r)
             ∧ 2 * RPL_MIN_HOP_RANK_INCREASE ≤ r.
Proof.
  assert (H1 : PDR line_mote1 !! 0 = Some 1%Q) by (vm_compute; reflexivity).
  assert (H2 : ∀ ts c, schedule line_mote1 !! ts = Some c → cell_neighbor c = Some 0 →
                       cell_dir c = DIR_TX → 0 ≤ numTxAck c ≤ numTx c).
  { assert (Hall : map_Forall (λ (_ : Z) (c : cell),
                      cell_neighbor c = Some 0 → cell_dir c = DIR_TX →
                      0 ≤ numTxAck c ≤ numTx c) (schedule line_mote1)).
    { apply (bool_decide_unpack _). vm_compute. exact I. }
    intros ts c Hc. exact (Hall ts c Hc). }
  split; [exact H1|]. split; [exact H2|].
  destruct (_estimateETX_at_least_1 0 line_mote1 1%Q H1 ltac:(by compute) ltac:(by compute)
              H2) as [(_ & _ & Hlt)|(etx & r & E1 & _ & E2 & Hr)].
  - exfalso. revert Hlt. by compute.
  - exists etx, r. split; [exact E1|]. split; [exact E2 | exact Hr].
Defined.

(** ** The collisions in the schedules *)

(** The first loop is one pass over the slots and channels of the TX
    cells. *)
Lemma scheduleCollisions_fold motes :
  scheduleCollisions motes = fst (foldl count_collision (0, []) (tx_slots motes)).
Proof.
  unfold scheduleCollisions, tx_slots, tx_links. f_equal.
  generalize ((0, []) : Z * list (Z * Z)).
  induction motes as [|m motes IH]; intros a; simpl; [done|].
  rewrite IH. rewrite fmap_app, foldl_app. f_equal.
  generalize (map_to_list (schedule m)). intros l. revert a.
  induction l as [|[ts c] l IHl]; intros a; simpl; [done|].
  case_bool_decide; simpl; apply IHl.
Qed.

Lemma txLinks_fold motes :
  txLinks motes = foldl add_link ∅ (tx_links motes).
Proof.
  unfold txLinks, tx_links.
  generalize (∅ : gmap (Z * Z) (list (Z * option Z))).
  induction motes as [|m motes IH]; intros a; simpl; [done|].
  rewrite IH. rewrite foldl_app. f_equal.
  generalize (map_to_list (schedule m)). intros l. revert a.
  induction l as [|[ts c] l IHl]; intros a; simpl; [done|].
  case_bool_decide; simpl; apply IHl.
Qed.

Lemma count_collision_fold l : ∀ n seen n' seen',
  foldl count_collision (n, seen) l = (n', seen') →
  NoDup seen →
  NoDup seen' ∧ (∀ x, x ∈ seen' ↔ x ∈ seen ∨ x ∈ l)
  ∧ n' + Z.of_nat (length seen') = n + Z.of_nat (length seen) + Z.of_nat (length l).
Proof.
  induction l as [|k l IH]; intros n seen n' seen' E Hnd; simpl in E.
  - injection E as <- <-. split; [done|]. split; [|simpl; lia].
    intros x. rewrite elem_of_nil. tauto.
  - case_bool_decide as Hk.
    + destruct (IH _ _ _ _ E Hnd) as (H1 & H2 & H3).
      split; [done|]. split.
      * intros x. rewrite H2, elem_of_cons. split; [tauto|].
        intros [?|[->|?]]; tauto.
      * simpl length. lia.
    + assert (Hnd' : NoDup (seen ++ [k])).
      { apply list.NoDup_app. split; [done|]. split; [|apply NoDup_singleton].
        intros x Hx ->%list_elem_of_singleton. done. }
      destruct (IH _ _ _ _ E Hnd') as (H1 & H2 & H3).
      split; [done|]. split.
      * intros x. rewrite H2, elem_of_app, list_elem_of_singleton, elem_of_cons. tauto.
      * rewrite length_app in H3. simpl length in *. lia.
Qed.

(** X19. [scheduleCollisions] is the number of TX cells of all the motes
    less the number of distinct (slot, channel) pairs they use; it is 0
    exactly when no two TX cells are on the same slot and channel. *)
Theorem scheduleCollisions_counts motes :
  scheduleCollisions motes
  = Z.of_nat (length (tx_slots motes)) - Z.of_nat (length (remove_dups (tx_slots motes)))
  ∧ (scheduleCollisions motes = 0 ↔ NoDup (tx_slots motes)).
Proof.
  rewrite scheduleCollisions_fold.
  destruct (foldl count_collision (0, []) (tx_slots motes)) as [n seen] eqn:E.
  destruct (count_collision_fold _ _ _ _ _ E (NoDup_nil_2)) as (Hnd & Hel & Hlen).
  simpl in *.
  assert (Hp : seen ≡ₚ remove_dups (tx_slots motes)).
  { apply NoDup_Permutation; [done|apply NoDup_remove_dups|].
    intros x. rewrite Hel, elem_of_remove_dups, elem_of_nil. tauto. }
  split; [rewrite <- Hp; lia|].
  split.
  - intros ->.
    assert (Hs : seen ⊆+ tx_slots motes).
    { apply NoDup_submseteq; [done|]. intros x Hx. apply Hel in Hx as [Hx|Hx]; [|done].
      by apply elem_of_nil in Hx. }
    apply submseteq_length_Permutation in Hs; [|lia].
    by rewrite <- Hs.
  - intros Hn.
    assert (Hq : seen ≡ₚ tx_slots motes).
    { apply NoDup_Permutation; [done|done|].
      intros x. rewrite Hel, elem_of_nil. tauto. }
    rewrite Hq in Hlen. lia.
Qed.

Lemma add_link_fold P : ∀ links k,
  default [] (foldl add_link links P !! k)
  = default [] (links !! k) ++ (filter (λ p, p.1 = k) P).*2
  ∧ (is_Some (foldl add_link links P !! k) ↔ is_Some (links !! k) ∨ k ∈ P.*1).
Proof.
  induction P as [|[k0 x] P IH]; intros links k.
  - simpl. rewrite app_nil_r. split; [done|]. rewrite elem_of_nil. tauto.
  - destruct (IH (add_link links (k0, x)) k) as [H1 H2].
    change (foldl add_link links ((k0, x) :: P))
      with (foldl add_link (add_link links (k0, x)) P).
    rewrite H1, H2, filter_cons, fmap_cons, elem_of_cons. cbn [fst snd].
    unfold add_link. destruct (decide (k0 = k)) as [->|Hne].
    + destruct (links !! k) as [l|] eqn:El; rewrite lookup_insert_eq; simpl.
      * rewrite <- app_assoc. split; [done|]. split; [intros _; left; by eexists|].
        intros _. left. by eexists.
      * split; [done|]. split; [intros _; right; by left|]. intros _. left. by eexists.
    + destruct (links !! k0) as [l|] eqn:El; rewrite lookup_insert_ne by done.
      * split; [done|]. split; [tauto|]. intros [?|[?|?]]; [tauto|congruence|tauto].
      * split; [done|]. split; [tauto|]. intros [?|[?|?]]; [tauto|congruence|tauto].
Qed.

Lemma filter_fst_length {A B : Type} `{EqDecision A} (P : list (A * B)) (k : A) :
  length ((filter (λ p, p.1 = k) P).*2) = length (filter (λ k', k' = k) (P.*1)).
Proof.
  rewrite length_fmap. induction P as [|[a b] P IH]; simpl; [done|].
  rewrite !filter_cons. simpl. destruct (decide (a = k)); simpl; by rewrite IH.
Qed.

(** The entries of [txLinks]: one for each slot and channel of a TX cell,
    with the links of the TX cells on it. *)
Lemma txLinks_lookup motes k l :
  txLinks motes !! k = Some l ↔
  k ∈ tx_slots motes ∧ l = (filter (λ p, p.1 = k) (tx_links motes)).*2.
Proof.
  rewrite txLinks_fold. unfold tx_slots.
  destruct (add_link_fold (tx_links motes) ∅ k) as [H1 H2].
  rewrite lookup_empty in H1, H2. simpl in H1.
  split.
  - intros E. rewrite E in H1, H2. simpl in H1. split; [|done].
    destruct (proj1 H2) as [[? ?]|?]; [by eexists|done|done].
  - intros [Hin ->].
    destruct (proj2 H2) as [l' El']; [by right|].
    rewrite El' in H1. simpl in H1. by rewrite El', H1.
Qed.

Lemma txLinks_length motes k l :
  txLinks motes !! k = Some l → length l = tx_cells_on motes k.
Proof.
  intros [_ ->]%txLinks_lookup. unfold tx_cells_on, tx_slots. apply filter_fst_length.
Qed.

Lemma collidedTxs_sum (ll : list (list (Z * option Z))) (n : Z) :
  foldl (λ n links, n + Z.of_nat (length links)) n ll
  = n + Z.of_nat (sum_list_with length ll).
Proof.
  revert n. induction ll as [|l ll IH]; intros n; simpl; [lia|]. rewrite IH. lia.
Qed.

Lemma sum_indicator {A : Type} `{EqDecision A} (K : list A) (x : A) (c : nat) :
  NoDup K → x ∈ K →
  sum_list_with (λ k, if decide (k = x) then c else 0%nat) K = c.
Proof.
  induction K as [|k K IH]; intros Hnd Hin; [by apply elem_of_nil in Hin|].
  simpl. apply list.NoDup_cons in Hnd as [Hk Hnd].
  destruct (decide (k = x)) as [->|Hne].
  - assert (sum_list_with (λ k, if decide (k = x) then c else 0%nat) K = 0%nat) as ->; [|lia].
    clear -Hk. induction K as [|k K IH]; simpl; [done|].
    apply not_elem_of_cons in Hk as [Hne Hk]. rewrite decide_False by done.
    by rewrite IH.
  - apply elem_of_cons in Hin as [->|Hin]; [done|]. by rewrite IH.
Qed.

(** A sum over the distinct keys of the number of occurrences of the keys
    that satisfy [P] counts the elements that satisfy [P]. *)
Lemma sum_occurrences {A : Type} `{EqDecision A} (P : A → Prop) `{∀ k, Decision (P k)}
    (K L : list A) :
  NoDup K → (∀ x, x ∈ L → x ∈ K) →
  sum_list_with (λ k, if decide (P k) then length (filter (λ k', k' = k) L) else 0%nat) K
  = length (filter P L).
Proof.
  intros Hnd. induction L as [|x L IH]; intros Hin.
  - clear. induction K as [|k K IHK]; simpl; [done|].
    simpl in IHK. rewrite IHK. by destruct (decide (P k)).
  - rewrite filter_cons.
    assert (E : ∀ k, (if decide (P k) then length (filter (λ k', k' = k) (x :: L)) else 0%nat)
                = ((if decide (P k) then length (filter (λ k', k' = k) L) else 0)
                   + (if decide (k = x) then (if decide (P x) then 1 else 0) else 0))%nat).
    { intros k. rewrite filter_cons.
      destruct (decide (P k)) as [Hp|Hp]; destruct (decide (x = k)) as [->|Hne]; simpl.
      - rewrite decide_True by done. rewrite decide_True by done. lia.
      - rewrite decide_False by done. lia.
      - rewrite decide_True by done. rewrite decide_False by done. lia.
      - rewrite decide_False by done. lia. }
    assert (Hsum : ∀ K' : list A,
      sum_list_with (λ k, if decide (P k) then length (filter (λ k', k' = k) (x :: L))
                          else 0%nat) K'
      = (sum_list_with (λ k, if decide (P k) then length (filter (λ k', k' = k) L)
                             else 0%nat) K'
         + sum_list_with (λ k, if decide (k = x) then (if decide (P x) then 1 else 0)
                               else 0) K')%nat).
    { induction K' as [|k K' IHK]; simpl; [done|]. rewrite IHK, E. lia. }
    rewrite Hsum, IH by (intros y Hy; apply Hin; by right).
    rewrite sum_indicator by (done || apply Hin; left).
    destruct (decide (P x)); simpl; lia.
Qed.

Lemma occurrences_elem_of {A : Type} `{EqDecision A} (l : list A) (x : A) :
  x ∈ l ↔ (1 ≤ length (filter (λ k', k' = x) l))%nat.
Proof.
  induction l as [|y l IH]; simpl.
  - rewrite elem_of_nil. split; [done|]. simpl; lia.
  - rewrite elem_of_cons, filter_cons. destruct (decide (y = x)) as [->|Hne]; simpl.
    + split; [lia|]. by left.
    + rewrite IH. split; [|tauto]. intros [?|?]; [congruence|done].
Qed.

Lemma NoDup_occurrences {A : Type} `{EqDecision A} (l : list A) :
  NoDup l ↔ ∀ k, (length (filter (λ k', k' = k) l) ≤ 1)%nat.
Proof.
  induction l as [|x l IH].
  - split; [|constructor]. intros _ k; simpl; lia.
  - rewrite list.NoDup_cons, IH. split.
    + intros [Hx Hl] k. rewrite filter_cons. destruct (decide (x = k)) as [->|Hne]; simpl.
      * rewrite occurrences_elem_of in Hx. lia.
      * apply Hl.
    + intros H. split.
      * intros Hx%occurrences_elem_of. specialize (H x). rewrite filter_cons in H.
        rewrite decide_True in H by done. simpl in H. lia.
      * intros k. specialize (H k). rewrite filter_cons in H.
        destruct (decide (x = k)); simpl in H; lia.
Qed.

Lemma filter_length_0 {A : Type} (P : A → Prop) `{∀ k, Decision (P k)} (l : list A) :
  length (filter P l) = 0%nat ↔ ∀ x, x ∈ l → ¬ P x.
Proof.
  induction l as [|y l IH].
  - simpl. split; [|done]. intros _ x Hx. by apply elem_of_nil in Hx.
  - rewrite filter_cons. destruct (decide (P y)) as [Hy|Hy]; simpl.
    + split; [lia|]. intros Hall. destruct (Hall y); [left|done].
    + rewrite IH. split.
      * intros Hall x [->|Hx]%elem_of_cons; [done|by apply Hall].
      * intros Hall x Hx. apply Hall. by right.
Qed.

(** X20. [collidedTxs] is the number of TX cells whose slot and channel
    another TX cell uses as well; it is 0 exactly when no two TX cells are
    on the same slot and channel. *)
Theorem collidedTxs_counts motes :
  collidedTxs motes
  = Z.of_nat (length (filter (λ k, (2 ≤ tx_cells_on motes k)%nat) (tx_slots motes)))
  ∧ (collidedTxs motes = 0 ↔ NoDup (tx_slots motes)).
Proof.
  assert (Heq : collidedTxs motes
    = Z.of_nat (length (filter (λ k, (2 ≤ tx_cells_on motes k)%nat) (tx_slots motes)))).
  { unfold collidedTxs. rewrite collidedTxs_sum, Z.add_0_l. f_equal.
    unfold collidedLinks.
    rewrite <- (sum_occurrences (λ k, (2 ≤ tx_cells_on motes k)%nat)
                  ((map_to_list (txLinks motes)).*1)).
    - assert (Hl : ∀ k l, (k, l) ∈ map_to_list (txLinks motes) →
                          length l = tx_cells_on motes k).
      { intros k l Hkl%elem_of_map_to_list. by apply txLinks_length. }
      revert Hl. generalize (map_to_list (txLinks motes)). intros ml Hl.
      induction ml as [|[k l] ml IH]; [done|].
      rewrite fmap_cons. cbn [omap list_omap sum_list_with fst].
      rewrite <- IH by (intros; apply Hl; by right).
      rewrite (Hl k l) by left. fold (tx_cells_on motes k).
      case_bool_decide; [rewrite decide_True by done|rewrite decide_False by done]; simpl.
      + by rewrite (Hl k l) by left.
      + done.
    - apply NoDup_fst_map_to_list.
    - intros k Hk.
      assert (Hs : txLinks motes !! k = Some (filter (λ p, p.1 = k) (tx_links motes)).*2)
        by (by apply txLinks_lookup).
      apply elem_of_map_to_list in Hs. apply list_elem_of_fmap. by eexists (_, _). }
  split; [done|]. rewrite Heq.
  rewrite NoDup_occurrences.
  assert (E : ∀ n : nat, Z.of_nat n = 0 ↔ n = 0%nat) by (intros; lia).
  rewrite E, filter_length_0. fold (tx_cells_on motes). split.
  - intros Hall k. destruct (decide (k ∈ tx_slots motes)) as [Hin|Hin].
    + specialize (Hall k Hin). fold (tx_cells_on motes k). lia.
    + rewrite occurrences_elem_of in Hin. lia.
  - intros Hall k _. specialize (Hall k). fold (tx_cells_on motes k) in Hall. lia.
Qed.


Lemma foldM_const {A B : Type} (f : B → A → option B) (l : list A) (b : B) :
  (∀ x, x ∈ l → f b x = Some b) → foldM f l b = Some b.
Proof.
  induction l as [|x l IH]; intros H; simpl; [done|].
  rewrite H by left. simpl. apply IH. intros y Hy. apply H. by right.
Qed.

Lemma mote_by_id_elem_of motes m :
  m ∈ motes → is_Some (mote_by_id motes (mote_id m)).
Proof.
  intros Hm. unfold mote_by_id.
  destruct (list_find_elem_of (λ m', mote_id m' = mote_id m) motes m Hm eq_refl) as [[i m'] E].
  rewrite E. by eexists.
Qed.

Lemma tx_links_elem_of motes k tx rx :
  (k, (tx, rx)) ∈ tx_links motes →
  ∃ m c, m ∈ motes ∧ schedule m !! k.1 = Some c ∧ cell_dir c = DIR_TX
         ∧ k.2 = cell_ch c ∧ tx = mote_id m ∧ rx = cell_neighbor c.
Proof.
  unfold tx_links. intros (m & Hin & Hm)%list_elem_of_bind.
  apply list_elem_of_omap in Hin as ([ts c] & Hc & E).
  case_bool_decide as Hd; [|done]. injection E as <- <- <-.
  apply elem_of_map_to_list in Hc. by exists m, c.
Qed.

(** X21. [effectiveCollidedTxs] is 0 whatever the schedules are: the loop
    adds 0 for every pair of colliding links. The neighbor of every TX
    cell is a mote of [engine.motes]. *)
Theorem effectiveCollidedTxs_zero motes :
  (∀ m ts c, m ∈ motes → schedule m !! ts = Some c → cell_dir c = DIR_TX →
             ∃ m', m' ∈ motes ∧ cell_neighbor c = Some (mote_id m')) →
  effectiveCollidedTxs motes = Some 0.
Proof.
  intros Hwf. unfold effectiveCollidedTxs.
  assert (Hl : ∀ links tx rx, links ∈ collidedLinks motes → (tx, rx) ∈ links →
                 is_Some (mote_by_id motes tx)
                 ∧ ∃ m', m' ∈ motes ∧ rx = Some (mote_id m')).
  { intros links tx rx Hlinks Hx. unfold collidedLinks in Hlinks.
    apply list_elem_of_omap in Hlinks as ([k l] & Hkl & E).
    case_bool_decide; [|done]. injection E as ->.
    apply elem_of_map_to_list, txLinks_lookup in Hkl as [_ ->].
    apply list_elem_of_fmap in Hx as ([k' x] & Hx & Hf). simpl in Hx. subst x.
    apply list_elem_of_filter in Hf as [_ Hf].
    apply tx_links_elem_of in Hf as (m & c & Hm & Hc & Hd & _ & -> & ->).
    split; [by apply mote_by_id_elem_of|]. by apply (Hwf m k'.1 c). }

  apply foldM_const. intros links Hlinks.
  apply foldM_const. intros [tx1 rx1] H1.
  apply foldM_const. intros [tx2 rx2] H2.
  destruct (Hl links tx1 rx1 Hlinks H1) as [[t1 Et1] _].
  destruct (Hl links tx2 rx2 Hlinks H2) as [_ (m' & Hm' & ->)].
  destruct (mote_by_id_elem_of motes m' Hm') as [r2m Er].
  destruct (bool_decide (tx1 ≠ tx2) && bool_decide (rx1 ≠ Some (mote_id m'))); [|done].
  rewrite Et1. simpl. rewrite Er. simpl. by destruct (Qgtb _ _).
Qed.

Lemma effectiveCollidedTxs_zero_witness :
  (∀ m ts c, m ∈ line_collided → schedule m !! ts = Some c → cell_dir c = DIR_TX →
             ∃ m', m' ∈ line_collided ∧ cell_neighbor c = Some (mote_id m'))
  ∧ collidedTxs line_collided = 2
  ∧ effectiveCollidedTxs line_collided = Some 0.
Proof.
  assert (H : ∀ m ts c, m ∈ line_collided → schedule m !! ts = Some c →
                        cell_dir c = DIR_TX →
                        ∃ m', m' ∈ line_collided ∧ cell_neighbor c = Some (mote_id m')).
  { assert (Hdec : Forall (λ m, map_Forall (λ _ c, cell_dir c = DIR_TX →
                        cell_neighbor c = Some 0 ∨ cell_neighbor c = Some 1) (schedule m))
                      line_collided)
      by (apply (bool_decide_unpack _); vm_compute; exact I).
    intros m ts c Hm Hc Hd. rewrite list.Forall_forall in Hdec.
    destruct (Hdec m Hm ts c Hc Hd) as [E|E]; rewrite E.
    - exists line_root. split; [left|reflexivity].
    - exists line_mote1. split; [right; left|reflexivity]. }
  split; [exact H|]. split; [vm_compute; reflexivity|].
  exact (effectiveCollidedTxs_zero line_collided H).
Defined.

(** ** The counters of a cell in a TX slot *)

(** The cell of the slot after [txDone]. *)
Lemma txDone_cell settings asn rnd self isACKed isNACKed (w w' : network)
    (m : mote) (c : cell) :
  txDone settings asn rnd self isACKed isNACKed w = Some w' →
  w !! self = Some m →
  schedule m !! (asn `mod` slotframeLength settings) = Some c →
  ∃ m' flag,
    w' !! self = Some m'
    ∧ schedule m' !! (asn `mod` slotframeLength settings)
      = Some (let c1 := if isACKed || isNACKed
                        then set_history (history c ++ [1]) (set_numTxAck (numTxAck c + 1) c)
                        else set_history (history c ++ [0]) c in
              set_debug_canbeInterfered (debug_canbeInterfered c1 ++ [flag]) c1).
Proof.
  intros H Hm Hc. unfold txDone in H.
  destruct (bool_decide (slotframeLength settings = 0)); [discriminate|].
  cbv zeta in H. set (ts := asn `mod` slotframeLength settings) in *.
  rewrite Hm in H. cbn [mbind option_bind] in H.
  rewrite Hc in H. cbn [mbind option_bind] in H.
  destruct (negb (bool_decide (cell_dir c = DIR_TX) || bool_decide (cell_dir c = DIR_SHARED)));
    [discriminate|].
  destruct (negb (bool_decide (waitingFor m = Some DIR_TX)
                  || bool_decide (waitingFor m = Some DIR_SHARED))); [discriminate|].
  match type of H with
  | mbind _ ?e = _ => destruct e as [w2|] eqn:E2; [|discriminate]
  end.
  cbn [mbind option_bind] in H.
  assert (Hmid : ∃ m2, w2 !! self = Some m2
                   ∧ schedule m2 ⊆ <[ts := if isACKed || isNACKed
                        then set_history (history c ++ [1]) (set_numTxAck (numTxAck c + 1) c)
                        else set_history (history c ++ [0]) c]> (schedule m)).
  { destruct isACKed; [|destruct isNACKed]; cbn [orb].
    - destruct (update_cell ts _ m) as [m1|] eqn:E1; [|discriminate].
      cbn [mbind option_bind] in E2.
      apply update_cell_schedule in E1 as (c0 & Hc0 & E1).
      rewrite Hc in Hc0. injection Hc0 as <-.
      destruct (pktToSend m1) as [p|]; [|discriminate]. cbn [mbind option_bind] in E2.
      destruct (packets m1 !! p) as [v|]; [|discriminate]. cbn [mbind option_bind] in E2.
      destruct (time_correction asn ts _) as [m3|] eqn:E3; [|discriminate].
      cbn [mbind option_bind] in E2. apply time_correction_schedule in E3. simpl in E3.
      destruct (tx_acked settings p m3) as [m4|] eqn:E4; [|discriminate].
      cbn [mbind option_bind] in E2. apply tx_acked_schedule in E4.
      injection E2 as <-. eexists m4. rewrite lookup_insert_eq.
      split; [reflexivity|]. rewrite E4, E3, E1. reflexivity.
    - destruct (update_cell ts _ m) as [m1|] eqn:E1; [|discriminate].
      cbn [mbind option_bind] in E2.
      apply update_cell_schedule in E1 as (c0 & Hc0 & E1).
      rewrite Hc in Hc0. injection Hc0 as <-.
      destruct (time_correction asn ts m1) as [m3|] eqn:E3; [|discriminate].
      cbn [mbind option_bind] in E2. apply time_correction_schedule in E3.
      apply tx_failed_subseteq in E2 as (m4 & Hm4 & Hsub).
      eexists m4. split; [exact Hm4|]. rewrite E3, E1 in Hsub. exact Hsub.
    - destruct (update_cell ts _ m) as [m1|] eqn:E1; [|discriminate].
      cbn [mbind option_bind] in E2.
      apply update_cell_schedule in E1 as (c0 & Hc0 & E1).
      rewrite Hc in Hc0. injection Hc0 as <-.
      apply tx_failed_subseteq in E2 as (m4 & Hm4 & Hsub).
      eexists m4. split; [exact Hm4|]. rewrite E1 in Hsub. exact Hsub. }
  destruct Hmid as (m2 & Hm2 & Hsub).
  rewrite Hm2 in H. cbn [mbind option_bind] in H.
  destruct (canbeInterfered self ts _) as [flag|]; [|discriminate].
  cbn [mbind option_bind] in H.
  clear E2.
  destruct (update_cell ts _ _) as [m3|] eqn:E3; [|discriminate].
  cbn [mbind option_bind] in H. injection H as <-.
  apply update_cell_schedule in E3 as (c2 & Hc2 & E3). simpl in Hc2, E3.
  apply (lookup_weaken _ _ _ _ Hc2) in Hsub. rewrite lookup_insert_eq in Hsub.
  injection Hsub as <-.
  eexists m3, flag. rewrite lookup_insert_eq. split; [reflexivity|].
  rewrite E3. rewrite lookup_insert_eq. reflexivity.
Qed.

(** X22. [txDone] and the counters of the cell of the slot: [numTx] is
    never changed by [txDone]; [numTxAck] goes up by one after an ACK and
    also after a NACK, and is unchanged when there is neither; the
    direction, the channel, the neighbor and [numRx] of the cell stay, and
    the cell is still in the schedule even when the packet is dropped. *)
Theorem txDone_counters settings asn rnd self isACKed isNACKed (w w' : network)
    (m : mote) (c : cell) :
  txDone settings asn rnd self isACKed isNACKed w = Some w' →
  w !! self = Some m →
  schedule m !! (asn `mod` slotframeLength settings) = Some c →
  ∃ m' c',
    w' !! self = Some m'
    ∧ schedule m' !! (asn `mod` slotframeLength settings) = Some c'
    ∧ numTx c' = numTx c
    ∧ numTxAck c' = numTxAck c + (if isACKed || isNACKed then 1 else 0)
    ∧ numRx c' = numRx c
    ∧ cell_dir c' = cell_dir c ∧ cell_ch c' = cell_ch c
    ∧ cell_neighbor c' = cell_neighbor c.
Proof.
  intros H Hm Hc.
  destruct (txDone_cell _ _ _ _ _ _ _ _ _ _ H Hm Hc) as (m' & flag & Hm' & Hc').
  eexists m', _. split; [exact Hm'|]. split; [exact Hc'|].
  destruct isACKed, isNACKed; simpl; repeat split; lia.
Qed.

Lemma txDone_counters_witness :
  txDone ex_settings 97 1 1 false true line_last_retry = Some line_after_nack
  ∧ line_last_retry !! 1 = Some line_sender
  ∧ schedule line_sender !! (97 `mod` slotframeLength ex_settings) = Some line_sender_cell
  ∧ ∃ m' c',
      line_after_nack !! 1 = Some m'
      ∧ schedule m' !! (97 `mod` slotframeLength ex_settings) = Some c'
      ∧ numTx c' = numTx line_sender_cell
      ∧ numTxAck c' = numTxAck line_sender_cell + 1
      ∧ numRx c' = numRx line_sender_cell
      ∧ cell_dir c' = cell_dir line_sender_cell ∧ cell_ch c' = cell_ch line_sender_cell
      ∧ cell_neighbor c' = cell_neighbor line_sender_cell.
Proof.
  assert (H1 : txDone ex_settings 97 1 1 false true line_last_retry = Some line_after_nack)
    by (vm_compute; reflexivity).
  assert (H2 : line_last_retry !! 1 = Some line_sender) by (vm_compute; reflexivity).
  assert (H3 : schedule line_sender !! (97 `mod` slotframeLength ex_settings)
               = Some line_sender_cell) by (vm_compute; reflexivity).
  split; [exact H1|]. split; [exact H2|]. split; [exact H3|].
  exact (txDone_counters ex_settings 97 1 1 false true _ _ _ _ H1 H2 H3).
Defined.

(** The TX cell of the slot after [_tsch_action_activeCell]. *)
Lemma _tsch_action_activeCell_tx settings asn self (w w1 : network) pr pr1 (m : mote) c :
  _tsch_action_activeCell settings asn self w pr = Some (w1, pr1) →
  w !! self = Some m →
  schedule m !! (asn `mod` slotframeLength settings) = Some c →
  cell_dir c = DIR_TX →
  ∃ m1, w1 !! self = Some m1
    ∧ ((waitingFor m1 = Some DIR_TX
        ∧ schedule m1 = <[asn `mod` slotframeLength settings := set_numTx (numTx c + 1) c]>
                          (schedule m)
        ∧ ∃ p v dmac, pktToSend m1 = Some p ∧ packets m1 !! p = Some v
                      ∧ cell_neighbor c = Some dmac
                      ∧ pr1 = startTx (cell_ch c) v self dmac pr)
       ∨ (waitingFor m1 ≠ Some DIR_TX ∧ schedule m1 = schedule m
          ∧ pktToSend m1 = None ∧ transmissions pr1 = transmissions pr)).
Proof.
  intros H Hm Hc Hd. unfold _tsch_action_activeCell in H.
  destruct (bool_decide (slotframeLength settings = 0)); [discriminate|].
  cbv zeta in H. set (ts := asn `mod` slotframeLength settings) in *.
  rewrite Hm in H. cbn [mbind option_bind] in H.
  rewrite Hc in H. cbn [mbind option_bind] in H.
  destruct (negb (bool_decide (waitingFor m = None)
                  || bool_decide (waitingFor m = Some DIR_SHARED))) eqn:Ew; [discriminate|].
  rewrite Hd in H.
  set (mb := if opportunist settings then _ else _) in H.
  set (mc := match pktToSend mb with Some _ => mb | None => _ end) in H.
  assert (Hmb : schedule mb = schedule m ∧ waitingFor mb = waitingFor m).
  { unfold mb. destruct (opportunist settings); [|done].
    destruct (pktToSendAlloc _); [|done]. by destruct (queue_contains _ _ _). }
  assert (Hmc : schedule mc = schedule m ∧ waitingFor mc = waitingFor m).
  { unfold mc. destruct (pktToSend mb); [done|]. by destruct (txQueue mb). }
  clearbody mc. clear mb Hmb. destruct Hmc as [Hs Hw].
  assert (Hnw : waitingFor m ≠ Some DIR_TX).
  { intros E. rewrite E in Ew. by vm_compute in Ew. }
  destruct (pktToSend mc) as [p|] eqn:Ep.
  - destruct (packets mc !! p) as [v|] eqn:Ev; [|discriminate].
    cbn [mbind option_bind] in H.
    destruct (cell_neighbor c) as [dmac|] eqn:En; [|discriminate].
    cbn [mbind option_bind] in H.
    destruct (update_cell ts _ mc) as [m1|] eqn:E1; [|discriminate].
    cbn [mbind option_bind] in H. injection H as <- <-.
    unfold update_cell in E1. rewrite Hs, Hc in E1. cbn [mbind option_bind] in E1.
    injection E1 as <-.
    eexists. rewrite lookup_insert_eq. split; [reflexivity|]. left.
    split; [reflexivity|]. split; [reflexivity|].
    exists p, v, dmac. simpl. done.
  - destruct (bool_decide (queuing settings ≠ 0)
              && bool_decide (0 ≤ ts < numSharedSlots settings));
      cbn [mbind option_bind] in H; injection H as <- <-;
      eexists; rewrite lookup_insert_eq; (split; [reflexivity|]); right.
    + split; [done|]. split; [done|]. split; [done|].
      simpl. rewrite andb_false_r. done.
    + rewrite Hw. split; [done|]. split; [done|]. split; [done|].
      by destruct (_ && _).
Qed.


(** X23. A TX slot. [_tsch_action_activeCell] in a TX cell sends a frame
    exactly when it finds a packet to send ([pktToSend]): then [numTx] of
    the cell goes up by one, the mote waits for the end of the transmission
    and one transmission, from the mote to the neighbor of the cell on the
    channel of the cell, is handed to the propagation; [txDone] at the end
    of the slot leaves [numTx] at that value and adds at most one to
    [numTxAck], so that a TX cell with [numTxAck <= numTx] keeps that
    through the slot. Without a packet the cell is unchanged and nothing is
    transmitted. *)
Theorem tx_slot_counters settings asn self (w w1 : network) pr pr1 (m : mote) c :
  _tsch_action_activeCell settings asn self w pr = Some (w1, pr1) →
  w !! self = Some m →
  schedule m !! (asn `mod` slotframeLength settings) = Some c →
  cell_dir c = DIR_TX →
  ∃ m1 c1,
    w1 !! self = Some m1
    ∧ schedule m1 !! (asn `mod` slotframeLength settings) = Some c1
    ∧ ((is_Some (pktToSend m1)
        ∧ waitingFor m1 = Some DIR_TX
        ∧ numTx c1 = numTx c + 1 ∧ numTxAck c1 = numTxAck c
        ∧ (∃ tx, transmissions pr1 = transmissions pr ++ [tx]
                 ∧ tx_smac tx = self ∧ cell_neighbor c = Some (tx_dmac tx)
                 ∧ tx_channel tx = cell_ch c)
        ∧ ∀ rnd isACKed isNACKed w2,
            txDone settings asn rnd self isACKed isNACKed w1 = Some w2 →
            ∃ m2 c2,
              w2 !! self = Some m2
              ∧ schedule m2 !! (asn `mod` slotframeLength settings) = Some c2
              ∧ numTx c2 = numTx c + 1
              ∧ numTxAck c2 = numTxAck c + (if isACKed || isNACKed then 1 else 0)
              ∧ (numTxAck c ≤ numTx c → numTxAck c2 ≤ numTx c2))
       ∨ (pktToSend m1 = None ∧ waitingFor m1 ≠ Some DIR_TX ∧ c1 = c
          ∧ transmissions pr1 = transmissions pr)).
Proof.
  intros H Hm Hc Hd.
  destruct (_tsch_action_activeCell_tx _ _ _ _ _ _ _ _ _ H Hm Hc Hd)
    as (m1 & Hm1 & [(Hw & Hs & p & v & dmac & Hp & Hv & Hn & ->)|(Hw & Hs & Hp & Hpr)]).
  - exists m1, (set_numTx (numTx c + 1) c).
    assert (Hc1 : schedule m1 !! (asn `mod` slotframeLength settings)
                  = Some (set_numTx (numTx c + 1) c))
      by (by rewrite Hs, lookup_insert_eq).
    split; [done|]. split; [done|]. left.
    split; [by eexists|]. split; [done|]. split; [done|]. split; [done|].
    split; [eexists; split; [reflexivity|]; by simpl|].
    intros rnd isACKed isNACKed w2 H2.
    destruct (txDone_cell _ _ _ _ _ _ _ _ _ _ H2 Hm1 Hc1) as (m2 & flag & Hm2 & Hc2).
    eexists m2, _. split; [exact Hm2|]. split; [exact Hc2|].
    destruct isACKed, isNACKed; simpl; repeat split; lia.
  - exists m1, c. split; [done|]. split; [by rewrite Hs|]. right. done.
Qed.

Lemma tx_slot_counters_witness :
  _tsch_action_activeCell ex_settings 53 1 line_queued (Build_propagation [] [])
  = Some (line_sending.1, line_sending.2)
  ∧ line_queued !! 1 = Some line_queued_mote
  ∧ schedule line_queued_mote !! (53 `mod` slotframeLength ex_settings)
    = Some line_queued_cell
  ∧ cell_dir line_queued_cell = DIR_TX
  ∧ ∃ m1 c1,
      line_sending.1 !! 1 = Some m1
      ∧ schedule m1 !! (53 `mod` slotframeLength ex_settings) = Some c1
      ∧ is_Some (pktToSend m1)
      ∧ numTx c1 = numTx line_queued_cell + 1.
Proof.
  assert (H1 : _tsch_action_activeCell ex_settings 53 1 line_queued (Build_propagation [] [])
               = Some (line_sending.1, line_sending.2)) by (vm_compute; reflexivity).
  assert (H2 : line_queued !! 1 = Some line_queued_mote) by (vm_compute; reflexivity).
  assert (H3 : schedule line_queued_mote !! (53 `mod` slotframeLength ex_settings)
               = Some line_queued_cell) by (vm_compute; reflexivity).
  assert (H4 : cell_dir line_queued_cell = DIR_TX) by (vm_compute; reflexivity).
  split; [exact H1|]. split; [exact H2|]. split; [exact H3|]. split; [exact H4|].
  destruct (tx_slot_counters ex_settings 53 1 line_queued line_sending.1
              (Build_propagation [] []) line_sending.2 line_queued_mote line_queued_cell
              H1 H2 H3 H4)
    as (m1 & c1 & Hm1 & Hc1 & [(Hp & _ & Hn & _)|(Hp & _)]).
  - exists m1, c1. split; [exact Hm1|]. split; [exact Hc1|]. split; [exact Hp|]. exact Hn.
  - exfalso.
    assert (E : (λ m, bool_decide (pktToSend m = None)) <$> line_sending.1 !! 1 = Some false)
      by (vm_compute; reflexivity).
    rewrite Hm1 in E. cbn [fmap option_fmap option_map] in E. rewrite Hp in E.
    discriminate E.
Defined.

(** ** The cells that OTF removes *)

(** What [top_cell_deletion_sender] does to the schedule of the mote. *)
Lemma top_cell_deletion_sender_schedule self neighbor tsList (w w' : network) (me : mote) :
  self ≠ neighbor →
  w !! self = Some me →
  top_cell_deletion_sender self neighbor tsList w = Some w' →
  ∃ me', w' !! self = Some me'
    ∧ ∀ ts, schedule me' !! ts =
            if bool_decide (ts ∈ tsList
                            ∧ (cell_neighbor <$> schedule me !! ts) = Some (Some neighbor))
            then None else schedule me !! ts.
Proof.
  intros Hne Hme H. unfold top_cell_deletion_sender in H. rewrite Hme in H. simpl in H.
  destruct (_tsch_removeCells neighbor tsList (Some DIR_TX) me) as [me1|] eqn:E1; [|done].
  simpl in H. unfold top_cell_deletion_receiver in H.
  rewrite lookup_insert_ne in H by done.
  destruct (w !! neighbor) as [nb|]; [|done]. simpl in H.
  destruct (mapM _ tsList) as [cellList|]; [|done]. simpl in H.
  destruct (_tsch_removeCells self tsList (Some DIR_RX) nb) as [nb1|] eqn:E2; [|done].
  simpl in H.
  match type of H with
  | mbind _ ?e = _ => destruct e as [w2|] eqn:E3; [|done]
  end.
  simpl in H.
  assert (Hs := delete_fold_only_reserve _ _ _ _ _ E3 self). clear E3.
  rewrite lookup_insert_ne in Hs by done. rewrite lookup_insert_eq in Hs.
  inversion Hs as [? me' Hme' Ea Eb|]; subst. symmetry in Eb.
  rewrite Eb in H. simpl in H.
  destruct (numCellsToNeighbors me' !! neighbor) as [n|]; [|done].
  simpl in H. case_bool_decide; [|done]. injection H as <-.
  exists me'. split; [exact Eb|].
  intros ts. rewrite Hme'. simpl. apply (_tsch_removeCells_schedule _ _ _ _ _ E1).
Qed.

Lemma tx_slots_to_neighbor neighbor (s : gmap Z cell) :
  let L := omap (λ '(ts, c), if bool_decide (cell_neighbor c = Some neighbor)
                                && bool_decide (cell_dir c = DIR_TX)
                             then Some ts else None) (map_to_list s) in
  NoDup L
  ∧ Z.of_nat (length L) = count_cells DIR_TX neighbor s
  ∧ ∀ ts, ts ∈ L ↔ ∃ c, s !! ts = Some c ∧ cell_neighbor c = Some neighbor
                        ∧ cell_dir c = DIR_TX.
Proof.
  intros L. unfold count_cells. split; [|split].
  - pose proof (NoDup_fst_map_to_list s) as Hnd. unfold L.
    induction (map_to_list s) as [|[ts c] l IH]; simpl; [constructor|].
    simpl in Hnd. apply list.NoDup_cons in Hnd as [Hts Hnd].
    destruct (_ && _); [|by apply IH]. constructor; [|by apply IH].
    intros Hin. apply Hts. apply list_elem_of_omap in Hin as ([ts' c'] & Hin & E).
    destruct (_ && _); [|done]. injection E as ->.
    apply list_elem_of_fmap. by exists (ts, c').
  - f_equal. unfold L. induction (map_to_list s) as [|[ts c] l IH]; simpl; [done|].
    rewrite filter_cons. simpl.
    destruct (decide (cell_neighbor c = Some neighbor)) as [Hn|Hn];
      destruct (decide (cell_dir c = DIR_TX)) as [Hd|Hd].
    + rewrite !bool_decide_eq_true_2 by done. rewrite decide_True by done.
      exact (f_equal S IH).
    + rewrite (bool_decide_eq_false_2 (cell_dir c = DIR_TX)) by done.
      rewrite andb_false_r. rewrite decide_False by tauto. exact IH.
    + rewrite (bool_decide_eq_false_2 (cell_neighbor c = Some neighbor)) by done.
      rewrite decide_False by tauto. exact IH.
    + rewrite (bool_decide_eq_false_2 (cell_neighbor c = Some neighbor)) by done.
      rewrite decide_False by tauto. exact IH.
  - intros ts. unfold L. rewrite list_elem_of_omap. split.
    + intros ([ts' c] & Hin & E). apply elem_of_map_to_list in Hin.
      destruct (bool_decide (cell_neighbor c = Some neighbor)) eqn:E1; [|done].
      destruct (bool_decide (cell_dir c = DIR_TX)) eqn:E2; [|done].
      injection E as ->. apply bool_decide_eq_true_1 in E1, E2. by exists c.
    + intros (c & Hc & Hn & Hd). exists (ts, c). split; [by apply elem_of_map_to_list|].
      by rewrite !bool_decide_eq_true_2 by done.
Qed.

(** X24. [_top_removeCells(neighbor, numCellsToRemove)] removes from the
    schedule of the mote TX cells to [neighbor] only, and at most
    [numCellsToRemove] of them; every other cell stays as it is. When the
    queues are not used ([queuing] is 0) it removes exactly
    [numCellsToRemove] such cells, or all of them when there are fewer.
    The ranking of the cells, a shuffle and a sort, permutes them. *)
Theorem _top_removeCells_removes removal_order settings self neighbor n
    (w w' : network) (me : mote) :
  (∀ l, removal_order l ≡ₚ l) →
  self ≠ neighbor →
  0 ≤ n →
  w !! self = Some me →
  _top_removeCells removal_order settings self neighbor n w = Some w' →
  ∃ me' removed,
    w' !! self = Some me'
    ∧ NoDup removed
    ∧ Z.of_nat (length removed) ≤ n
    ∧ (∀ ts, ts ∈ removed →
             ∃ c, schedule me !! ts = Some c ∧ cell_neighbor c = Some neighbor
                  ∧ cell_dir c = DIR_TX)
    ∧ (∀ ts, schedule me' !! ts =
             if bool_decide (ts ∈ removed) then None else schedule me !! ts)
    ∧ (queuing settings = 0 →
       Z.of_nat (length removed) = Z.min n (count_cells DIR_TX neighbor (schedule me))).
Proof.
  intros Hperm Hne Hn Hme H. unfold _top_removeCells in H.
  rewrite Hme in H. cbn [mbind option_bind] in H.
  destruct (w !! neighbor) as [nb|]; [|discriminate]. cbn [mbind option_bind] in H.
  destruct (tx_slots_to_neighbor neighbor (schedule me)) as (HndL & HlenL & HinL).
  cbv zeta in HndL, HlenL, HinL.
  set (L := omap _ (map_to_list (schedule me))) in *.
  set (tsList := filter _ (py_prefix (removal_order L) n)) in *.
  destruct (top_cell_deletion_sender_schedule _ _ _ _ _ _ Hne Hme H) as (me' & Hme' & Hs).
  assert (Hpre : py_prefix (removal_order L) n = take (Z.to_nat n) (removal_order L)).
  { unfold py_prefix. by rewrite bool_decide_eq_true_2. }
  assert (Hin : ∀ ts, ts ∈ tsList → ts ∈ L).
  { intros ts [_ Hts]%list_elem_of_filter. rewrite Hpre in Hts.
    rewrite <- (Hperm L). by eapply elem_of_sublist; [|apply sublist_take]. }
  exists me', tsList. split; [exact Hme'|]. split; [|split; [|split; [|split]]].
  - apply list.NoDup_filter. rewrite Hpre.
    eapply sublist_NoDup; [|apply sublist_take]. by rewrite (Hperm L).
  - etrans; [apply inj_le, length_filter|]. rewrite Hpre, length_take. lia.
  - intros ts Hts. by apply HinL, Hin.
  - intros ts. rewrite (Hs ts).
    destruct (decide (ts ∈ tsList)) as [Hts|Hts].
    + destruct (proj1 (HinL ts) (Hin ts Hts)) as (c & Hc & Hnb & _).
      rewrite !bool_decide_eq_true_2; [done|done|]. split; [done|]. by rewrite Hc, <- Hnb.
    + rewrite !bool_decide_eq_false_2; [done|done|tauto].
  - intros Hq.
    assert (tsList = py_prefix (removal_order L) n) as ->.
    { unfold tsList. generalize (py_prefix (removal_order L) n). intros l.
      induction l as [|x l IH]; [done|]. rewrite filter_cons.
      rewrite decide_True by (intros [Hq' _]; by apply Hq'). by rewrite IH. }
    rewrite Hpre, length_take, <- HlenL, (Hperm L). lia.
Qed.


Lemma _top_removeCells_removes_witness :
  (∀ l, ex_shuffle l ≡ₚ l)
  ∧ (1 : Z) ≠ 0 ∧ 0 ≤ 1
  ∧ line_w !! 1 = Some line_mote1
  ∧ _top_removeCells ex_shuffle ex_settings 1 0 1 line_w = Some line_after_deletion
  ∧ ∃ me' removed,
      line_after_deletion !! 1 = Some me'
      ∧ Z.of_nat (length removed) ≤ 1
      ∧ (∀ ts, schedule me' !! ts =
               if bool_decide (ts ∈ removed) then None else schedule line_mote1 !! ts).
Proof.
  assert (H1 : ∀ l, ex_shuffle l ≡ₚ l) by (intros l; reflexivity).
  assert (H2 : (1 : Z) ≠ 0) by discriminate.
  assert (H3 : 0 ≤ 1) by lia.
  assert (H4 : line_w !! 1 = Some line_mote1) by (vm_compute; reflexivity).
  assert (H5 : _top_removeCells ex_shuffle ex_settings 1 0 1 line_w
               = Some line_after_deletion) by (vm_compute; reflexivity).
  split; [exact H1|]. split; [exact H2|]. split; [exact H3|]. split; [exact H4|].
  split; [exact H5|].
  destruct (_top_removeCells_removes ex_shuffle ex_settings 1 0 1 line_w
              line_after_deletion line_mote1 H1 H2 H3 H4 H5)
    as (me' & removed & Hme' & _ & Hlen & _ & Hs & _).
  exists me', removed. split; [exact Hme'|]. split; [exact Hlen|]. exact Hs.
Defined.

(** ** The statistics of a cell and of the latency *)

Lemma getCellStats_loop_absent ts ch (l : list (Z * cell)) :
  ts ∉ l.*1 → getCellStats_loop ts ch l = Some None.
Proof.
  induction l as [|[ts' c'] l IH]; intros Hts; simpl; [done|].
  simpl in Hts. apply not_elem_of_cons in Hts as [Hne Hts].
  rewrite (bool_decide_eq_false_2 (ts' = ts)) by done. simpl. by apply IH.
Qed.

Lemma getCellStats_loop_present ts ch (l : list (Z * cell)) c :
  NoDup l.*1 → (ts, c) ∈ l →
  getCellStats_loop ts ch l
  = if bool_decide (cell_ch c = ch)
    then n ← cell_neighbor c;
         Some (Some (Build_cellStats (cell_dir c) n (numTx c) (numTxAck c) (numRx c)))
    else Some None.
Proof.
  induction l as [|[ts' c'] l IH]; intros Hnd Hin; [by apply elem_of_nil in Hin|].
  simpl in Hnd. apply list.NoDup_cons in Hnd as [Hts Hnd]. simpl.
  apply elem_of_cons in Hin as [E|Hin].
  - injection E as <- <-. rewrite (bool_decide_eq_true_2 (ts = ts)) by done. simpl.
    case_bool_decide; [done|]. by apply getCellStats_loop_absent.
  - assert (Hne : ts' ≠ ts).
    { intros ->. apply Hts. apply list_elem_of_fmap. by exists (ts, c). }
    rewrite (bool_decide_eq_false_2 (ts' = ts)) by done. simpl. by apply IH.
Qed.

(** X25. [getCellStats(ts, ch)] looks at the cell of the slot [ts] only:
    it returns [None] when the slot has no cell or a cell on another
    channel, the statistics of the cell when its channel is [ch], and it
    raises on a cell without a neighbor, as the SHARED cells are
    ([cell['neighbor'].id]). *)
Theorem getCellStats_lookup ts ch (m : mote) :
  getCellStats ts ch m
  = match schedule m !! ts with
    | Some c =>
        if bool_decide (cell_ch c = ch) then
          match cell_neighbor c with
          | Some n => Some (Some (Build_cellStats (cell_dir c) n (numTx c) (numTxAck c)
                                                  (numRx c)))
          | None => None
          end
        else Some None
    | None => Some None
    end.
Proof.
  unfold getCellStats. destruct (schedule m !! ts) as [c|] eqn:Ec.
  - rewrite (getCellStats_loop_present ts ch _ c).
    + case_bool_decide; [|done]. by destruct (cell_neighbor c).
    + apply NoDup_fst_map_to_list.
    + by apply elem_of_map_to_list.
  - apply getCellStats_loop_absent. intros Hin.
    apply list_elem_of_fmap in Hin as ([ts' c] & -> & Hin).
    apply elem_of_map_to_list in Hin. simpl in *. congruence.
Qed.

(** X26. [_collectLatencyStats] appends to [latencyPerRank[r]] the average
    latency of every mote of rank [r] that counts, in the order of
    [engine.motes]; for a rank that is not yet in the dict, the latency of
    the first such mote is entered twice, so that the list of a new rank
    is one entry longer than the number of its motes. A rank with no mote
    that counts keeps its entry. *)
Theorem _collectLatencyStats_first_twice (lpr : gmap Z (list Q))
    (motes : list (mote * option Z)) (r : Z) :
  _collectLatencyStats lpr motes !! r
  = match (filter (λ x, x.1 = r) (latency_entries motes)).*2 with
    | [] => lpr !! r
    | x :: l => Some (match lpr !! r with
                      | Some old => old ++ x :: l
                      | None => x :: x :: l
                      end)
    end.
Proof.
  unfold _collectLatencyStats. generalize (latency_entries motes). intros P.
  revert lpr r.
  induction P as [|[r0 ave] P IH]; intros lpr r; [done|].
  cbn [foldl]. rewrite IH. clear IH. rewrite filter_cons. cbn [fst].
  destruct (decide (r0 = r)) as [->|Hne].
  - rewrite fmap_cons. cbn [snd]. rewrite lookup_insert_eq.
    destruct (lpr !! r) as [old|] eqn:Eo.
    + rewrite bool_decide_eq_false_2 by congruence. rewrite Eo. simpl.
      destruct ((filter _ P).*2) as [|x l]; [done|]. by rewrite <- app_assoc.
    + rewrite bool_decide_eq_true_2 by done. rewrite lookup_insert_eq. simpl.
      by destruct ((filter _ P).*2) as [|x l].
  - rewrite lookup_insert_ne by done.
    case_bool_decide; [rewrite lookup_insert_ne by done|]; done.
Qed.

(** ** The call of [_top_cell_reservation_request] that reaches the timeout *)

(** [top_cell_reservation_response] changes, of the motes other than the
    responder, the reserve tables only. *)
Lemma top_cell_reservation_response_others shuffle getNextTS settings asn self neighbor
    numCells dirNeighbor slotUsedByNeighbor (w w' : network) (cells : gmap Z Z) :
  top_cell_reservation_response shuffle getNextTS settings asn self neighbor numCells
    dirNeighbor slotUsedByNeighbor w = Some (cells, w') →
  ∀ i, i ≠ self →
       option_Forall2 (λ m m' : mote, m' = set_reserve (reserve m') m) (w !! i) (w' !! i).
Proof.
  intros H i Hi. unfold top_cell_reservation_response in H.
  destruct (w !! self) as [me|]; [|discriminate]. cbn [mbind option_bind] in H.
  destruct (w !! neighbor) as [nb|]; [|discriminate]. cbn [mbind option_bind] in H.
  cbv zeta in H.
  match type of H with
  | mbind _ ?e = _ => destruct e as [used|]; [|discriminate]
  end.
  cbn [mbind option_bind] in H.
  destruct (mapM _ _) as [chosen|]; [|discriminate]. cbn [mbind option_bind] in H.
  destruct (if idealAllocation settings then _ else _) as [cells0 cellList0].
  match type of H with
  | mbind _ ?e = _ => destruct e as [w1|] eqn:E1; [|discriminate]
  end.
  cbn [mbind option_bind] in H.
  assert (Hres : option_Forall2 (λ m m' : mote, m' = set_reserve (reserve m') m)
                   (w !! i) (w1 !! i)).
  { destruct (bool_decide (_ = DIR_TX)).
    - apply reserve_fold_only_reserve with (i := i) in E1.
      by rewrite lookup_insert_ne in E1.
    - apply reserve_fold_only_reserve with (i := i) in E1.
      by rewrite lookup_insert_ne in E1. }
  destruct (bool_decide (queuing settings ≠ 0)).
  - destruct (w1 !! self) as [me1|]; [|discriminate]. cbn [mbind option_bind] in H.
    injection H as _ <-. by rewrite lookup_insert_ne.
  - injection H as _ <-. exact Hres.
Qed.

(** The request itself, from the state [m] of the mote after the gate. *)
Lemma request_after_gate_result shuffle getNextTS settings asn self neighbor numCells dir
    (m : mote) (w : network) :
  ((requestTriggered m !! neighbor = Some true
    ∨ sequenceNumberWithNeighbor m !! neighbor = None) →
   request_after_gate shuffle getNextTS settings asn self neighbor numCells dir m w
   = Some (<[self := m]> w))
  ∧ (∀ s w', requestTriggered m !! neighbor ≠ Some true →
             sequenceNumberWithNeighbor m !! neighbor = Some s →
             self ≠ neighbor →
             request_after_gate shuffle getNextTS settings asn self neighbor numCells dir m w
             = Some w' →
             ∃ mr, w' !! self = Some mr
               ∧ pendingTransaction mr
                 = Some (Build_pendingTransaction "moteRequest" neighbor None s)
               ∧ requestTriggered mr = <[neighbor := true]> (requestTriggered m)
               ∧ transactionRetries mr = transactionRetries m
               ∧ motestats mr = motestats m)
  ∧ (∀ s, requestTriggered m !! neighbor ≠ Some true →
          sequenceNumberWithNeighbor m !! neighbor = Some s →
          queuing settings ≠ 0 → bootstrap settings = true →
          is_Some (request_after_gate shuffle getNextTS settings asn self neighbor numCells
                     dir m w)).
Proof.
  unfold request_after_gate. split; [|split].
  - intros [Ht|Hs].
    + by rewrite Ht.
    + rewrite Hs. rewrite (bool_decide_eq_true_2 (None = None)) by done.
      by rewrite orb_true_r.
  - intros s w' Ht Hs Hne H.
    assert (Et : (match requestTriggered m !! neighbor with Some true => true | _ => false end)
                 = false).
    { destruct (requestTriggered m !! neighbor) as [[|]|]; done. }
    rewrite Et, Hs in H. rewrite bool_decide_eq_false_2 in H by done.
    cbn [orb mbind option_bind] in H. cbv zeta in H.
    set (m1 := set_pendingTransaction _ _) in H.
    destruct (bool_decide (queuing settings ≠ 0) && _).
    + injection H as <-. eexists. rewrite lookup_insert_eq. split; [reflexivity|].
      done.
    + match type of H with
      | mbind _ ?e = _ => destruct e as [[cells w2]|] eqn:E; [|discriminate]
      end.
      cbn [mbind option_bind] in H.
      assert (Hoth : option_Forall2 (λ m m' : mote, m' = set_reserve (reserve m') m)
                       (<[self := m1]> w !! self) (w2 !! self)).
      { destruct (bool_decide (queuing settings = 1));
          by eapply top_cell_reservation_response_others. }
      rewrite lookup_insert_eq in Hoth.
      inversion Hoth as [? m2 Hm2 Ea Eb|]; subst. symmetry in Eb.
      rewrite Eb in H. cbn [mbind option_bind] in H.
      injection H as <-. eexists. rewrite lookup_insert_eq. split; [reflexivity|].
      rewrite Hm2. by destruct (bool_decide (dir = DIR_TX)).
  - intros s Ht Hs Hq Hb.
    assert (Et : (match requestTriggered m !! neighbor with Some true => true | _ => false end)
                 = false).
    { destruct (requestTriggered m !! neighbor) as [[|]|]; done. }
    rewrite Et, Hs. rewrite bool_decide_eq_false_2 by done.
    cbn [orb mbind option_bind]. cbv zeta.
    rewrite (bool_decide_eq_true_2 (queuing settings ≠ 0)) by done. rewrite Hb.
    cbn [andb orb]. by eexists.
Qed.

(** C4. While a mote holds a pending 6top transaction, a call of
    [_top_cell_reservation_request] adds one to [transactionRetries] and
    returns; on the call where the counter reaches [transactionTimeout] = 20
    the mote runs [_top_abort_transaction], after which no cell recorded in
    [pendingTransaction.cells] is left in its schedule with the peer as
    neighbor (every other slot is as before), [requestTriggered] of the peer
    is [False], [pendingTransaction] is [None] and [transactionAborted] is
    one more than before. The call does not return there: it goes on with
    the request to [neighbor]. When the request is refused ([neighbor] has
    no sequence number, or a request to it is triggered already) the call
    returns the state after the abort. Otherwise, and always when
    [neighbor] is the peer of the aborted transaction and has a sequence
    number, the mote that the call returns has [requestTriggered] of
    [neighbor] at [True] again and a new pending transaction "moteRequest";
    [transactionRetries] is 0 and [transactionAborted] is still one more
    than before. *)
Theorem top_request_timeout_aborts shuffle getNextTS settings asn self neighbor numCells dir
    (w : network) (m : mote) (pt : pendingTransaction_obj) (v : Z) :
  w !! self = Some m →
  pendingTransaction m = Some pt →
  transactionTimeout m = 20 →
  motestats m !! "transactionAborted"%string = Some v →
  counter_ready (pt_dirToRemove pt) (pt_neighbor pt) m →
  (transactionRetries m + 1 ≠ 20 →
     _top_cell_reservation_request shuffle getNextTS settings asn self neighbor numCells dir w
     = Some (<[self := set_transactionRetries (transactionRetries m + 1) m]> w))
  ∧ (transactionRetries m + 1 = 20 →
     ∃ m', _top_abort_transaction (set_transactionRetries 20 m) = Some m'
       ∧ _top_cell_reservation_request shuffle getNextTS settings asn self neighbor numCells dir w
         = request_after_gate shuffle getNextTS settings asn self neighbor numCells dir m' w
       ∧ (∀ ts, ts ∈ pt_slots pt →
                (cell_neighbor <$> schedule m' !! ts) ≠ Some (Some (pt_neighbor pt)))
       ∧ (∀ ts, ts ∉ pt_slots pt → schedule m' !! ts = schedule m !! ts)
       ∧ requestTriggered m' !! pt_neighbor pt = Some false
       ∧ pendingTransaction m' = None
       ∧ transactionRetries m' = 0
       ∧ motestats m' !! "transactionAborted"%string = Some (v + 1)
       ∧ ((requestTriggered m' !! neighbor = Some true
           ∨ sequenceNumberWithNeighbor m' !! neighbor = None) →
          _top_cell_reservation_request shuffle getNextTS settings asn self neighbor numCells
            dir w = Some (<[self := m']> w))
       ∧ (∀ s w',
            neighbor = pt_neighbor pt ∨ requestTriggered m' !! neighbor ≠ Some true →
            sequenceNumberWithNeighbor m' !! neighbor = Some s →
            self ≠ neighbor →
            _top_cell_reservation_request shuffle getNextTS settings asn self neighbor
              numCells dir w = Some w' →
            ∃ mr, w' !! self = Some mr
              ∧ pendingTransaction mr
                = Some (Build_pendingTransaction "moteRequest" neighbor None s)
              ∧ requestTriggered mr !! neighbor = Some true
              ∧ transactionRetries mr = 0
              ∧ motestats mr !! "transactionAborted"%string = Some (v + 1))
       ∧ (∀ s,
            neighbor = pt_neighbor pt ∨ requestTriggered m' !! neighbor ≠ Some true →
            sequenceNumberWithNeighbor m' !! neighbor = Some s →
            queuing settings ≠ 0 → bootstrap settings = true →
            is_Some (_top_cell_reservation_request shuffle getNextTS settings asn self
                       neighbor numCells dir w))).
Proof.
  intros Hw Hpt Hto Hv Hc. split; intros Hr.
  - unfold _top_cell_reservation_request. rewrite Hw. simpl. rewrite Hpt. simpl.
    rewrite bool_decide_eq_false_2; [done|]. simpl. lia.
  - assert (Hc' : counter_ready (pt_dirToRemove pt) (pt_neighbor pt)
                    (set_transactionRetries 20 m)).
    { unfold counter_ready in *. destruct (pt_dirToRemove pt) as [[| |]|]; simpl; exact Hc. }
    destruct (_top_abort_transaction_pending (set_transactionRetries 20 m) pt v Hpt Hv Hc')
      as (m' & E & Hs & Hrt & Hp & Htr & Hst).
    assert (Hcall : _top_cell_reservation_request shuffle getNextTS settings asn self
                      neighbor numCells dir w
                    = request_after_gate shuffle getNextTS settings asn self neighbor
                        numCells dir m' w).
    { unfold _top_cell_reservation_request. rewrite Hw. simpl. rewrite Hpt. simpl.
      rewrite bool_decide_eq_true_2 by (simpl; lia).
      rewrite Hr, E. done. }
    assert (Hpeer : requestTriggered m' !! pt_neighbor pt = Some false).
    { rewrite Hrt. simpl. apply lookup_insert_eq. }
    assert (Hnt : neighbor = pt_neighbor pt ∨ requestTriggered m' !! neighbor ≠ Some true →
                  requestTriggered m' !! neighbor ≠ Some true).
    { intros [->|Hn]; [|exact Hn]. rewrite Hpeer. discriminate. }
    destruct (request_after_gate_result shuffle getNextTS settings asn self neighbor
                numCells dir m' w) as (Hrefused & Hnew & Hret).
    exists m'. split; [exact E|]. split; [exact Hcall|].
    split; [|split; [|split; [|split; [|split; [|split; [|split; [|split]]]]]]].
    + intros ts Hin. rewrite Hs. simpl. case_bool_decide as Hd; [done|].
      intros Heq. apply Hd. split; [done|]. done.
    + intros ts Hin. rewrite Hs. simpl. rewrite bool_decide_eq_false_2; [done|].
      intros [? _]. done.
    + exact Hpeer.
    + done.
    + done.
    + rewrite Hst. simpl. apply lookup_insert_eq.
    + intros Href. rewrite Hcall. by apply Hrefused.
    + intros s w' Hn Hseq Hne Hw'. rewrite Hcall in Hw'.
      destruct (Hnew s w' (Hnt Hn) Hseq Hne Hw') as (mr & Hmr & Hp' & Hrt' & Htr' & Hst').
      exists mr. split; [exact Hmr|]. split; [exact Hp'|].
      split; [rewrite Hrt'; apply lookup_insert_eq|].
      split; [by rewrite Htr'|].
      rewrite Hst', Hst. simpl. apply lookup_insert_eq.
    + intros s Hn Hseq Hq Hb. rewrite Hcall. by apply (Hret s (Hnt Hn) Hseq).
Qed.

(** The claim C4 fails for the call that reaches the timeout. Mote 1 holds
    the pending transaction of its answer to mote 0, with the slots 7 and 9,
    and has counted 19 calls; its next request to mote 0 aborts that
    transaction and opens a new one: when the call returns
    [pendingTransaction] is a "moteRequest" to mote 0 and [requestTriggered]
    of mote 0 is [True], while [transactionAborted] has gone from 0 to 1. *)
Lemma request_at_timeout_opens_transaction :
  pendingTransaction ex_waiting_mote = Some ex_pending
  ∧ transactionRetries ex_waiting_mote + 1 = transactionTimeout ex_waiting_mote
  ∧ transactionTimeout ex_waiting_mote = 20
  ∧ motestats ex_waiting_mote !! "transactionAborted"%string = Some 0
  ∧ (w' ← _top_cell_reservation_request ex_shuffle ex_getNextTS ex_settings 200 1 0 1 DIR_TX
             ex_waiting;
     m' ← w' !! 1;
     Some (pendingTransaction m', requestTriggered m' !! 0,
           motestats m' !! "transactionAborted"%string))
    = Some (Some (Build_pendingTransaction "moteRequest" 0 None 1), Some true, Some 1).
Proof. vm_compute. repeat split; reflexivity. Qed.

Lemma top_request_timeout_aborts_witness :
  ex_waiting !! 1 = Some ex_waiting_mote
  ∧ pendingTransaction ex_waiting_mote = Some ex_pending
  ∧ transactionRetries ex_waiting_mote + 1 = 20
  ∧ ∃ m', _top_abort_transaction (set_transactionRetries 20 ex_waiting_mote) = Some m'
      ∧ (cell_neighbor <$> schedule m' !! 7) ≠ Some (Some 0)
      ∧ pendingTransaction m' = None
      ∧ motestats m' !! "transactionAborted"%string = Some 1
      ∧ ∃ w' mr,
          _top_cell_reservation_request ex_shuffle ex_getNextTS ex_settings 200 1 0 1 DIR_TX
            ex_waiting = Some w'
          ∧ w' !! 1 = Some mr
          ∧ pendingTransaction mr = Some (Build_pendingTransaction "moteRequest" 0 None 1)
          ∧ requestTriggered mr !! 0 = Some true
          ∧ motestats mr !! "transactionAborted"%string = Some 1.
Proof.
  assert (H1 : ex_waiting !! 1 = Some ex_waiting_mote) by (vm_compute; reflexivity).
  assert (H2 : pendingTransaction ex_waiting_mote = Some ex_pending)
    by (vm_compute; reflexivity).
  assert (H3 : transactionTimeout ex_waiting_mote = 20) by (vm_compute; reflexivity).
  assert (H4 : motestats ex_waiting_mote !! "transactionAborted"%string = Some 0)
    by (vm_compute; reflexivity).
  assert (H5 : counter_ready (pt_dirToRemove ex_pending) (pt_neighbor ex_pending)
                 ex_waiting_mote) by (vm_compute; eexists; reflexivity).
  assert (H6 : transactionRetries ex_waiting_mote + 1 = 20) by (vm_compute; reflexivity).
  destruct (top_request_timeout_aborts ex_shuffle ex_getNextTS ex_settings 200 1 0 1 DIR_TX
              ex_waiting ex_waiting_mote ex_pending 0 H1 H2 H3 H4 H5) as [_ Habort].
  destruct (Habort H6)
    as (m' & E & Hreq & Hgone & _ & _ & Hp & _ & Hst & _ & Hnew & Hret).
  split; [exact H1|]. split; [exact H2|]. split; [exact H6|].
  exists m'. split; [exact E|].
  split; [apply Hgone; apply list_elem_of_here|].
  split; [exact Hp|]. split; [exact Hst|].
  assert (Hseq : sequenceNumberWithNeighbor m' !! 0 = Some 1).
  { assert (Ev : sequenceNumberWithNeighbor
                   <$> _top_abort_transaction (set_transactionRetries 20 ex_waiting_mote)
                 = Some {[ 0 := 1 ]}) by (vm_compute; reflexivity).
    rewrite E in Ev. cbn [fmap option_fmap option_map] in Ev.
    injection Ev as ->. reflexivity. }
  assert (Hpeer : (0 : Z) = pt_neighbor ex_pending
                  ∨ requestTriggered m' !! 0 ≠ Some true) by (left; reflexivity).
  destruct (Hret 1 Hpeer Hseq) as [w' Hw']; [vm_compute; discriminate | reflexivity |].
  destruct (Hnew 1 w' Hpeer Hseq) as (mr & Hmr & Hpm & Hrt & _ & Hsm);
    [discriminate | exact Hw' |].
  exists w', mr. split; [exact Hw'|]. split; [exact Hmr|]. split; [exact Hpm|].
  split; [exact Hrt | exact Hsm].
Defined.
